(** * CP Editor main window: test slots, verdict comparison, dirty tracking

    A shallow embedding of the logic of [src/mainwindow.cc]: the tolerant
    output comparator [isVerdictPass], the test-slot persistence routines
    [loadTests] / [saveTests], the run callback [executionFinished],
    [clearTests], and the dirty-state protocol [isTextChanged] /
    [saveFile] / [closeChangedConfirm]; then the commands built on them:
    the constructor, [applyCompanion], [saveAs], and the compile and run
    commands up to the calls of the compiler and of the runner.

    Conventions of the embedding.
    - A [QString] is a list of characters.  Characters are the 8-bit
      code points [ascii] (the Latin-1 range of [QChar]).
    - The widgets ([QPlainTextEdit], [QLabel]) are cells holding their
      text: [setPlainText t] makes [toPlainText ()] return [t].  A
      [QPlainTextEdit] does so for a text without carriage return and
      without no-break space: it turns the first into a line break and
      gives the second back as a space.
    - The file system maps a path to a file with its text and its
      permissions, and records the paths at which no file can be
      created.  The text of a file is the [QString] that reading it
      yields; the encoding is not modelled, nor is the translation of
      line ends of [QFile::Text], with which the source opens every
      file: reading drops the carriage returns, so a text that was
      written is read back as it was when it holds none.  Paths are the
      strings the program builds, and the names of the test files are
      those of the source for a file named by a clean absolute path.
      A write goes through
      [QIODevice::write (const char * )], which stops at the first NUL
      character of the C string it is given.
    - [MainWindow] methods run in a state monad over the window, the file
      system, the message log and the dialogs shown to the user.  The
      answers of the user to dialogs are arguments of the methods. *)

From Stdlib Require Import Ascii String.
From stdpp Require Import gmap strings list fin_maps.
From Equations Require Import Equations.
From Equations.Prop Require Import Logic.

(** ** Text *)

Module Text.

Abbreviation QChar := ascii.
Abbreviation QString := (list ascii).

(** String literals of the source. *)
Definition qs (s : string) : QString := list_ascii_of_string s.

Definition NUL : QChar := "000"%char.
Definition LF : QChar := "010"%char.
Definition CR : QChar := "013"%char.
Definition SP : QChar := " "%char.

(** [QChar::isSpace]: the code points 9 to 13, 32, and beyond ASCII the
    next-line control 0x85 and the no-break space 0xA0. *)
Definition isSpace (c : QChar) : bool :=
  let n := nat_of_ascii c in
  (n =? 32) || ((9 <=? n) && (n <=? 13)) ||
  ((127 <? n) && ((n =? 133) || (n =? 160))).

Definition isEmpty (s : QString) : bool :=
  match s with [] => true | _ => false end.

Definition size (s : QString) : nat := length s.

Fixpoint eqb (s t : QString) : bool :=
  match s, t with
  | [], [] => true
  | c :: s', d :: t' => Ascii.eqb c d && eqb s' t'
  | _, _ => false
  end.

Fixpoint skip_spaces (s : QString) : QString :=
  match s with
  | c :: s' => if isSpace c then skip_spaces s' else s
  | [] => []
  end.

(** [QString::trimmed]: white space removed from the start and the end. *)
Definition trimmed (s : QString) : QString :=
  rev (skip_spaces (rev (skip_spaces s))).

(** [QString::remove (QChar)]: every occurrence of the character. *)
Fixpoint remove (c : QChar) (s : QString) : QString :=
  match s with
  | [] => []
  | d :: s' => if Ascii.eqb d c then remove c s' else d :: remove c s'
  end.

(** [QString::split (QChar)] with the default [KeepEmptyParts]: the
    result always has one more part than there are separators, so the
    empty string splits into one empty part. *)
Fixpoint split (sep : QChar) (s : QString) : list QString :=
  match s with
  | [] => [[]]
  | c :: s' =>
      if Ascii.eqb c sep then [] :: split sep s'
      else match split sep s' with
           | w :: ws => (c :: w) :: ws
           | [] => [[c]]
           end
  end.

(** [QList::operator[]] at an index the caller has checked. *)
Definition at_ (l : list QString) (i : nat) : QString := nth i l [].

(** [std::string::c_str] as read by a consumer of C strings: the
    characters before the first NUL. *)
Fixpoint c_str (s : QString) : QString :=
  match s with
  | [] => []
  | c :: s' => if Ascii.eqb c NUL then [] else c :: c_str s'
  end.

(** [QString::number] and [std::to_string] on a natural number: its
    decimal digits. *)
Definition digit (n : nat) : QChar := ascii_of_nat (48 + n).

Fixpoint number_aux (fuel n : nat) (acc : QString) : QString :=
  match fuel with
  | 0 => acc
  | S fuel' =>
      let acc' := digit (n `mod` 10) :: acc in
      if n <? 10 then acc' else number_aux fuel' (n `div` 10) acc'
  end.

Definition number (n : nat) : QString := number_aux (S n) n [].

End Text.
Import Text.

(** ** The verdict comparator *)

Module Comparator.

(** The inner loop of [isVerdictPass], from index [j]:
    [for (j; j < a_words.size() || j < b_words.size(); ++j)].
    The result is [false] when the body executes [return false], and
    [true] when the loop runs to its end. *)
Equations? words_loop (a_words b_words : list QString) (j : nat) : bool
  by wf (max (length a_words) (length b_words) - j) lt :=
words_loop a_words b_words j
  with inspect ((j <? length a_words) || (j <? length b_words)) := {
  | exist _ false _ => true
  | exist _ true Hcond =>
      if length a_words <=? j then
        if isEmpty (trimmed (at_ b_words j))
        then words_loop a_words b_words (S j)
        else false
      else if length b_words <=? j then
        if isEmpty (trimmed (at_ a_words j))
        then words_loop a_words b_words (S j)
        else false
      else if negb (eqb (at_ a_words j) (at_ b_words j)) then false
      else words_loop a_words b_words (S j) }.
Proof.
  all: apply orb_true_iff in Hcond;
    rewrite !Nat.ltb_lt in Hcond; lia.
Qed.

(** The outer loop, from index [i]. *)
Equations? lines_loop (a_lines b_lines : list QString) (i : nat) : bool
  by wf (max (length a_lines) (length b_lines) - i) lt :=
lines_loop a_lines b_lines i
  with inspect ((i <? length a_lines) || (i <? length b_lines)) := {
  | exist _ false _ => true
  | exist _ true Hcond =>
      if length a_lines <=? i then
        if isEmpty (trimmed (at_ b_lines i))
        then lines_loop a_lines b_lines (S i)
        else false
      else if length b_lines <=? i then
        if isEmpty (trimmed (at_ a_lines i))
        then lines_loop a_lines b_lines (S i)
        else false
      else
        let a_words := split SP (at_ a_lines i) in
        let b_words := split SP (at_ b_lines i) in
        if words_loop a_words b_words 0
        then lines_loop a_lines b_lines (S i)
        else false }.
Proof.
  all: apply orb_true_iff in Hcond;
    rewrite !Nat.ltb_lt in Hcond; lia.
Qed.

Definition isVerdictPass (output expected : QString) : bool :=
  let output := remove CR output in
  let expected := remove CR expected in
  let a_lines := split LF output in
  let b_lines := split LF expected in
  lines_loop a_lines b_lines 0.

End Comparator.
Import Comparator.

(** ** The reference comparison of the specification

    Written from the words of section 4.1 of the specification, to be
    compared with [isVerdictPass]. *)

Module Reference.

(** A line or token that is empty after trimming. *)
Definition blank (s : QString) : bool := isEmpty (trimmed s).

(** The lock-step walk of two sequences up to the longer length: an
    element present in only one sequence matches only if it is blank,
    elements present in both are compared with [both]. *)
Definition step (both : QString -> QString -> bool)
    (xs ys : list QString) (i : nat) : bool :=
  match xs !! i, ys !! i with
  | Some x, Some y => both x y
  | Some x, None => blank x
  | None, Some y => blank y
  | None, None => true
  end.

Definition lockstep (both : QString -> QString -> bool)
    (xs ys : list QString) : bool :=
  forallb (step both xs ys) (seq 0 (max (length xs) (length ys))).

(** Tokens of a line, on the single space character. *)
Definition tokens (line : QString) : list QString := split SP line.

Definition same_token (x y : QString) : bool := bool_decide (x = y).

Definition lines_match (la lb : QString) : bool :=
  lockstep same_token (tokens la) (tokens lb).

Definition strip_cr (s : QString) : QString :=
  filter (fun c => c <> CR) s.

Definition lines (s : QString) : list QString := split LF s.

Definition accepts (actual expected : QString) : bool :=
  lockstep lines_match (lines (strip_cr actual)) (lines (strip_cr expected)).

End Reference.
Import Reference.

(** ** Files *)

Module Files.

(** A file on disk: its text and whether the process may read and
    write it. *)
Record File := mkFile {
  content : QString;
  readable : bool;
  writable : bool;
}.

(** The file system: the files by path, and the paths at which the
    process may not create a file. *)
Record FileSystem := mkFileSystem {
  files : gmap QString File;
  locked : gset QString;
}.

(** The open modes of the source.  Each is passed together with
    [QFile::Text], whose translation of line ends is not modelled. *)
Inductive OpenMode := ReadOnly | WriteOnly | ReadWrite.

(** A [QFile] object: the name it was built with, whether it is open,
    and the position of the device. *)
Record QFile := mkQFile {
  QFile_fileName : QString;
  QFile_isOpen : bool;
  QFile_pos : nat;
}.

Definition QFile_new (name : QString) : QFile :=
  {| QFile_fileName := name; QFile_isOpen := false; QFile_pos := 0 |}.

Definition created : File :=
  {| content := []; readable := true; writable := true |}.

Definition fs_set (p : QString) (f : File) (fs : FileSystem) : FileSystem :=
  {| files := <[p := f]> (files fs); locked := locked fs |}.

Definition set_content (c : QString) (f : File) : File :=
  {| content := c; readable := readable f; writable := writable f |}.

(** [QFile::exists (path)]. *)
Definition fs_exists (fs : FileSystem) (p : QString) : bool :=
  bool_decide (is_Some (files fs !! p)).

(** What opening path [p] does: whether it succeeds, and the file
    system afterwards.  [WriteOnly] implies truncation; [WriteOnly] and
    [ReadWrite] create a missing file where the path is not locked. *)
Definition fs_open (mode : OpenMode) (p : QString) (fs : FileSystem)
    : bool * FileSystem :=
  match files fs !! p with
  | Some f =>
      match mode with
      | ReadOnly => (readable f, fs)
      | WriteOnly =>
          if writable f then (true, fs_set p (set_content [] f) fs)
          else (false, fs)
      | ReadWrite => (readable f && writable f, fs)
      end
  | None =>
      match mode with
      | ReadOnly => (false, fs)
      | WriteOnly | ReadWrite =>
          if bool_decide (p ∈ locked fs) then (false, fs)
          else (true, fs_set p created fs)
      end
  end.

(** The text read through a handle on [p]. *)
Definition fs_read (fs : FileSystem) (p : QString) : QString :=
  match files fs !! p with
  | Some f => content f
  | None => []
  end.

(** The text of a file after [data] is written at position [p]; a
    position beyond the end leaves a gap of NUL characters. *)
Definition write_at (p : nat) (data c : QString) : QString :=
  take p c ++ replicate (p - length c) NUL ++ data ++
  drop (p + length data) c.

Arguments write_at : simpl never.

(** The text of a file after it is resized to [sz] characters. *)
Definition resized (sz : nat) (c : QString) : QString :=
  take sz c ++ replicate (sz - length c) NUL.

(** The characters before the first [c], and those from it on. *)
Fixpoint before_first (c : QChar) (s : QString) : QString :=
  match s with
  | [] => []
  | d :: s' => if Ascii.eqb d c then [] else d :: before_first c s'
  end.

Fixpoint from_first (c : QChar) (s : QString) : QString :=
  match s with
  | [] => []
  | d :: s' => if Ascii.eqb d c then s else from_first c s'
  end.

(** [QFileInfo (path).fileName ()]: what follows the last slash. *)
Definition QFileInfo_fileName (path : QString) : QString :=
  rev (before_first "/"%char (rev path)).

(** [QFileInfo (path).dir ().absolutePath ()] of a clean absolute
    path: what precedes the last slash, and the root for a file of the
    root.  A relative name, which Qt resolves against the working
    directory, and a path that Qt would clean are not modelled. *)
Definition QFileInfo_dir_absolutePath (path : QString) : QString :=
  let d := rev (tail (from_first "/"%char (rev path))) in
  if isEmpty d then qs "/" else d.

(** [QFileInfo (path).completeBaseName ()]: the file name up to its
    last dot, and the whole name when it has none. *)
Definition QFileInfo_completeBaseName (path : QString) : QString :=
  let name := rev (QFileInfo_fileName path) in
  match from_first "."%char name with
  | [] => rev name
  | _ :: base => rev base
  end.

End Files.
Import Files.

(** ** The main window *)

Module Window.

(** [Core::Verdict]. *)
Inductive Verdict := ACCEPTED | WRONG_ANSWER | UNKNOWN.

Record QLabel := mkQLabel {
  text : QString;
  styleSheet : QString;
}.

Definition QLabel_setText (t : QString) (l : QLabel) : QLabel :=
  {| text := t; styleSheet := styleSheet l |}.

Definition QLabel_setStyleSheet (s : QString) (l : QLabel) : QLabel :=
  {| text := text l; styleSheet := s |}.

(** The members of [MainWindow] the modelled methods use.  [editor],
    [input] and [output] hold the text of the editor widgets. *)
Record MainWindow := mkMainWindow {
  editor : QString;
  input : list QString;
  output : list QString;
  verdict : list QLabel;
  expected : list QString;
  openFile : option QFile;
  templatePath : QString;
  shouldSaveTests : bool;
}.

Inductive Severity := Info | Warn | Error.

(** A call of [Log::MessageLogger]. *)
Record LogEntry := mkLogEntry {
  severity : Severity;
  category : QString;
  message : QString;
}.

(** The answers of [QMessageBox::warning] in [closeChangedConfirm]. *)
Inductive StandardButton := Save | Discard | Cancel.

(** A dialog shown to the user. *)
Inductive Dialog :=
| WarningBox (title body : QString) (buttons : list StandardButton)
    (defaultButton : StandardButton)
| SaveFileDialog (caption : QString).

Record World := mkWorld {
  win : MainWindow;
  fs : FileSystem;
  logger : list LogEntry;
  dialogs : list Dialog;
}.

(** *** The state monad of the methods *)

Definition M (A : Type) : Type := World -> A * World.

#[global] Instance M_ret : MRet M := fun A x σ => (x, σ).
#[global] Instance M_bind : MBind M :=
  fun A B k m σ => let (x, σ') := m σ in k x σ'.

Definition run {A} (m : M A) (σ : World) : World := snd (m σ).
Definition result {A} (m : M A) (σ : World) : A := fst (m σ).

Definition get_win : M MainWindow := fun σ => (win σ, σ).

Definition modify_win (f : MainWindow -> MainWindow) : M unit := fun σ =>
  (tt, {| win := f (win σ); fs := fs σ;
          logger := logger σ; dialogs := dialogs σ |}).

Definition get_fs : M FileSystem := fun σ => (fs σ, σ).

Definition put_fs (fs' : FileSystem) : M unit := fun σ =>
  (tt, {| win := win σ; fs := fs';
          logger := logger σ; dialogs := dialogs σ |}).

Definition log (s : Severity) (head body : QString) : M unit := fun σ =>
  (tt, {| win := win σ; fs := fs σ;
          logger := logger σ ++
            [{| severity := s; category := head; message := body |}];
          dialogs := dialogs σ |}).

Definition Log_info := log Info.
Definition Log_warn := log Warn.
Definition Log_error := log Error.

Definition show (d : Dialog) : M unit := fun σ =>
  (tt, {| win := win σ; fs := fs σ; logger := logger σ;
          dialogs := dialogs σ ++ [d] |}).

(** [for (int i = 0; i < 3; ++i)] over the indices of a list. *)
Fixpoint for_ (l : list nat) (body : nat -> M unit) : M unit :=
  match l with
  | [] => mret tt
  | i :: l' => body i;; for_ l' body
  end.

(** *** Widgets and members *)

Definition set_editor (v : QString) (w : MainWindow) : MainWindow :=
  {| editor := v; input := input w; output := output w;
     verdict := verdict w; expected := expected w;
     openFile := openFile w; templatePath := templatePath w;
     shouldSaveTests := shouldSaveTests w |}.

Definition set_input (v : list QString) (w : MainWindow) : MainWindow :=
  {| editor := editor w; input := v; output := output w;
     verdict := verdict w; expected := expected w;
     openFile := openFile w; templatePath := templatePath w;
     shouldSaveTests := shouldSaveTests w |}.

Definition set_output (v : list QString) (w : MainWindow) : MainWindow :=
  {| editor := editor w; input := input w; output := v;
     verdict := verdict w; expected := expected w;
     openFile := openFile w; templatePath := templatePath w;
     shouldSaveTests := shouldSaveTests w |}.

Definition set_verdict (v : list QLabel) (w : MainWindow) : MainWindow :=
  {| editor := editor w; input := input w; output := output w;
     verdict := v; expected := expected w;
     openFile := openFile w; templatePath := templatePath w;
     shouldSaveTests := shouldSaveTests w |}.

Definition set_expected (v : list QString) (w : MainWindow) : MainWindow :=
  {| editor := editor w; input := input w; output := output w;
     verdict := verdict w; expected := v;
     openFile := openFile w; templatePath := templatePath w;
     shouldSaveTests := shouldSaveTests w |}.

Definition set_openFile (v : option QFile) (w : MainWindow) : MainWindow :=
  {| editor := editor w; input := input w; output := output w;
     verdict := verdict w; expected := expected w;
     openFile := v; templatePath := templatePath w;
     shouldSaveTests := shouldSaveTests w |}.

(** The text of slot [i] of an array of three.  The loops index the
    arrays below 3 and the runner calls back with the index of a slot;
    an index out of range, undefined in the source, reads the empty
    text here and writes nothing. *)
Definition slot (l : list QString) (i : nat) : QString := default [] (l !! i).

(** [QString::toStdString]: the encoding is not modelled. *)
Definition toStdString (s : QString) : QString := s.

(** *** [QFile] operations *)

Definition QFile_exists (p : QString) : M bool :=
  fs ← get_fs; mret (fs_exists fs p).

Definition QFile_open (mode : OpenMode) (f : QFile) : M QFile :=
  if QFile_isOpen f then mret f
  else
    fs ← get_fs;
    let (ok, fs') := fs_open mode (QFile_fileName f) fs in
    put_fs fs';;
    mret {| QFile_fileName := QFile_fileName f; QFile_isOpen := ok;
            QFile_pos := 0 |}.

Definition QFile_seek (p : nat) (f : QFile) : QFile :=
  if QFile_isOpen f then
    {| QFile_fileName := QFile_fileName f; QFile_isOpen := true;
       QFile_pos := p |}
  else f.

(** [readAll]: the text from the position to the end; nothing on a
    device that is not open.  The text of a file is what a handle in
    text mode reads, so it is returned as it is. *)
Definition QFile_readAll (f : QFile) : M (QString * QFile) :=
  if QFile_isOpen f then
    fs ← get_fs;
    let c := fs_read fs (QFile_fileName f) in
    mret (drop (QFile_pos f) c,
          {| QFile_fileName := QFile_fileName f; QFile_isOpen := true;
             QFile_pos := max (QFile_pos f) (length c) |})
  else mret ([], f).

(** [write (const char * )]: the C string written at the position; the
    result is the number of characters written, or -1 on a device that
    is not open. *)
Definition QFile_write (data : QString) (f : QFile) : M (Z * QFile) :=
  if QFile_isOpen f then
    fs ← get_fs;
    match files fs !! QFile_fileName f with
    | Some file =>
        put_fs (fs_set (QFile_fileName f)
                  (set_content (write_at (QFile_pos f) data (content file))
                     file) fs);;
        mret (Z.of_nat (length data),
              {| QFile_fileName := QFile_fileName f; QFile_isOpen := true;
                 QFile_pos := QFile_pos f + length data |})
    | None => mret ((-1)%Z, f)
    end
  else mret ((-1)%Z, f).

(** [resize]: on an open file through the handle, which also brings a
    position beyond the new size back to it; on a closed one through
    its name, which needs the permission to write. *)
Definition QFile_resize (sz : nat) (f : QFile) : M QFile :=
  fs ← get_fs;
  match files fs !! QFile_fileName f with
  | Some file =>
      if QFile_isOpen f || writable file then
        put_fs (fs_set (QFile_fileName f)
                  (set_content (resized sz (content file)) file) fs);;
        mret {| QFile_fileName := QFile_fileName f;
                QFile_isOpen := QFile_isOpen f;
                QFile_pos := min (QFile_pos f) sz |}
      else mret f
  | None => mret f
  end.

Definition QFile_flush (f : QFile) : M unit := mret tt.

(** *** The methods of [MainWindow] *)

(** The two locals [updateVerdict] computes in its [switch]. *)
Definition verdict_text (_verdict : Verdict) : QString :=
  match _verdict with
  | ACCEPTED => qs "Verdict : AC"
  | WRONG_ANSWER => qs "Verdict : WA"
  | UNKNOWN => qs "Verdict : **"
  end.

Definition style_sheet (_verdict : Verdict) : QString :=
  match _verdict with
  | ACCEPTED => qs "QLabel { color : rgb(0, 180, 0); }"
  | WRONG_ANSWER => qs "QLabel { color : rgb(255, 0, 0); }"
  | UNKNOWN => qs ""
  end.

Definition updateVerdict (_verdict : Verdict) (id : nat) : M unit :=
  modify_win (fun w =>
    set_verdict
      (alter (QLabel_setText (verdict_text _verdict)) id (verdict w)) w);;
  modify_win (fun w =>
    set_verdict
      (alter (QLabel_setStyleSheet (style_sheet _verdict)) id (verdict w))
      w).

(** The label that shows a verdict. *)
Definition label_of (v : Verdict) : QLabel :=
  {| text := verdict_text v; styleSheet := style_sheet v |}.

Definition clearTests (outputOnly : bool) : M unit :=
  for_ (seq 0 3) (fun i =>
    (if negb outputOnly then
       modify_win (fun w => set_input (<[i := []]> (input w)) w);;
       modify_win (fun w => set_expected (<[i := []]> (expected w)) w)
     else mret tt);;
    modify_win (fun w => set_output (<[i := []]> (output w)) w);;
    updateVerdict UNKNOWN i).

(** [fileInfo.dir ().absolutePath () + "/" + fileInfo.completeBaseName ()]. *)
Definition testFile (f : QFile) : QString :=
  QFileInfo_dir_absolutePath (QFile_fileName f) ++ qs "/" ++
  QFileInfo_completeBaseName (QFile_fileName f).

(** The names of the two files of slot [i]. *)
Definition in_name (testFile : QString) (i : nat) : QString :=
  testFile ++ number (i + 1) ++ qs ".in".

Definition ans_name (testFile : QString) (i : nat) : QString :=
  testFile ++ number (i + 1) ++ qs ".ans".

(** The body of the loop of [loadTests]. *)
Definition loadTests_body (testFile : QString) (i : nat) : M unit :=
  ex ← QFile_exists (in_name testFile i);
  (if (ex : bool) then
     inputFile ← QFile_open ReadOnly (QFile_new (in_name testFile i));
     if QFile_isOpen inputFile then
       '(t, _) ← QFile_readAll inputFile;
       modify_win (fun w => set_input (<[i := t]> (input w)) w);;
       Log_info (qs "Tests")
         (qs "Input #" ++ number (i + 1) ++ qs " successfully loaded")
     else
       Log_error (qs "Tests")
         (qs "Cannot Open" ++ toStdString (QFile_fileName inputFile) ++
          qs ", Do I have read permissions?")
   else mret tt);;
  ex ← QFile_exists (ans_name testFile i);
  (if (ex : bool) then
     answerFile ← QFile_open ReadOnly (QFile_new (ans_name testFile i));
     if QFile_isOpen answerFile then
       '(t, _) ← QFile_readAll answerFile;
       modify_win (fun w => set_expected (<[i := t]> (expected w)) w);;
       Log_info (qs "Tests")
         (qs "Expected #" ++ number (i + 1) ++ qs " successfully loaded")
     else
       Log_error (qs "Tests")
         (qs "Cannot Open" ++ toStdString (QFile_fileName answerFile) ++
          qs ", Do I have read permissions?")
   else mret tt).

Definition loadTests : M unit :=
  w ← get_win;
  match openFile w with
  | None => mret tt
  | Some openFile =>
      if negb (shouldSaveTests w) then mret tt
      else for_ (seq 0 3) (loadTests_body (testFile openFile))
  end.

(** The body of the loop of [saveTests]. *)
Definition saveTests_body (testFile : QString) (i : nat) : M unit :=
  w ← get_win;
  (if negb (isEmpty (trimmed (slot (input w) i))) then
     inputFile ← QFile_open WriteOnly (QFile_new (in_name testFile i));
     if QFile_isOpen inputFile then
       '(n, _) ← QFile_write
         (c_str (toStdString (slot (input w) i))) inputFile;
       if negb (n =? -1)%Z then
         Log_info (qs "Tests")
           (qs "Input #" ++ number (i + 1) ++ qs " successfully saved")
       else
         Log_error (qs "Tests")
           (qs "Input #" ++ number (i + 1) ++
            qs " was not successfully saved")
     else
       Log_error (qs "Tests")
         (qs "Cannot save Input #" ++ number (i + 1) ++
          qs ", Do I have write permission?")
   else mret tt);;
  (if negb (isEmpty (trimmed (slot (expected w) i))) then
     answerFile ← QFile_open WriteOnly (QFile_new (ans_name testFile i));
     if QFile_isOpen answerFile then
       '(n, _) ← QFile_write
         (c_str (toStdString (slot (expected w) i))) answerFile;
       if negb (n =? -1)%Z then
         Log_info (qs "Tests")
           (qs "Expected #" ++ number (i + 1) ++ qs " successfully saved")
       else
         Log_error (qs "Tests")
           (qs "Expected #" ++ number (i + 1) ++
            qs " was not successfully saved")
     else
       Log_error (qs "Tests")
         (qs "Cannot save Expected #" ++ number (i + 1) ++
          qs ", Do I have write permission?")
   else mret tt).

Definition saveTests : M unit :=
  w ← get_win;
  match openFile w with
  | None => mret tt
  | Some openFile =>
      if negb (shouldSaveTests w) then mret tt
      else for_ (seq 0 3) (saveTests_body (testFile openFile))
  end.

Definition fileName (w : MainWindow) : QString :=
  match openFile w with
  | None => qs "Unsaved file"
  | Some f =>
      if negb (QFile_isOpen f) then qs "Unsaved file"
      else QFileInfo_fileName (QFile_fileName f)
  end.

Definition isTextChanged : M bool :=
  w ← get_win;
  match openFile w with
  | None =>
      ex ← QFile_exists (templatePath w);
      if negb (size (templatePath w) =? 0) && ex then
        f ← QFile_open ReadOnly (QFile_new (templatePath w));
        '(t, _) ← QFile_readAll f;
        mret (negb (eqb (editor w) t))
      else mret (negb (isEmpty (editor w)))
  | Some f =>
      if QFile_isOpen f then
        '(t, f) ← QFile_readAll (QFile_seek 0 f);
        modify_win (set_openFile (Some f));;
        mret (negb (eqb t (editor w)))
      else mret true
  end.

Definition on_textChanged_triggered : M unit :=
  isChanged ← isTextChanged; mret tt.

(** [std::to_string] of an [int]. *)
Definition to_string (z : Z) : QString :=
  if (z <? 0)%Z then "-"%char :: number (Z.to_nat (- z))
  else number (Z.to_nat z).

(** [saveFile]; [chosen] is the name the user gives in the save-file
    dialog when it is shown, empty when the dialog is cancelled. *)
Definition saveFile (force : bool) (head : QString) (chosen : QString)
    : M bool :=
  w ← get_win;
  match openFile w with
  | None =>
      if force then
        show (SaveFileDialog (qs "Save File"));;
        let filename := chosen in
        if isEmpty filename then mret false
        else
          f ← QFile_open ReadWrite (QFile_new filename);
          modify_win (set_openFile (Some f));;
          (if QFile_isOpen f then
             f ← QFile_resize 0 f;
             '(n, f) ← QFile_write (c_str (toStdString (editor w))) f;
             modify_win (set_openFile (Some f));;
             (if negb (n =? -1)%Z then
                Log_info head
                  (qs "Saved file : " ++ toStdString (QFile_fileName f))
              else Log_warn head (qs "File was not saved successfully"));;
             QFile_flush f
           else
             Log_error head
               (qs "Cannot Save file. Do I have write permission?"));;
          saveTests;;
          on_textChanged_triggered;;
          mret true
      else mret false
  | Some f =>
      f ← QFile_resize 0 f;
      '(_, f) ← QFile_write (c_str (toStdString (editor w))) f;
      modify_win (set_openFile (Some f));;
      QFile_flush f;;
      Log_info head
        (qs "Saved with file name " ++ toStdString (QFile_fileName f));;
      saveTests;;
      on_textChanged_triggered;;
      mret true
  end.

(** [closeChangedConfirm]; [answer] is the button the user presses in
    the warning box when it is shown. *)
Definition closeChangedConfirm (answer : StandardButton)
    (chosen : QString) : M bool :=
  isChanged ← isTextChanged;
  let confirmed := negb isChanged in
  if negb confirmed then
    w ← get_win;
    show (WarningBox (qs "Save?")
            (fileName w ++ qs " has been modified." ++ [LF] ++
             qs "Do you want to save your changes?")
            [Save; Discard; Cancel] Cancel);;
    let res := answer in
    match res with
    | Save => saveFile true (qs "Save") chosen
    | Discard => mret true
    | Cancel => mret confirmed
    end
  else mret confirmed.

Definition executionFinished (id : nat) (msec : Z) (Stdout : QString)
    : M unit :=
  Log_info (qs "Runner[" ++ number (id + 1) ++ qs "]")
    (qs "Execution for case #" ++ number (id + 1) ++
     qs " completed and took " ++ to_string msec ++
     qs " miliseconds.");;
  modify_win (fun w => set_output (<[id := []]> (output w)) w);;
  modify_win (fun w => set_output (<[id := Stdout]> (output w)) w);;
  w ← get_win;
  if isEmpty Stdout || isEmpty (slot (expected w) id) then mret tt
  else if isVerdictPass Stdout (slot (expected w) id)
  then updateVerdict ACCEPTED id
  else updateVerdict WRONG_ANSWER id.

(** *** Vocabulary of the statements *)

(** The arrays of the window have their three slots. *)
Definition three_slots (w : MainWindow) : Prop :=
  length (input w) = 3 /\ length (output w) = 3 /\
  length (verdict w) = 3 /\ length (expected w) = 3.

(** The text of the file at [p] when it exists and is readable. *)
Definition readable_text (fs : FileSystem) (p : QString) : option QString :=
  match files fs !! p with
  | Some f => if readable f then Some (content f) else None
  | None => None
  end.

(** The file of a slot field after [saveTests]: from the text [t] of
    the field, the file before ([None] when there is none) and whether
    the path is locked. *)
Definition saved_file (t : QString) (old : option File) (is_locked : bool)
    : option File :=
  if isEmpty (trimmed t) then old
  else
    match old with
    | Some f => if writable f then Some (set_content (c_str t) f) else old
    | None =>
        if is_locked then None else Some (set_content (c_str t) created)
    end.

(** The file at path [q] after iteration [i] of [saveTests]. *)
Definition saved_at (testFile : QString) (w : MainWindow) (i : nat)
    (q : QString) (old : option File) (is_locked : bool) : option File :=
  if decide (q = in_name testFile i)
  then saved_file (slot (input w) i) old is_locked
  else if decide (q = ans_name testFile i)
  then saved_file (slot (expected w) i) old is_locked
  else old.

(** Whether the file at [p] can be opened for writing. *)
Definition can_write (fs : FileSystem) (p : QString) : bool :=
  fst (fs_open WriteOnly p fs).

(** The round trip as the specification words it, for the inputs of a
    window with a backing file and the save-tests flag: [saveTests] then
    [loadTests] leaves an input that was not empty after trimming equal
    to its original contents, and neither writes a file for nor modifies
    an input that was empty after trimming. *)
Definition round_trip_as_worded (σ : World) (f : QFile) : Prop :=
  let w := win σ in
  let σ1 := run saveTests σ in
  let σ2 := run loadTests σ1 in
  forall i, i < 3 ->
    (isEmpty (trimmed (slot (input w) i)) = false ->
     input (win σ2) !! i = input w !! i) /\
    (isEmpty (trimmed (slot (input w) i)) = true ->
     files (fs σ1) !! in_name (testFile f) i =
       files (fs σ) !! in_name (testFile f) i /\
     input (win σ1) !! i = input w !! i /\
     input (win σ2) !! i = input w !! i).

(** The template case of [isTextChanged] as the specification words
    it: without a backing file and with a template path whose file
    exists, the result is whether the editor text differs from the
    contents of the template. *)
Definition template_case_as_worded (σ : World) : Prop :=
  let w := win σ in
  openFile w = None -> templatePath w <> [] ->
  forall file, files (fs σ) !! templatePath w = Some file ->
  (result isTextChanged σ = true <-> editor w <> content file).

End Window.
Import Window.

(** ** Companion data *)

Module Network.

(** [Network::CompanionData], as far as [applyCompanion] reads it: the
    text that [toMetaString ()] returns, and the test cases. *)
Record TestCase := mkTestCase {
  input : QString;
  output : QString;
}.

Record CompanionData := mkCompanionData {
  toMetaString : QString;
  testcases : list TestCase;
}.

End Network.

(** ** The commands of the main window *)

Module Commands.

(** [QString::replace (QChar, const QString &)]: every occurrence of
    the character replaced by the text. *)
Fixpoint replace (before : QChar) (after s : QString) : QString :=
  match s with
  | [] => []
  | c :: s' =>
      if Ascii.eqb c before then after ++ replace before after s'
      else c :: replace before after s'
  end.

(** [QFile::close]. *)
Definition QFile_close (f : QFile) : QFile :=
  {| QFile_fileName := QFile_fileName f; QFile_isOpen := false;
     QFile_pos := 0 |}.

(** [Log::MessageLogger::clear]: the messages shown so far are dropped. *)
Definition Log_clear : M unit := fun σ =>
  (tt, {| win := win σ; fs := fs σ; logger := []; dialogs := dialogs σ |}).

(** [editor->setPlainText]: the widget emits [textChanged], which
    [setEditor] connects to [on_textChanged_triggered].  The cell keeps
    the text as it is set, which is what the widget returns for a text
    without carriage return and no-break space. *)
Definition editor_setPlainText (t : QString) : M unit :=
  modify_win (set_editor t);;
  on_textChanged_triggered.

(** The constructor, from the point where the widgets are set up
    ([setEditor], [setupCore]) and no file is open yet. *)
Definition new_MainWindow (filePath : QString) : M unit :=
  if negb (isEmpty filePath) then
    f ← QFile_open ReadWrite (QFile_new filePath);
    modify_win (set_openFile (Some f));;
    (if QFile_isOpen f then
       '(t, f) ← QFile_readAll f;
       modify_win (set_openFile (Some f));;
       editor_setPlainText t
     else
       Log_warn (qs "Loader")
         (qs "The filepath was not loaded. Read/Write permission missing");;
       modify_win (set_openFile None));;
    loadTests
  else mret tt.

(** [data.testcases[i]] at an index the loop has checked. *)
Definition testcase_at (l : list Network.TestCase) (i : nat)
    : Network.TestCase :=
  nth i l (Network.mkTestCase [] []).

(** [applyCompanion].  The member [language] and the default argument
    of [clearTests], which the header declares, are arguments. *)
Definition applyCompanion (language : QString) (outputOnly : bool)
    (data : Network.CompanionData) : M unit :=
  w ← get_win;
  fresh ← match openFile w with
          | None => isChanged ← isTextChanged; mret (negb isChanged)
          | Some _ => mret false
          end;
  (if (fresh : bool) then
     let meta := Network.toMetaString data in
     let meta := LF :: meta in
     let meta :=
       meta ++
       qs "Powered by CP Editor (https://github.com/coder3101/cp-editor2)" in
     let meta :=
       if eqb language (qs "Python")
       then replace LF (LF :: qs "# ") meta
       else replace LF (LF :: qs "// ") meta in
     w ← get_win;
     editor_setPlainText (meta ++ [LF; LF] ++ editor w)
   else mret tt);;
  clearTests outputOnly;;
  (if 3 <? length (Network.testcases data) then
     Log_warn (qs "CP Editor")
       (qs "More than 3 testcase were produced. Only First 3 will be used")
   else mret tt);;
  for_ (seq 0 (min (length (Network.testcases data)) 3)) (fun i =>
    modify_win (fun w =>
      set_input
        (<[i := Network.input (testcase_at (Network.testcases data) i)]>
           (input w)) w);;
    modify_win (fun w =>
      set_expected
        (<[i := Network.output (testcase_at (Network.testcases data) i)]>
           (expected w)) w)).

(** [saveAs]; [chosen] is the answer to the save-file dialog, as in
    [saveFile].  [oldFile] and [openFile] point to the same [QFile],
    which is closed before [openFile] is reset. *)
Definition saveAs (chosen : QString) : M unit :=
  w ← get_win;
  match openFile w with
  | None => saveFile true (qs "Save as") chosen;; mret tt
  | Some f =>
      let oldFile := QFile_close f in
      modify_win (set_openFile None);;
      saved ← saveFile true (qs "Save as") chosen;
      if negb saved then
        modify_win (set_openFile (Some oldFile));;
        f ← QFile_open ReadWrite oldFile;
        modify_win (set_openFile (Some f))
      else mret tt
  end.

(** [on_compile_clicked], up to the call of the compiler. *)
Definition on_compile_clicked : M unit :=
  Log_clear;;
  saveFile false (qs "Compiler") [];;
  mret tt.

(** The loop of [on_run_clicked] that clears the outputs and builds the
    vector [isRun]. *)
Fixpoint isRun_loop (l : list nat) (isRun : list bool) : M (list bool) :=
  match l with
  | [] => mret isRun
  | i :: l' =>
      modify_win (fun w => set_output (<[i := []]> (output w)) w);;
      w ← get_win;
      isRun_loop l'
        (isRun ++ [negb (isEmpty (trimmed (slot (input w) i)))])
  end.

(** [on_run_clicked] and [on_runOnly_clicked], up to the call of the
    runner: the result is the vector [isRun] handed to [runner->run].
    The input reader is a collaborator; what [readToFile] does is an
    argument. *)
Definition on_run_clicked (readToFile : M unit) : M (list bool) :=
  Log_clear;;
  clearTests true;;
  saveFile false (qs "Compiler") [];;
  readToFile;;
  isRun_loop (seq 0 3) [].

Definition on_runOnly_clicked (readToFile : M unit) : M (list bool) :=
  Log_clear;;
  clearTests true;;
  saveFile false (qs "Compiler") [];;
  readToFile;;
  isRun_loop (seq 0 3) [].

(** *** Vocabulary of the statements *)

(** The line [applyCompanion] puts at the end of its header. *)
Definition credit : QString :=
  qs "Powered by CP Editor (https://github.com/coder3101/cp-editor2)".

(** The warning of [applyCompanion] on more than three test cases, and
    that of the constructor on a file it cannot open. *)
Definition too_many_tests : LogEntry :=
  {| severity := Warn; category := qs "CP Editor";
     message :=
       qs "More than 3 testcase were produced. Only First 3 will be used" |}.

Definition not_loaded : LogEntry :=
  {| severity := Warn; category := qs "Loader";
     message :=
       qs "The filepath was not loaded. Read/Write permission missing" |}.

(** The no-break space. *)
Definition NBSP : QChar := "160"%char.

(** A text read from a file that the editor gives back as it was set:
    the bytes read become a [QString] up to their first NUL character,
    [setPlainText] turns a carriage return into a line break, and
    [toPlainText] gives a no-break space back as a space. *)
Definition kept_by_editor (t : QString) : Prop :=
  (NUL ∉ t) /\ (CR ∉ t) /\ (NBSP ∉ t).

(** The message of [saveFile] on a window that has a backing file. *)
Definition saved_with_name (head name : QString) : LogEntry :=
  {| severity := Info; category := head;
     message := qs "Saved with file name " ++ name |}.

(** The log is [l0] followed by messages about the test files only. *)
Definition tests_logged (l0 : list LogEntry) (σ : World) : Prop :=
  exists l, logger σ = l0 ++ l /\
            Forall (fun e => category e = qs "Tests") l.

(** The characters of a text that are not white space. *)
Definition visible (s : QString) : QString :=
  filter (fun c => isSpace c = false) s.

(** A method that keeps the invariant [I] of the state and returns a
    result that satisfies [φ]. *)
Definition keeps {A} (I : World -> Prop) (m : M A) (φ : A -> Prop) : Prop :=
  forall σ, I σ -> I (run m σ) /\ φ (result m σ).

(** Two windows that differ in the backing handle at most. *)
Definition same_but_openFile (w w' : MainWindow) : Prop :=
  editor w' = editor w /\ input w' = input w /\ output w' = output w /\
  verdict w' = verdict w /\ expected w' = expected w /\
  templatePath w' = templatePath w /\
  shouldSaveTests w' = shouldSaveTests w.

(** An absolute path as [QDir::absolutePath] returns it: a slash in
    front of each of its components, of which there is at least one and
    none is empty, [.] or [..]. *)
Definition clean_absolute (dir : QString) : Prop :=
  match split "/"%char dir with
  | [] :: c :: comps =>
      Forall (fun c => c <> [] /\ c <> qs "." /\ c <> qs "..") (c :: comps)
  | _ => False
  end.

(** The paths that belong to a backing file named [p]: the file and its
    six test files. *)
Definition save_paths (p q : QString) : Prop :=
  q = p \/
  exists i, i < 3 /\
    (q = in_name (testFile (QFile_new p)) i \/
     q = ans_name (testFile (QFile_new p)) i).

(** What saving may change between [σ0] and [σ] for a backing file
    named [p]: the handle, which is on [p] when there is one, and the
    files that belong to [p]. *)
Definition saved_frame (p : QString) (σ0 σ : World) : Prop :=
  same_but_openFile (win σ0) (win σ) /\
  locked (fs σ) = locked (fs σ0) /\
  (forall f, openFile (win σ) = Some f -> QFile_fileName f = p) /\
  (forall q, ~ save_paths p q -> files (fs σ) !! q = files (fs σ0) !! q).

End Commands.
Import Commands.

(** ** Concrete worlds *)

Module Scenarios.

Definition sol_cpp : QFile :=
  {| QFile_fileName := qs "/home/u/sol.cpp"; QFile_isOpen := true;
     QFile_pos := 0 |}.

Definition plain (c : QString) : File :=
  {| content := c; readable := true; writable := true |}.

Definition window (ed : QString) (inp exp : list QString)
    (opf : option QFile) (tp : QString) : MainWindow :=
  {| editor := ed; input := inp; output := [[]; []; []];
     verdict := replicate 3 (label_of UNKNOWN); expected := exp;
     openFile := opf; templatePath := tp; shouldSaveTests := true |}.

(** A saved source file with one test whose expected output has an
    embedded NUL character. *)
Definition nul_world : World :=
  {| win := window (qs "int main(){}") [qs "1 2"; []; []]
              [qs "ab" ++ [NUL] ++ qs "cd"; []; []] (Some sol_cpp) [];
     fs := {| files := {[ qs "/home/u/sol.cpp" := plain (qs "int main(){}") ]};
              locked := ∅ |};
     logger := []; dialogs := [] |}.

(** A saved source file with three inputs: the first has an embedded
    NUL, the second has a read-only file of an earlier text, the third
    is empty and has a file left by an earlier save. *)
Definition stale_world : World :=
  {| win := window (qs "int main(){}")
              [qs "a" ++ [NUL] ++ qs "b"; qs "new"; []] [[]; []; []]
              (Some sol_cpp) [];
     fs := {| files :=
                <[ qs "/home/u/sol2.in" :=
                     {| content := qs "old"; readable := true;
                        writable := false |} ]>
                (<[ qs "/home/u/sol3.in" := plain (qs "stale") ]>
                 {[ qs "/home/u/sol.cpp" := plain (qs "int main(){}") ]});
              locked := ∅ |};
     logger := []; dialogs := [] |}.

(** A fresh window with two tests, saved round a source file. *)
Definition fresh_world : World :=
  {| win := window (qs "int main(){}") [qs "1 2" ++ [LF]; qs " 7"; []]
              [qs "3" ++ [LF]; []; []] (Some sol_cpp) [];
     fs := {| files := {[ qs "/home/u/sol.cpp" := plain (qs "int main(){}") ]};
              locked := ∅ |};
     logger := []; dialogs := [] |}.

(** An unsaved buffer equal to a template the process may not read. *)
Definition template_world : World :=
  {| win := window (qs "x") [[]; []; []] [[]; []; []] None
              (qs "/home/u/template.cpp");
     fs := {| files :=
                {[ qs "/home/u/template.cpp" :=
                     {| content := qs "x"; readable := false;
                        writable := false |} ]};
              locked := ∅ |};
     logger := []; dialogs := [] |}.

(** An unsaved buffer, and a directory in which the process may not
    create the file the user chooses. *)
Definition locked_world : World :=
  {| win := window (qs "int main(){}") [[]; []; []] [[]; []; []] None [];
     fs := {| files := ∅; locked := {[ qs "/ro/sol.cpp" ]} |};
     logger := []; dialogs := [] |}.

(** A saved source file whose buffer has an embedded NUL. *)
Definition nul_buffer_world : World :=
  {| win := window (qs "a" ++ [NUL] ++ qs "b") [[]; []; []] [[]; []; []]
              (Some sol_cpp) [];
     fs := {| files := {[ qs "/home/u/sol.cpp" := plain (qs "old") ]};
              locked := ∅ |};
     logger := []; dialogs := [] |}.

End Scenarios.

(** ** More concrete worlds *)

Module Examples.

Import Scenarios.

(** A new window: no backing file, no template, nothing typed. *)
Definition blank_world : World :=
  {| win := window [] [[]; []; []] [[]; []; []] None [];
     fs := {| files := ∅; locked := ∅ |};
     logger := []; dialogs := [] |}.

(** A window whose handle could not be opened: the file exists and the
    process may write it but not read it. *)
Definition closed_world : World :=
  {| win := window (qs "int main(){}") [[]; []; []] [[]; []; []]
              (Some {| QFile_fileName := qs "/home/u/sol.cpp";
                       QFile_isOpen := false; QFile_pos := 0 |}) [];
     fs := {| files :=
                {[ qs "/home/u/sol.cpp" :=
                     {| content := qs "old"; readable := false;
                        writable := true |} ]};
              locked := ∅ |};
     logger := []; dialogs := [] |}.

(** A source file and one of its test files on disk, and a window that
    has not opened them yet. *)
Definition stored_world : World :=
  {| win := window [] [[]; []; []] [[]; []; []] None [];
     fs := {| files :=
                <[ qs "/home/u/sol1.in" := plain (qs "1 2" ++ [LF]) ]>
                {[ qs "/home/u/sol.cpp" := plain (qs "int main(){}") ]};
              locked := ∅ |};
     logger := []; dialogs := [] |}.

(** A saved source file with two tests, a buffer that differs from the
    file on disk, and the messages of an earlier compilation. *)
Definition logged_world : World :=
  {| win := window (qs "int main(){}") [qs "1 2" ++ [LF]; qs " 7"; []]
              [qs "3" ++ [LF]; []; []] (Some sol_cpp) [];
     fs := {| files := {[ qs "/home/u/sol.cpp" := plain (qs "old") ]};
              locked := ∅ |};
     logger :=
       [{| severity := Info; category := qs "Compiler";
           message := qs "Saved with file name /home/u/sol.cpp" |};
        {| severity := Error; category := qs "Compiler";
           message := qs "Compilation has failed" |}];
     dialogs := [] |}.

(** Four test cases of a problem. *)
Definition four_tests : Network.CompanionData :=
  {| Network.toMetaString := qs "Problem A" ++ [LF] ++ qs "Contest 1" ++ [LF];
     Network.testcases :=
       [Network.mkTestCase (qs "1") (qs "2");
        Network.mkTestCase (qs "3") (qs "4");
        Network.mkTestCase (qs "5") (qs "6");
        Network.mkTestCase (qs "7") (qs "8")] |}.

End Examples.

(** * Properties *)

Section MonadFacts.

(** Running a sequence is running its parts in turn. *)
Lemma run_bind {A B} (m : M A) (k : A -> M B) (σ : World) :
  run (m ≫= k) σ = run (k (result m σ)) (run m σ).
Proof. unfold run, result, mbind, M_bind. by destruct (m σ). Qed.

Lemma result_bind {A B} (m : M A) (k : A -> M B) (σ : World) :
  result (m ≫= k) σ = result (k (result m σ)) (run m σ).
Proof. unfold run, result, mbind, M_bind. by destruct (m σ). Qed.

Lemma run_ret {A} (x : A) (σ : World) : run (mret x) σ = σ.
Proof. done. Qed.

Lemma run_for_nil (body : nat -> M unit) (σ : World) :
  run (for_ [] body) σ = σ.
Proof. done. Qed.

Lemma run_for_cons (i : nat) (l : list nat) (body : nat -> M unit)
    (σ : World) :
  run (for_ (i :: l) body) σ = run (for_ l body) (run (body i) σ).
Proof. cbn [for_]. by rewrite run_bind. Qed.

End MonadFacts.

Section ComparatorFacts.

Lemma eqb_spec (s t : QString) : eqb s t = bool_decide (s = t).
Proof.
  revert t. induction s as [|c s IH]; intros [|d t]; simpl; try done.
  rewrite IH. destruct (Ascii.eqb_spec c d) as [->|Hne].
  - simpl. apply bool_decide_ext. naive_solver.
  - simpl. symmetry. apply bool_decide_eq_false. congruence.
Qed.

Lemma eqb_refl (s : QString) : eqb s s = true.
Proof. rewrite eqb_spec. by apply bool_decide_eq_true. Qed.

Lemma remove_strip_cr (s : QString) : remove CR s = strip_cr s.
Proof.
  unfold strip_cr. induction s as [|c s IH]; [done|].
  cbn [remove]. rewrite IH. destruct (Ascii.eqb_spec c CR) as [->|Hne].
  - by rewrite filter_cons_False by (intros H; by apply H).
  - by rewrite filter_cons_True.
Qed.

Lemma at_lookup (l : list QString) (i : nat) (x : QString) :
  l !! i = Some x -> at_ l i = x.
Proof. intros H. unfold at_. by apply nth_lookup_Some with (d := []) in H. Qed.

Lemma seq_from (j m : nat) :
  j < m -> seq j (m - j) = j :: seq (S j) (m - S j).
Proof. intros H. replace (m - j) with (S (m - S j)) by lia. done. Qed.

(** Both loops test [j < a.size() || j < b.size()]. *)
Lemma loop_cond_true (a b : list QString) (j : nat) :
  (j <? length a) || (j <? length b) = true ->
  j < max (length a) (length b).
Proof. rewrite orb_true_iff, !Nat.ltb_lt. lia. Qed.

Lemma loop_cond_false (a b : list QString) (j : nat) :
  (j <? length a) || (j <? length b) = false ->
  max (length a) (length b) - j = 0.
Proof. rewrite orb_false_iff, !Nat.ltb_ge. lia. Qed.

(** The body of either loop at index [j], once the loop condition
    holds, against one step of the walk. *)
Lemma loop_body_step (both : QString -> QString -> bool)
    (a b : list QString) (j : nat) (rest : bool) :
  j < max (length a) (length b) ->
  (if length a <=? j then
     if isEmpty (trimmed (at_ b j)) then rest else false
   else if length b <=? j then
     if isEmpty (trimmed (at_ a j)) then rest else false
   else if both (at_ a j) (at_ b j) then rest else false)
  = step both a b j && rest.
Proof.
  intros Hj. unfold step.
  destruct (Nat.leb_spec (length a) j) as [Ha|Ha].
  - rewrite (lookup_ge_None_2 a j) by lia.
    destruct (lookup_lt_is_Some_2 b j) as [y Hy]; [lia|].
    by rewrite Hy, (at_lookup _ _ _ Hy).
  - destruct (lookup_lt_is_Some_2 a j) as [x Hx]; [lia|].
    rewrite Hx, (at_lookup _ _ _ Hx).
    destruct (Nat.leb_spec (length b) j) as [Hb|Hb].
    + by rewrite (lookup_ge_None_2 b j) by lia.
    + destruct (lookup_lt_is_Some_2 b j) as [y Hy]; [lia|].
      by rewrite Hy, (at_lookup _ _ _ Hy).
Qed.

Lemma words_loop_walk (a b : list QString) (j : nat) :
  words_loop a b j =
  forallb (step same_token a b) (seq j (max (length a) (length b) - j)).
Proof.
  funelim (words_loop a b j); clear Heqcall.
  - match goal with IH : words_loop _ _ _ = _ |- _ => rewrite IH end.
    pose proof (loop_cond_true _ _ _ Hcond) as Hj.
    rewrite (seq_from _ _ Hj). cbn [forallb].
    rewrite <- (loop_body_step same_token) by done.
    unfold same_token. rewrite eqb_spec.
    by destruct (bool_decide (at_ a_words j = at_ b_words j)).
  - match goal with E : _ || _ = false |- _ =>
      by rewrite (loop_cond_false _ _ _ E) end.
Qed.

Lemma lines_loop_walk (a b : list QString) (i : nat) :
  lines_loop a b i =
  forallb (step lines_match a b) (seq i (max (length a) (length b) - i)).
Proof.
  funelim (lines_loop a b i); clear Heqcall.
  - match goal with IH : lines_loop _ _ _ = _ |- _ => rewrite IH end.
    pose proof (loop_cond_true _ _ _ Hcond) as Hi.
    rewrite (seq_from _ _ Hi). cbn [forallb].
    rewrite <- (loop_body_step lines_match) by done.
    unfold lines_match, lockstep, tokens. cbn zeta.
    rewrite words_loop_walk, Nat.sub_0_r. done.
  - match goal with E : _ || _ = false |- _ =>
      by rewrite (loop_cond_false _ _ _ E) end.
Qed.

(** The comparator of the source computes the reference comparison. *)
Lemma isVerdictPass_accepts (actual expected : QString) :
  isVerdictPass actual expected = accepts actual expected.
Proof.
  unfold isVerdictPass, accepts, lines, lockstep. cbn zeta.
  by rewrite lines_loop_walk, Nat.sub_0_r, !remove_strip_cr.
Qed.

(** The walk of a sequence against itself succeeds when [both] is
    reflexive on its elements. *)
Lemma lockstep_diag (both : QString -> QString -> bool) (xs : list QString) :
  (forall x, x ∈ xs -> both x x = true) -> lockstep both xs xs = true.
Proof.
  intros Hrefl. unfold lockstep, step. apply forallb_forall. intros i _.
  destruct (xs !! i) as [x|] eqn:Hx; [|done].
  apply Hrefl. by apply list_elem_of_lookup_2 in Hx.
Qed.

Lemma accepts_refl (T : QString) : accepts T T = true.
Proof.
  unfold accepts. apply lockstep_diag. intros line _.
  unfold lines_match. apply lockstep_diag. intros tok _.
  by apply bool_decide_eq_true.
Qed.

(** The examples of section 8 of the specification. *)
Example trailing_blank_lines :
  isVerdictPass (qs "1 2" ++ [LF] ++ qs "3 4")
    (qs "1 2" ++ [LF] ++ qs "3 4" ++ [LF; LF]) = true.
Proof. reflexivity. Qed.

Example carriage_returns :
  isVerdictPass (qs "a" ++ [CR; LF] ++ qs "b") (qs "a" ++ [LF] ++ qs "b")
  = true.
Proof. reflexivity. Qed.

Example extra_token : isVerdictPass (qs "1 2 3") (qs "1 2") = false.
Proof. reflexivity. Qed.

Example trailing_space : isVerdictPass (qs "1 2 ") (qs "1 2") = true.
Proof. reflexivity. Qed.

Example both_empty : isVerdictPass [] [] = true.
Proof. reflexivity. Qed.

Example wrong_answer : isVerdictPass (qs "24") (qs "42" ++ [LF]) = false.
Proof. reflexivity. Qed.

End ComparatorFacts.

Section WindowFacts.

(** Lists of three elements, for the arrays of the window. *)
Lemma length_three {A} (l : list A) :
  length l = 3 -> exists a b c, l = [a; b; c].
Proof.
  destruct l as [|a [|b [|c [|d l]]]]; simpl; intros H; try lia. eauto.
Qed.

Lemma label_of_inj (v v' : Verdict) : label_of v = label_of v' -> v = v'.
Proof. by destruct v, v'. Qed.

(** The window after [executionFinished], in closed form. *)
Lemma executionFinished_win (σ : World) (id : nat) (msec : Z)
    (Stdout : QString) :
  win (run (executionFinished id msec Stdout) σ) =
  let w := win σ in
  let w1 := set_output (<[id := Stdout]> (output w)) w in
  if isEmpty Stdout || isEmpty (slot (expected w) id) then w1
  else
    let v := if isVerdictPass Stdout (slot (expected w) id)
             then ACCEPTED else WRONG_ANSWER in
    set_verdict
      (alter (QLabel_setStyleSheet (style_sheet v)) id
         (alter (QLabel_setText (verdict_text v)) id (verdict w))) w1.
Proof.
  destruct σ as [w fs0 lg dl].
  destruct w as [ed inp outp ver exp opf tp sst].
  cbv [executionFinished updateVerdict run result mbind M_bind mret M_ret
       Log_info log modify_win get_win win fs logger dialogs snd fst
       output set_output expected set_verdict verdict input editor
       openFile templatePath shouldSaveTests].
  rewrite list_insert_insert_eq.
  destruct (isEmpty Stdout || isEmpty (slot exp id)); [done|].
  by destruct (isVerdictPass Stdout (slot exp id)).
Qed.

Lemma executionFinished_fs (σ : World) (id : nat) (msec : Z)
    (Stdout : QString) :
  fs (run (executionFinished id msec Stdout) σ) = fs σ.
Proof.
  destruct σ as [w fs0 lg dl].
  cbv [executionFinished updateVerdict run result mbind M_bind mret M_ret
       Log_info log modify_win get_win win fs logger dialogs snd fst].
  repeat match goal with
         | |- context [if ?b then _ else _] => destruct b
         end; done.
Qed.

Lemma alter_label (v : Verdict) (id : nat) (l : list QLabel) :
  id < length l ->
  alter (QLabel_setStyleSheet (style_sheet v)) id
    (alter (QLabel_setText (verdict_text v)) id l) !! id =
  Some (label_of v).
Proof.
  intros Hid. destruct (lookup_lt_is_Some_2 l id Hid) as [x Hx].
  by rewrite !list_lookup_alter_eq, Hx.
Qed.

Lemma MainWindow_eq (a b : MainWindow) :
  editor a = editor b -> input a = input b -> output a = output b ->
  verdict a = verdict b -> expected a = expected b ->
  openFile a = openFile b -> templatePath a = templatePath b ->
  shouldSaveTests a = shouldSaveTests b -> a = b.
Proof. destruct a, b; simpl; intros; by subst. Qed.

Lemma executionFinished_fields (σ : World) (id : nat) (msec : Z)
    (Stdout : QString) :
  let w := win σ in
  let w' := win (run (executionFinished id msec Stdout) σ) in
  editor w' = editor w /\ input w' = input w /\
  output w' = <[id := Stdout]> (output w) /\
  verdict w' =
    (if isEmpty Stdout || isEmpty (slot (expected w) id) then verdict w
     else
       let v := if isVerdictPass Stdout (slot (expected w) id)
                then ACCEPTED else WRONG_ANSWER in
       alter (QLabel_setStyleSheet (style_sheet v)) id
         (alter (QLabel_setText (verdict_text v)) id (verdict w))) /\
  expected w' = expected w /\ openFile w' = openFile w /\
  templatePath w' = templatePath w /\
  shouldSaveTests w' = shouldSaveTests w.
Proof.
  cbv zeta. rewrite executionFinished_win. cbv zeta.
  destruct (isEmpty Stdout || isEmpty (slot (expected (win σ)) id));
    repeat split; done.
Qed.

Lemma executionFinished_commute (σ : World) (id id2 : nat) (msec msec2 : Z)
    (Stdout Stdout2 : QString) :
  id2 <> id ->
  win (run (executionFinished id msec Stdout;;
            executionFinished id2 msec2 Stdout2) σ) =
  win (run (executionFinished id2 msec2 Stdout2;;
            executionFinished id msec Stdout) σ).
Proof.
  intros Hne. rewrite !run_bind.
  pose proof (executionFinished_fields σ id msec Stdout) as F1.
  pose proof (executionFinished_fields σ id2 msec2 Stdout2) as F2.
  pose proof (executionFinished_fields
                (run (executionFinished id msec Stdout) σ) id2 msec2 Stdout2)
    as F12.
  pose proof (executionFinished_fields
                (run (executionFinished id2 msec2 Stdout2) σ) id msec Stdout)
    as F21.
  cbv zeta in *.
  destruct F1 as (E1 & I1 & O1 & V1 & X1 & P1 & T1 & S1).
  destruct F2 as (E2 & I2 & O2 & V2 & X2 & P2 & T2 & S2).
  destruct F12 as (E12 & I12 & O12 & V12 & X12 & P12 & T12 & S12).
  destruct F21 as (E21 & I21 & O21 & V21 & X21 & P21 & T21 & S21).
  apply MainWindow_eq; try congruence.
  - rewrite O12, O21, O1, O2. by apply list_insert_insert_ne.
  - rewrite V12, V21, X1, X2, V1, V2.
    destruct (isEmpty Stdout || isEmpty (slot (expected (win σ)) id)),
      (isEmpty Stdout2 || isEmpty (slot (expected (win σ)) id2));
      try done.
    rewrite !list_alter_alter_eq. by apply list_alter_alter_ne.
Qed.

(** The end-to-end scenario of section 8 of the specification. *)
Example end_to_end :
  let σ := run (modify_win
                  (set_expected [qs "42" ++ [LF]; qs "42" ++ [LF]; []]))
             Scenarios.fresh_world in
  verdict (win (run (executionFinished 0 12 (qs "42");;
                     executionFinished 1 9 (qs "24");;
                     executionFinished 2 31 (qs "7")) σ)) =
  [label_of ACCEPTED; label_of WRONG_ANSWER; label_of UNKNOWN].
Proof. reflexivity. Qed.

End WindowFacts.

Section Persistence.

Lemma run_QFile_exists (p : QString) (σ : World) :
  run (QFile_exists p) σ = σ /\
  result (QFile_exists p) σ = fs_exists (fs σ) p.
Proof. done. Qed.

(** Opening a fresh [QFile] read-only changes nothing and succeeds
    exactly on a readable file. *)
Lemma open_ReadOnly (p : QString) (σ : World) :
  run (QFile_open ReadOnly (QFile_new p)) σ = σ /\
  result (QFile_open ReadOnly (QFile_new p)) σ =
    {| QFile_fileName := p;
       QFile_isOpen := bool_decide (is_Some (readable_text (fs σ) p));
       QFile_pos := 0 |}.
Proof.
  destruct σ as [w fs0 lg dl]. unfold readable_text.
  cbv [run result QFile_open QFile_new QFile_isOpen QFile_fileName
       mbind M_bind mret M_ret get_fs put_fs fs_open fs win logger dialogs
       fst snd].
  destruct (files fs0 !! p) as [f|]; [destruct (readable f)|]; done.
Qed.

(** [readAll] on a handle at position 0 yields the text of the file. *)
Lemma readAll_start (p : QString) (σ : World) :
  let f := {| QFile_fileName := p; QFile_isOpen := true; QFile_pos := 0 |} in
  run (QFile_readAll f) σ = σ /\
  fst (result (QFile_readAll f) σ) = fs_read (fs σ) p.
Proof. done. Qed.

(** Reading the file of one field: the loop body of [loadTests] is two
    instances of this shape. *)
Lemma load_field (p : QString) (store : QString -> MainWindow -> MainWindow)
    (ok : M unit) (failed : QFile -> M unit) (σ : World) :
  (forall σ0, win (run ok σ0) = win σ0 /\ fs (run ok σ0) = fs σ0) ->
  (forall f σ0,
     win (run (failed f) σ0) = win σ0 /\ fs (run (failed f) σ0) = fs σ0) ->
  let m : M unit :=
    if fs_exists (fs σ) p then
      file ← QFile_open ReadOnly (QFile_new p);
      if QFile_isOpen file then
        '(t, _) ← QFile_readAll file;
        modify_win (store t);; ok
      else failed file
    else mret tt in
  fs (run m σ) = fs σ /\
  win (run m σ) =
    match readable_text (fs σ) p with
    | Some c => store c (win σ)
    | None => win σ
    end.
Proof.
  intros Hok Hfailed m. subst m.
  unfold fs_exists.
  destruct (files (fs σ) !! p) as [f|] eqn:Hp; cbn [bool_decide];
    [|by unfold readable_text; rewrite Hp].
  rewrite bool_decide_eq_true_2 by eauto.
  rewrite run_bind.
  destruct (open_ReadOnly p σ) as [-> ->]. cbn [QFile_isOpen].
  unfold readable_text. rewrite Hp.
  destruct (readable f) eqn:Hr.
  - rewrite bool_decide_eq_true_2 by eauto.
    rewrite run_bind.
    destruct (readAll_start p σ) as [-> Hres]. cbv zeta in Hres.
    destruct (result _ σ) as [t f']. cbn in Hres. subst t.
    rewrite run_bind.
    destruct (Hok (run (modify_win (store (fs_read (fs σ) p))) σ))
      as [-> ->].
    unfold fs_read. rewrite Hp. by destruct σ.
  - rewrite bool_decide_eq_false_2 by (intros [? ?]; done).
    by destruct (Hfailed {| QFile_fileName := p; QFile_isOpen := false;
                            QFile_pos := 0 |} σ).
Qed.

Lemma log_frame (s : Severity) (head body : QString) (σ : World) :
  win (run (log s head body) σ) = win σ /\
  fs (run (log s head body) σ) = fs σ.
Proof. done. Qed.

Lemma loadTests_body_spec (base : QString) (i : nat) (σ : World) :
  let σ' := run (loadTests_body base i) σ in
  fs σ' = fs σ /\
  win σ' =
    (let w1 := match readable_text (fs σ) (in_name base i) with
               | Some c => set_input (<[i := c]> (input (win σ))) (win σ)
               | None => win σ
               end in
     match readable_text (fs σ) (ans_name base i) with
     | Some c => set_expected (<[i := c]> (expected w1)) w1
     | None => w1
     end).
Proof.
  cbv zeta. unfold loadTests_body.
  rewrite run_bind.
  destruct (run_QFile_exists (in_name base i) σ) as [-> ->].
  rewrite run_bind.
  match goal with |- context [run _ (run ?m σ)] => set (σ1 := run m σ) end.
  assert (fs σ1 = fs σ /\
          win σ1 = match readable_text (fs σ) (in_name base i) with
                   | Some c => set_input (<[i := c]> (input (win σ))) (win σ)
                   | None => win σ
                   end) as [Hfs Hwin].
  { subst σ1.
    apply (load_field (in_name base i)
             (fun t w => set_input (<[i := t]> (input w)) w));
      intros; apply log_frame. }
  clearbody σ1. rewrite run_bind.
  destruct (run_QFile_exists (ans_name base i) σ1) as [-> ->].
  rewrite <- Hwin, <- Hfs.
  apply (load_field (ans_name base i)
           (fun t w => set_expected (<[i := t]> (expected w)) w));
    intros; apply log_frame.
Qed.

(** The loop of [loadTests] leaves the file system alone. *)
Lemma loadTests_fs (σ : World) : fs (run loadTests σ) = fs σ.
Proof.
  unfold loadTests. rewrite run_bind. cbn [run result get_win fst snd].
  destruct (openFile (win σ)) as [f|]; [|done].
  destruct (shouldSaveTests (win σ)); [|done]. cbn [negb seq].
  rewrite !run_for_cons, run_for_nil.
  by rewrite !(proj1 (loadTests_body_spec _ _ _)).
Qed.

Lemma loadTests_body_fields (base : QString) (i : nat) (σ : World) :
  let w := win σ in
  let w' := win (run (loadTests_body base i) σ) in
  input w' = match readable_text (fs σ) (in_name base i) with
             | Some c => <[i := c]> (input w)
             | None => input w
             end /\
  expected w' = match readable_text (fs σ) (ans_name base i) with
                | Some c => <[i := c]> (expected w)
                | None => expected w
                end /\
  output w' = output w /\ verdict w' = verdict w /\
  editor w' = editor w /\ openFile w' = openFile w /\
  templatePath w' = templatePath w /\
  shouldSaveTests w' = shouldSaveTests w.
Proof.
  cbv zeta. rewrite (proj2 (loadTests_body_spec base i σ)). cbv zeta.
  destruct (readable_text (fs σ) (in_name base i)),
    (readable_text (fs σ) (ans_name base i)); done.
Qed.

(** The window after [loadTests], slot by slot. *)
Lemma loadTests_slots (σ : World) (f : QFile) :
  openFile (win σ) = Some f -> shouldSaveTests (win σ) = true ->
  three_slots (win σ) ->
  let w := win σ in
  let w' := win (run loadTests σ) in
  (forall i, i < 3 ->
     input w' !! i =
       Some (default (slot (input w) i)
               (readable_text (fs σ) (in_name (testFile f) i))) /\
     expected w' !! i =
       Some (default (slot (expected w) i)
               (readable_text (fs σ) (ans_name (testFile f) i)))) /\
  output w' = output w /\ verdict w' = verdict w /\
  editor w' = editor w /\ openFile w' = openFile w /\
  shouldSaveTests w' = shouldSaveTests w.
Proof.
  intros Hf Hs (Hi & _ & _ & He). cbv zeta.
  unfold loadTests. rewrite run_bind. cbn [run result get_win fst snd].
  rewrite Hf, Hs. cbn [negb seq].
  rewrite !run_for_cons, run_for_nil.
  set (base := testFile f).
  pose proof (proj1 (loadTests_body_spec base 0 σ)) as F0.
  destruct (loadTests_body_fields base 0 σ)
    as (I0 & X0 & O0 & V0 & E0 & P0 & _ & S0).
  set (σ0 := run (loadTests_body base 0) σ) in *.
  pose proof (proj1 (loadTests_body_spec base 1 σ0)) as F1.
  destruct (loadTests_body_fields base 1 σ0)
    as (I1 & X1 & O1 & V1 & E1 & P1 & _ & S1).
  set (σ1 := run (loadTests_body base 1) σ0) in *.
  destruct (loadTests_body_fields base 2 σ1)
    as (I2 & X2 & O2 & V2 & E2 & P2 & _ & S2).
  set (σ2 := run (loadTests_body base 2) σ1) in *.
  cbv zeta in *. rewrite F1, F0 in I2, X2. rewrite F0 in I1, X1.
  split; [|repeat split; congruence].
  intros i Hlt. rewrite I2, I1, I0, X2, X1, X0.
  apply length_three in Hi as (a0 & a1 & a2 & ->).
  apply length_three in He as (e0 & e1 & e2 & ->).
  split.
  - destruct i as [|[|[|i]]]; [| | |lia];
      destruct (readable_text (fs σ) (in_name base 0)),
        (readable_text (fs σ) (in_name base 1)),
        (readable_text (fs σ) (in_name base 2)); done.
  - destruct i as [|[|[|i]]]; [| | |lia];
      destruct (readable_text (fs σ) (ans_name base 0)),
        (readable_text (fs σ) (ans_name base 1)),
        (readable_text (fs σ) (ans_name base 2)); done.
Qed.

Lemma loadTests_disabled (σ : World) :
  openFile (win σ) = None \/ shouldSaveTests (win σ) = false ->
  run loadTests σ = σ.
Proof.
  intros H. unfold loadTests. rewrite run_bind.
  cbn [run result get_win fst snd].
  destruct (openFile (win σ)); [|done].
  destruct H as [H|H]; [done|]. by rewrite H.
Qed.

(** Opening a fresh [QFile] write-only. *)
Lemma open_WriteOnly (p : QString) (σ : World) :
  run (QFile_open WriteOnly (QFile_new p)) σ =
    run (put_fs (snd (fs_open WriteOnly p (fs σ)))) σ /\
  result (QFile_open WriteOnly (QFile_new p)) σ =
    {| QFile_fileName := p;
       QFile_isOpen := fst (fs_open WriteOnly p (fs σ));
       QFile_pos := 0 |}.
Proof.
  destruct σ as [w fs0 lg dl].
  cbv [run result QFile_open QFile_new QFile_isOpen QFile_fileName
       mbind M_bind mret M_ret get_fs put_fs fs win logger dialogs].
  by destruct (fs_open WriteOnly p fs0).
Qed.

(** Writing through an open handle on an existing file. *)
Lemma write_open (p data : QString) (pos : nat) (file : File) (σ : World) :
  files (fs σ) !! p = Some file ->
  let f := {| QFile_fileName := p; QFile_isOpen := true;
              QFile_pos := pos |} in
  run (QFile_write data f) σ =
    run (put_fs (fs_set p (set_content (write_at pos data (content file))
                             file) (fs σ))) σ /\
  result (QFile_write data f) σ =
    (Z.of_nat (length data),
     {| QFile_fileName := p; QFile_isOpen := true;
        QFile_pos := pos + length data |}).
Proof.
  intros Hp. destruct σ as [w fs0 lg dl]. cbn [fs] in Hp.
  cbv [run result QFile_write QFile_isOpen QFile_fileName QFile_pos
       mbind M_bind mret M_ret get_fs put_fs fs win logger dialogs].
  by rewrite Hp.
Qed.

Lemma write_at_start (data : QString) : write_at 0 data [] = data.
Proof. unfold write_at. cbn. by rewrite drop_nil, app_nil_r. Qed.

Lemma written_not_failed (n : nat) : negb (Z.of_nat n =? -1)%Z = true.
Proof. apply negb_true_iff, Z.eqb_neq. lia. Qed.

(** Writing the file of one field: the loop body of [saveTests] is two
    instances of this shape. *)
Lemma save_field (p t : QString) (ok bad failed : M unit) (σ : World) :
  (forall σ0, win (run ok σ0) = win σ0 /\ fs (run ok σ0) = fs σ0) ->
  (forall σ0, win (run bad σ0) = win σ0 /\ fs (run bad σ0) = fs σ0) ->
  (forall σ0, win (run failed σ0) = win σ0 /\ fs (run failed σ0) = fs σ0) ->
  let m : M unit :=
    if negb (isEmpty (trimmed t)) then
      file ← QFile_open WriteOnly (QFile_new p);
      if QFile_isOpen file then
        '(n, _) ← QFile_write (c_str (toStdString t)) file;
        if negb (n =? -1)%Z then ok else bad
      else failed
    else mret tt in
  win (run m σ) = win σ /\
  locked (fs (run m σ)) = locked (fs σ) /\
  files (fs (run m σ)) !! p =
    saved_file t (files (fs σ) !! p) (bool_decide (p ∈ locked (fs σ))) /\
  (forall q, q <> p -> files (fs (run m σ)) !! q = files (fs σ) !! q).
Proof.
  intros Hok Hbad Hfailed m. subst m. unfold saved_file.
  destruct (isEmpty (trimmed t)); cbn [negb]; [done|].
  rewrite run_bind. destruct (open_WriteOnly p σ) as [-> ->].
  cbn [QFile_isOpen]. unfold fs_open.
  destruct (files (fs σ) !! p) as [f|] eqn:Hp.
  - destruct (writable f); cbn [fst snd].
    + rewrite run_bind.
      set (σ1 := run (put_fs _) σ).
      assert (H1 : files (fs σ1) !! p = Some (set_content [] f))
        by apply lookup_insert_eq.
      destruct (write_open p (c_str (toStdString t)) 0 _ σ1 H1) as [-> ->].
      rewrite written_not_failed.
      destruct (Hok (run (put_fs (fs_set p
                  (set_content (write_at 0 (c_str (toStdString t))
                     (content (set_content [] f))) (set_content [] f))
                  (fs σ1))) σ1)) as [-> ->].
      subst σ1.
      cbn [run put_fs snd fs win locked files fs_set content set_content
           readable writable created].
      rewrite write_at_start. repeat split.
      * by rewrite lookup_insert_eq.
      * intros q Hq. by rewrite !lookup_insert_ne.
    + destruct (Hfailed (run (put_fs (fs σ)) σ)) as [-> ->]. done.
  - destruct (bool_decide (p ∈ locked (fs σ))); cbn [fst snd].
    + destruct (Hfailed (run (put_fs (fs σ)) σ)) as [-> ->]. done.
    + rewrite run_bind.
      set (σ1 := run (put_fs _) σ).
      assert (H1 : files (fs σ1) !! p = Some created)
        by apply lookup_insert_eq.
      destruct (write_open p (c_str (toStdString t)) 0 _ σ1 H1) as [-> ->].
      rewrite written_not_failed.
      destruct (Hok (run (put_fs (fs_set p
                  (set_content (write_at 0 (c_str (toStdString t))
                     (content created)) created)
                  (fs σ1))) σ1)) as [-> ->].
      subst σ1.
      cbn [run put_fs snd fs win locked files fs_set content set_content
           readable writable created].
      rewrite write_at_start. repeat split.
      * by rewrite lookup_insert_eq.
      * intros q Hq. by rewrite !lookup_insert_ne.
Qed.

(** The six names of the test files are distinct. *)
Lemma in_ans_ne (base : QString) (i j : nat) :
  in_name base i <> ans_name base j.
Proof.
  unfold in_name, ans_name. intros H. apply app_inv_head in H.
  apply (f_equal (@rev ascii)) in H. rewrite !rev_app_distr in H.
  discriminate.
Qed.

Lemma in_name_inj (base : QString) (i j : nat) :
  i < 3 -> j < 3 -> in_name base i = in_name base j -> i = j.
Proof.
  unfold in_name. intros Hi Hj H. apply app_inv_head in H.
  destruct i as [|[|[|i]]], j as [|[|[|j]]]; try lia; discriminate.
Qed.

Lemma ans_name_inj (base : QString) (i j : nat) :
  i < 3 -> j < 3 -> ans_name base i = ans_name base j -> i = j.
Proof.
  unfold ans_name. intros Hi Hj H. apply app_inv_head in H.
  destruct i as [|[|[|i]]], j as [|[|[|j]]]; try lia; discriminate.
Qed.

Lemma saveTests_body_spec (base : QString) (i : nat) (σ : World) :
  let σ' := run (saveTests_body base i) σ in
  win σ' = win σ /\
  locked (fs σ') = locked (fs σ) /\
  (forall q,
     files (fs σ') !! q =
     saved_at base (win σ) i q (files (fs σ) !! q)
       (bool_decide (q ∈ locked (fs σ)))).
Proof.
  cbv zeta. unfold saveTests_body.
  rewrite run_bind. cbn [run result get_win fst snd]. rewrite run_bind.
  match goal with |- context [run _ (run ?m σ)] => set (σ1 := run m σ) end.
  assert (win σ1 = win σ /\ locked (fs σ1) = locked (fs σ) /\
          files (fs σ1) !! in_name base i =
            saved_file (slot (input (win σ)) i)
              (files (fs σ) !! in_name base i)
              (bool_decide (in_name base i ∈ locked (fs σ))) /\
          (forall q, q <> in_name base i ->
             files (fs σ1) !! q = files (fs σ) !! q))
    as (W1 & L1 & P1 & Q1).
  { subst σ1. apply save_field; intros; apply log_frame. }
  clearbody σ1.
  match goal with |- context [run ?m σ1] => set (σ2 := run m σ1) end.
  assert (win σ2 = win σ1 /\ locked (fs σ2) = locked (fs σ1) /\
          files (fs σ2) !! ans_name base i =
            saved_file (slot (expected (win σ)) i)
              (files (fs σ1) !! ans_name base i)
              (bool_decide (ans_name base i ∈ locked (fs σ1))) /\
          (forall q, q <> ans_name base i ->
             files (fs σ2) !! q = files (fs σ1) !! q))
    as (W2 & L2 & P2 & Q2).
  { subst σ2. apply save_field; intros; apply log_frame. }
  clearbody σ2. repeat split; [congruence..|].
  intros q. unfold saved_at.
  pose proof (in_ans_ne base i i) as Hne.
  destruct (decide (q = in_name base i)) as [->|Hin].
  - by rewrite Q2, P1.
  - destruct (decide (q = ans_name base i)) as [->|Hans].
    + rewrite P2, L1, Q1; done.
    + by rewrite Q2, Q1.
Qed.

Lemma saved_at_in (base : QString) (w : MainWindow) (i : nat)
    (old : option File) (lk : bool) :
  saved_at base w i (in_name base i) old lk =
  saved_file (slot (input w) i) old lk.
Proof. unfold saved_at. by rewrite decide_True. Qed.

Lemma saved_at_ans (base : QString) (w : MainWindow) (i : nat)
    (old : option File) (lk : bool) :
  saved_at base w i (ans_name base i) old lk =
  saved_file (slot (expected w) i) old lk.
Proof.
  unfold saved_at.
  rewrite decide_False by (intros H; symmetry in H; by apply in_ans_ne in H).
  by rewrite decide_True.
Qed.

Lemma saved_at_other (base : QString) (w : MainWindow) (j : nat)
    (q : QString) (old : option File) (lk : bool) :
  q <> in_name base j -> q <> ans_name base j ->
  saved_at base w j q old lk = old.
Proof. intros H1 H2. unfold saved_at. by rewrite !decide_False. Qed.

Lemma saved_at_other_in (base : QString) (w : MainWindow) (i j : nat)
    (old : option File) (lk : bool) :
  i < 3 -> j < 3 -> i <> j ->
  saved_at base w j (in_name base i) old lk = old.
Proof.
  intros Hi Hj Hne. apply saved_at_other.
  - intros H. by apply in_name_inj in H.
  - apply in_ans_ne.
Qed.

Lemma saved_at_other_ans (base : QString) (w : MainWindow) (i j : nat)
    (old : option File) (lk : bool) :
  i < 3 -> j < 3 -> i <> j ->
  saved_at base w j (ans_name base i) old lk = old.
Proof.
  intros Hi Hj Hne. apply saved_at_other.
  - intros H. symmetry in H. by apply in_ans_ne in H.
  - intros H. by apply ans_name_inj in H.
Qed.

(** What [saveTests] does, file by file. *)
Lemma saveTests_files (σ : World) (f : QFile) :
  openFile (win σ) = Some f -> shouldSaveTests (win σ) = true ->
  let w := win σ in
  let base := testFile f in
  let σ' := run saveTests σ in
  win σ' = w /\
  locked (fs σ') = locked (fs σ) /\
  (forall i, i < 3 ->
     files (fs σ') !! in_name base i =
       saved_file (slot (input w) i) (files (fs σ) !! in_name base i)
         (bool_decide (in_name base i ∈ locked (fs σ))) /\
     files (fs σ') !! ans_name base i =
       saved_file (slot (expected w) i) (files (fs σ) !! ans_name base i)
         (bool_decide (ans_name base i ∈ locked (fs σ)))) /\
  (forall q,
     (forall i, i < 3 -> q <> in_name base i /\ q <> ans_name base i) ->
     files (fs σ') !! q = files (fs σ) !! q).
Proof.
  intros Hf Hs. cbv zeta.
  unfold saveTests. rewrite run_bind. cbn [run result get_win fst snd].
  rewrite Hf, Hs. cbn [negb seq].
  rewrite !run_for_cons, run_for_nil.
  set (base := testFile f).
  destruct (saveTests_body_spec base 0 σ) as (W0 & L0 & F0).
  set (σ0 := run (saveTests_body base 0) σ) in *.
  destruct (saveTests_body_spec base 1 σ0) as (W1 & L1 & F1).
  set (σ1 := run (saveTests_body base 1) σ0) in *.
  destruct (saveTests_body_spec base 2 σ1) as (W2 & L2 & F2).
  set (σ2 := run (saveTests_body base 2) σ1) in *.
  cbv zeta in *.
  assert (F : forall q, files (fs σ2) !! q =
            saved_at base (win σ) 2 q
              (saved_at base (win σ) 1 q
                 (saved_at base (win σ) 0 q (files (fs σ) !! q)
                    (bool_decide (q ∈ locked (fs σ))))
                 (bool_decide (q ∈ locked (fs σ))))
              (bool_decide (q ∈ locked (fs σ)))).
  { intros q. rewrite F2, F1, F0, W1, W0, L1, L0. done. }
  clearbody σ0 σ1 σ2.
  split; [congruence|]. split; [congruence|]. split.
  - intros i Hi. rewrite !F.
    destruct i as [|[|[|i]]]; [| | |lia].
    + rewrite !(saved_at_other_in _ _ 0 2), !(saved_at_other_in _ _ 0 1),
        !(saved_at_other_ans _ _ 0 2), !(saved_at_other_ans _ _ 0 1) by lia.
      by rewrite saved_at_in, saved_at_ans.
    + rewrite !(saved_at_other_in _ _ 1 2), !(saved_at_other_in _ _ 1 0),
        !(saved_at_other_ans _ _ 1 2), !(saved_at_other_ans _ _ 1 0) by lia.
      by rewrite saved_at_in, saved_at_ans.
    + rewrite !(saved_at_other_in _ _ 2 1), !(saved_at_other_in _ _ 2 0),
        !(saved_at_other_ans _ _ 2 1), !(saved_at_other_ans _ _ 2 0) by lia.
      by rewrite saved_at_in, saved_at_ans.
  - intros q Hq. rewrite F.
    destruct (Hq 0), (Hq 1), (Hq 2); try lia.
    by rewrite !saved_at_other.
Qed.

Lemma saveTests_disabled (σ : World) :
  openFile (win σ) = None \/ shouldSaveTests (win σ) = false ->
  run saveTests σ = σ.
Proof.
  intros H. unfold saveTests. rewrite run_bind.
  cbn [run result get_win fst snd].
  destruct (openFile (win σ)); [|done].
  destruct H as [H|H]; [done|]. by rewrite H.
Qed.

(** A text without NUL is its own C string. *)
Lemma c_str_id (t : QString) : NUL ∉ t -> c_str t = t.
Proof.
  induction t as [|c t IH]; [done|]. intros H.
  apply not_elem_of_cons in H as [Hc Ht]. cbn [c_str].
  destruct (Ascii.eqb_spec c NUL) as [->|_]; [done|]. by rewrite IH.
Qed.

(** The C string of a text is a prefix of it. *)
Lemma c_str_prefix (t : QString) : c_str t `prefix_of` t.
Proof.
  induction t as [|c t IH]; [done|]. cbn [c_str].
  destruct (Ascii.eqb c NUL); [apply prefix_nil|]. by apply prefix_cons.
Qed.

Lemma slot_lookup (l : list QString) (i : nat) :
  i < length l -> l !! i = Some (slot l i).
Proof.
  intros H. unfold slot. by destruct (lookup_lt_is_Some_2 l i H) as [x ->].
Qed.

Lemma can_write_spec (fs0 : FileSystem) (p : QString) :
  can_write fs0 p =
  match files fs0 !! p with
  | Some f => writable f
  | None => negb (bool_decide (p ∈ locked fs0))
  end.
Proof.
  unfold can_write, fs_open. destruct (files fs0 !! p) as [f|].
  - by destruct (writable f).
  - by destruct (bool_decide (p ∈ locked fs0)).
Qed.

(** A field saved and then loaded: what is read back when the field is
    not blank and its file could be written. *)
Lemma reload_saved (t : QString) (old : option File) (lk : bool) :
  isEmpty (trimmed t) = false ->
  match old with Some f => writable f | None => negb lk end = true ->
  default t
    (match saved_file t old lk with
     | Some f => if readable f then Some (content f) else None
     | None => None
     end) = c_str t \/
  default t
    (match saved_file t old lk with
     | Some f => if readable f then Some (content f) else None
     | None => None
     end) = t.
Proof.
  intros Ht Hw. unfold saved_file. rewrite Ht.
  destruct old as [f|].
  - rewrite Hw. cbn. destruct (readable f); auto.
  - apply negb_true_iff in Hw. rewrite Hw. cbn. auto.
Qed.

End Persistence.

Section DirtyState.

(** [isTextChanged] only moves the position of the open handle. *)
Lemma isTextChanged_frame (σ : World) :
  let σ' := run isTextChanged σ in
  fs σ' = fs σ /\ dialogs σ' = dialogs σ /\ logger σ' = logger σ /\
  editor (win σ') = editor (win σ) /\ input (win σ') = input (win σ) /\
  output (win σ') = output (win σ) /\ verdict (win σ') = verdict (win σ) /\
  expected (win σ') = expected (win σ) /\
  templatePath (win σ') = templatePath (win σ) /\
  shouldSaveTests (win σ') = shouldSaveTests (win σ) /\
  (QFile_fileName <$> openFile (win σ')) =
    (QFile_fileName <$> openFile (win σ)) /\
  (QFile_isOpen <$> openFile (win σ')) = (QFile_isOpen <$> openFile (win σ)).
Proof.
  cbv zeta. unfold isTextChanged. rewrite run_bind.
  cbn [run result get_win fst snd].
  destruct (openFile (win σ)) as [f|] eqn:Hf.
  - destruct f as [name [|] pos]; cbn [QFile_isOpen];
      [|by rewrite run_ret, Hf].
    destruct σ as [w fs0 lg dl].
    destruct w as [ed inp outp ver exp opf tp sst]. cbn in Hf. subst opf.
    done.
  - rewrite run_bind. destruct (run_QFile_exists (templatePath (win σ)) σ)
      as [-> ->].
    destruct (negb (size (templatePath (win σ)) =? 0) &&
              fs_exists (fs σ) (templatePath (win σ)));
      [|by rewrite run_ret, Hf].
    rewrite run_bind.
    destruct (open_ReadOnly (templatePath (win σ)) σ) as [-> ->].
    rewrite run_bind.
    assert (Hread : forall h, run (QFile_readAll h) σ = σ)
      by (intros [? [|] ?]; done).
    rewrite Hread. destruct (result _ σ) as [t f']. by rewrite run_ret, Hf.
Qed.

(** The result of [isTextChanged] without a backing file. *)
Lemma isTextChanged_unsaved (σ : World) :
  openFile (win σ) = None ->
  result isTextChanged σ =
    if negb (size (templatePath (win σ)) =? 0) &&
       fs_exists (fs σ) (templatePath (win σ))
    then negb (eqb (editor (win σ))
                 (default [] (readable_text (fs σ) (templatePath (win σ)))))
    else negb (isEmpty (editor (win σ))).
Proof.
  intros Hf. unfold isTextChanged. rewrite result_bind.
  cbn [run result get_win fst snd]. rewrite Hf. rewrite result_bind.
  destruct (run_QFile_exists (templatePath (win σ)) σ) as [-> ->].
  destruct (negb (size (templatePath (win σ)) =? 0) &&
            fs_exists (fs σ) (templatePath (win σ))); [|done].
  rewrite result_bind.
  destruct (open_ReadOnly (templatePath (win σ)) σ) as [-> ->].
  unfold readable_text.
  destruct (files (fs σ) !! templatePath (win σ)) as [file|] eqn:Ht;
    [destruct (readable file) eqn:Hr|].
  - rewrite bool_decide_eq_true_2 by eauto.
    cbv [result QFile_readAll QFile_isOpen QFile_fileName QFile_pos
         mbind M_bind mret M_ret get_fs fst fs_read].
    by rewrite Ht.
  - by rewrite bool_decide_eq_false_2 by (intros [? ?]; done).
  - by rewrite bool_decide_eq_false_2 by (intros [? ?]; done).
Qed.

(** The result of [isTextChanged] with a backing file. *)
Lemma isTextChanged_saved (σ : World) (f : QFile) :
  openFile (win σ) = Some f ->
  result isTextChanged σ =
    if QFile_isOpen f
    then negb (eqb (fs_read (fs σ) (QFile_fileName f)) (editor (win σ)))
    else true.
Proof.
  intros Hf. unfold isTextChanged. rewrite result_bind.
  cbn [run result get_win fst snd]. rewrite Hf.
  destruct f as [name [|] pos]; cbn [QFile_isOpen QFile_fileName]; [|done].
  cbv [result QFile_seek QFile_readAll QFile_isOpen QFile_fileName QFile_pos
       mbind M_bind mret M_ret get_fs fst modify_win].
  done.
Qed.

(** A save that writes: afterwards the buffer is unchanged, and one more
    character makes it changed. *)
Example saveFile_then_unchanged :
  let σ := run (saveFile false (qs "Compiler") []) Scenarios.fresh_world in
  result (saveFile false (qs "Compiler") []) Scenarios.fresh_world = true /\
  result isTextChanged σ = false /\
  result isTextChanged
    (run (modify_win (fun w => set_editor (editor w ++ qs "x") w)) σ) = true.
Proof. cbv zeta. repeat split; reflexivity. Qed.

(** A save that writes a buffer with an embedded NUL: the file receives
    the text before the NUL, and the buffer is changed right after. *)
Example saveFile_nul_buffer :
  let m := saveFile false (qs "Compiler") [] in
  let σ := Scenarios.nul_buffer_world in
  result m σ = true /\
  files (fs (run m σ)) !! qs "/home/u/sol.cpp" =
    Some (Scenarios.plain (qs "a")) /\
  result isTextChanged (run m σ) = true.
Proof. cbv zeta. repeat split; reflexivity. Qed.

End DirtyState.

Section BackingFile.

Lemma before_from_first (c : QChar) (s : QString) :
  before_first c s ++ from_first c s = s.
Proof.
  induction s as [|d s IH]; [done|]. cbn [before_first from_first].
  destruct (Ascii.eqb d c); [done|]. cbn. by rewrite IH.
Qed.

Lemma before_first_notin (c : QChar) (s : QString) : c ∉ before_first c s.
Proof.
  induction s as [|d s IH]; cbn [before_first]; [apply not_elem_of_nil|].
  destruct (Ascii.eqb_spec d c) as [->|Hne]; [apply not_elem_of_nil|].
  apply not_elem_of_cons. split; [congruence|done].
Qed.

Lemma from_first_head (c : QChar) (s : QString) :
  from_first c s = [] \/ exists r, from_first c s = c :: r.
Proof.
  induction s as [|d s IH]; cbn [from_first]; [by left|].
  destruct (Ascii.eqb_spec d c) as [->|Hne]; [right; eauto|done].
Qed.

Lemma before_first_stop (c : QChar) (a b : QString) :
  c ∉ a -> before_first c (a ++ c :: b) = a.
Proof.
  induction a as [|d a IH]; intros Ha; cbn [app before_first].
  - by rewrite Ascii.eqb_refl.
  - apply not_elem_of_cons in Ha as [Hd Ha].
    destruct (Ascii.eqb_spec d c) as [->|_]; [done|]. by rewrite IH.
Qed.

(** The reversed complete base name is a suffix of the reversed file
    name. *)
Lemma completeBaseName_rev (p : QString) :
  let n := before_first "/"%char (rev p) in
  rev (QFileInfo_completeBaseName p) = n \/
  n = before_first "."%char n ++
      "."%char :: rev (QFileInfo_completeBaseName p).
Proof.
  cbv zeta. unfold QFileInfo_completeBaseName, QFileInfo_fileName.
  rewrite rev_involutive.
  set (n := before_first "/"%char (rev p)).
  pose proof (before_from_first "."%char n) as Hn.
  destruct (from_first_head "."%char n) as [H|[b H]]; rewrite H in *.
  - left. by rewrite rev_involutive.
  - right. by rewrite rev_involutive.
Qed.

(** The backing file is none of its own test files. *)
Lemma backing_not_test (f : QFile) (i : nat) :
  i < 3 ->
  QFile_fileName f <> in_name (testFile f) i /\
  QFile_fileName f <> ans_name (testFile f) i.
Proof.
  intros Hi. unfold in_name, ans_name, testFile.
  set (p := QFile_fileName f).
  set (n := before_first "/"%char (rev p)).
  assert (Hslash : "/"%char ∉ n) by apply before_first_notin.
  assert (Hbase : "/"%char ∉ rev (QFileInfo_completeBaseName p)).
  { destruct (completeBaseName_rev p) as [->|Hn]; [done|].
    fold n in Hn. intros Hin. apply Hslash. rewrite Hn.
    apply elem_of_app. right. by apply elem_of_cons; right. }
  assert (Hkey : forall X : QString,
            "/"%char ∉ rev X -> X <> [] -> head X <> Some "."%char ->
            p <> (QFileInfo_dir_absolutePath p ++ qs "/" ++
                  QFileInfo_completeBaseName p) ++ X).
  { intros X HX Hne Hhead Heq. apply (f_equal (@rev ascii)) in Heq.
    rewrite !rev_app_distr in Heq. cbn [qs list_ascii_of_string rev app] in Heq.
    apply (f_equal (before_first "/"%char)) in Heq. fold n in Heq.
    rewrite <- !app_assoc in Heq. cbn [app] in Heq.
    rewrite app_assoc in Heq.
    rewrite before_first_stop in Heq
      by (intros Hin; apply elem_of_app in Hin as [?|?]; done).
    destruct (completeBaseName_rev p) as [Hb|Hb]; fold n in Hb.
    - rewrite Hb in Heq. apply (f_equal length) in Heq.
      rewrite length_app, length_rev in Heq.
      destruct X; [done|]. cbn in Heq. lia.
    - rewrite Heq in Hb at 1.
      replace (before_first "."%char n ++
               "."%char :: rev (QFileInfo_completeBaseName p))
        with ((before_first "."%char n ++ ["."%char]) ++
              rev (QFileInfo_completeBaseName p)) in Hb
        by (by rewrite <- app_assoc).
      apply app_inv_tail in Hb. apply (f_equal (@rev ascii)) in Hb.
      rewrite rev_involutive, rev_app_distr in Hb. cbn in Hb.
      rewrite Hb in Hhead. by apply Hhead. }
  destruct i as [|[|[|i]]]; [| | |lia];
    (split;
     (apply Hkey;
      [apply (bool_decide_unpack _); vm_compute; exact I
      | discriminate | discriminate])).
Qed.

End BackingFile.

Section Saving.

Lemma resized_zero (c : QString) : resized 0 c = [].
Proof. unfold resized. by rewrite take_0. Qed.

(** Truncating through an open handle on an existing file. *)
Lemma resize_open (p : QString) (pos : nat) (file : File) (σ : World) :
  files (fs σ) !! p = Some file ->
  let f := {| QFile_fileName := p; QFile_isOpen := true;
              QFile_pos := pos |} in
  run (QFile_resize 0 f) σ =
    run (put_fs (fs_set p (set_content [] file) (fs σ))) σ /\
  result (QFile_resize 0 f) σ =
    {| QFile_fileName := p; QFile_isOpen := true; QFile_pos := 0 |}.
Proof.
  intros Hp. destruct σ as [w fs0 lg dl]. cbn [fs] in Hp.
  cbv [run result QFile_resize QFile_isOpen QFile_fileName QFile_pos
       mbind M_bind mret M_ret get_fs put_fs fs win logger dialogs].
  rewrite Hp. cbn [orb]. by rewrite resized_zero, Nat.min_0_r.
Qed.

(** [saveTests] leaves the window and the backing file alone. *)
Lemma saveTests_backing (σ : World) (f : QFile) :
  openFile (win σ) = Some f ->
  win (run saveTests σ) = win σ /\
  files (fs (run saveTests σ)) !! QFile_fileName f =
    files (fs σ) !! QFile_fileName f.
Proof.
  intros Hf. destruct (shouldSaveTests (win σ)) eqn:Hs.
  - destruct (saveTests_files σ f Hf Hs) as (Hw & _ & _ & Hq).
    split; [done|]. apply Hq. intros i Hi. by apply backing_not_test.
  - by rewrite saveTests_disabled by auto.
Qed.

Lemma run_on_textChanged_triggered (σ : World) :
  run on_textChanged_triggered σ = run isTextChanged σ.
Proof. unfold on_textChanged_triggered. by rewrite run_bind, run_ret. Qed.

(** The tail of [saveFile] once the buffer is written: the tests are
    saved and the dirty state is looked at. *)
Lemma saveFile_tail (σ : World) (f : QFile) :
  openFile (win σ) = Some f ->
  let σ' := run on_textChanged_triggered (run saveTests σ) in
  editor (win σ') = editor (win σ) /\
  (QFile_fileName <$> openFile (win σ')) = Some (QFile_fileName f) /\
  (QFile_isOpen <$> openFile (win σ')) = Some (QFile_isOpen f) /\
  files (fs σ') !! QFile_fileName f = files (fs σ) !! QFile_fileName f.
Proof.
  intros Hf. cbv zeta. rewrite run_on_textChanged_triggered.
  destruct (saveTests_backing σ f Hf) as [Hw Hfile].
  destruct (isTextChanged_frame (run saveTests σ))
    as (Hfs & _ & _ & Hed & _ & _ & _ & _ & _ & _ & Hn & Ho).
  cbv zeta in *. rewrite Hfs, Hed, Hn, Ho, Hw, Hf. done.
Qed.

(** [saveFile] with a backing file whose handle is open: the file
    receives the C string of the buffer. *)
Lemma saveFile_backed (σ : World) (force : bool) (head chosen : QString)
    (f : QFile) (file : File) :
  openFile (win σ) = Some f -> QFile_isOpen f = true ->
  files (fs σ) !! QFile_fileName f = Some file ->
  let m := saveFile force head chosen in
  let σ' := run m σ in
  result m σ = true /\
  editor (win σ') = editor (win σ) /\
  (QFile_fileName <$> openFile (win σ')) = Some (QFile_fileName f) /\
  (QFile_isOpen <$> openFile (win σ')) = Some true /\
  files (fs σ') !! QFile_fileName f =
    Some (set_content (c_str (editor (win σ))) file).
Proof.
  intros Hf Ho Hp. destruct f as [p o pos]. cbn in Ho, Hp. subst o.
  cbv zeta. cbn [QFile_fileName]. unfold saveFile.
  rewrite result_bind, run_bind. cbn [run result get_win fst snd].
  rewrite Hf. rewrite result_bind, run_bind.
  destruct (resize_open p pos file σ Hp) as [-> ->].
  set (σ1 := run (put_fs _) σ).
  assert (H1 : files (fs σ1) !! p = Some (set_content [] file))
    by apply lookup_insert_eq.
  rewrite result_bind, run_bind.
  destruct (write_open p (c_str (toStdString (editor (win σ)))) 0 _ σ1 H1)
    as [-> ->].
  cbn iota beta. rewrite !result_bind, !run_bind, run_ret.
  match goal with
  | |- context [run saveTests ?σ0] => set (σ4 := σ0)
  end.
  assert (H4 : exists f2, openFile (win σ4) = Some f2 /\
                 QFile_fileName f2 = p /\ QFile_isOpen f2 = true).
  { eexists. split; [reflexivity|]. done. }
  destruct H4 as (f2 & Ho4 & Hn4 & Hi4).
  assert (He4 : editor (win σ4) = editor (win σ)) by done.
  assert (Hf4 : files (fs σ4) !! p =
                Some (set_content (c_str (editor (win σ))) file)).
  { subst σ4 σ1. cbn. rewrite lookup_insert_eq. cbn.
    by rewrite write_at_start. }
  clearbody σ4.
  destruct (saveFile_tail σ4 f2 Ho4) as (He & Hn & Ho & Hfile).
  cbv zeta in *. rewrite Hn4 in *. rewrite Hi4 in *.
  rewrite He, Hn, Ho, Hfile, He4, Hf4. done.
Qed.

(** Opening a fresh [QFile] for reading and writing. *)
Lemma open_ReadWrite (p : QString) (σ : World) :
  run (QFile_open ReadWrite (QFile_new p)) σ =
    run (put_fs (snd (fs_open ReadWrite p (fs σ)))) σ /\
  result (QFile_open ReadWrite (QFile_new p)) σ =
    {| QFile_fileName := p;
       QFile_isOpen := fst (fs_open ReadWrite p (fs σ));
       QFile_pos := 0 |}.
Proof.
  destruct σ as [w fs0 lg dl].
  cbv [run result QFile_open QFile_new QFile_isOpen QFile_fileName
       mbind M_bind mret M_ret get_fs put_fs fs win logger dialogs].
  by destruct (fs_open ReadWrite p fs0).
Qed.

Lemma fs_open_ReadWrite_file (p : QString) (fs0 : FileSystem) :
  fst (fs_open ReadWrite p fs0) = true ->
  is_Some (files (snd (fs_open ReadWrite p fs0)) !! p).
Proof.
  unfold fs_open. destruct (files fs0 !! p) as [file|] eqn:Hp.
  - intros _. cbn. rewrite Hp. eauto.
  - destruct (bool_decide (p ∈ locked fs0)); [done|]. intros _. cbn.
    rewrite lookup_insert_eq. eauto.
Qed.

(** [saveFile] on an unsaved buffer, forced, with a name chosen in the
    dialog: the result is true whether or not the file could be opened;
    when it could, the file receives the C string of the buffer. *)
Lemma saveFile_unsaved (σ : World) (head chosen : QString) :
  openFile (win σ) = None -> chosen <> [] ->
  let m := saveFile true head chosen in
  let σ' := run m σ in
  let opened := fst (fs_open ReadWrite chosen (fs σ)) in
  result m σ = true /\
  editor (win σ') = editor (win σ) /\
  (QFile_fileName <$> openFile (win σ')) = Some chosen /\
  (QFile_isOpen <$> openFile (win σ')) = Some opened /\
  (opened = true ->
   content <$> files (fs σ') !! chosen = Some (c_str (editor (win σ)))).
Proof.
  intros Hf Hc. cbv zeta. unfold saveFile.
  rewrite result_bind, run_bind. cbn [run result get_win fst snd].
  rewrite Hf. rewrite result_bind, run_bind.
  replace (isEmpty chosen) with false by (by destruct chosen).
  set (σ0 := run (show _) σ).
  assert (H0 : win σ0 = win σ /\ fs σ0 = fs σ) by done.
  clearbody σ0. destruct H0 as [Hw0 Hfs0]. rewrite <- Hfs0.
  rewrite result_bind, run_bind.
  destruct (open_ReadWrite chosen σ0) as [-> ->].
  pose proof (fs_open_ReadWrite_file chosen (fs σ0)) as Hfile.
  destruct (fst (fs_open ReadWrite chosen (fs σ0))) eqn:Hopen.
  - destruct Hfile as [file Hfile]; [done|].
    set (σ1 := run (put_fs _) σ0).
    assert (H1 : win σ1 = win σ /\ files (fs σ1) !! chosen = Some file)
      by (subst σ1; split; [by rewrite <- Hw0 | done]).
    clearbody σ1. destruct H1 as [Hw1 Hp1].
    rewrite result_bind, run_bind. cbn [QFile_isOpen].
    set (σ2 := run (modify_win _) σ1).
    assert (H2 : win σ2 = set_openFile
                   (Some {| QFile_fileName := chosen; QFile_isOpen := true;
                            QFile_pos := 0 |}) (win σ) /\
                 files (fs σ2) !! chosen = Some file)
      by (subst σ2; split; [by cbn; rewrite Hw1 | done]).
    clearbody σ2. destruct H2 as [Hw2 Hp2].
    rewrite (result_bind (_ ≫= _)), (run_bind (_ ≫= _)).
    rewrite (run_bind (QFile_resize _ _)).
    destruct (resize_open chosen 0 file σ2 Hp2) as [-> ->].
    set (σ3 := run (put_fs _) σ2).
    assert (H3 : files (fs σ3) !! chosen = Some (set_content [] file))
      by apply lookup_insert_eq.
    rewrite (run_bind (QFile_write _ _)).
    destruct (write_open chosen (c_str (toStdString (editor (win σ)))) 0 _
                σ3 H3) as [-> ->].
    cbn iota beta. rewrite written_not_failed.
    rewrite !result_bind, !run_bind, !run_ret.
    match goal with
    | |- context [run saveTests ?σ0] => set (σ4 := σ0)
    end.
    assert (H4 : exists f2, openFile (win σ4) = Some f2 /\
                   QFile_fileName f2 = chosen /\ QFile_isOpen f2 = true).
    { eexists. split; [reflexivity|]. done. }
    destruct H4 as (f2 & Ho4 & Hn4 & Hi4).
    assert (He4 : editor (win σ4) = editor (win σ))
      by (subst σ4 σ3; cbn; by rewrite Hw2).
    assert (Hf4 : files (fs σ4) !! chosen =
                  Some (set_content (c_str (editor (win σ))) file)).
    { subst σ4 σ3. cbn. rewrite lookup_insert_eq. cbn.
      by rewrite write_at_start. }
    clearbody σ4.
    destruct (saveFile_tail σ4 f2 Ho4) as (He & Hn & Ho & Hfile4).
    cbv zeta in *. rewrite Hn4 in *. rewrite Hi4 in *.
    rewrite He, Hn, Ho, Hfile4, He4, Hf4. done.
  - clear Hfile. cbn [QFile_isOpen].
    rewrite !result_bind, !run_bind, !run_ret.
    match goal with
    | |- context [run saveTests ?σ0] => set (σ4 := σ0)
    end.
    assert (H4 : exists f2, openFile (win σ4) = Some f2 /\
                   QFile_fileName f2 = chosen /\ QFile_isOpen f2 = false).
    { eexists. split; [reflexivity|]. done. }
    destruct H4 as (f2 & Ho4 & Hn4 & Hi4).
    assert (He4 : editor (win σ4) = editor (win σ))
      by (subst σ4; cbn; by rewrite Hw0).
    clearbody σ4.
    destruct (saveFile_tail σ4 f2 Ho4) as (He & Hn & Ho & _).
    cbv zeta in *. rewrite Hn4 in *. rewrite Hi4 in *.
    rewrite He, Hn, Ho, He4. done.
Qed.

(** On a handle that is not open, [resize] and [write] leave the window
    and the handle closed. *)
Lemma resize_closed (p : QString) (pos : nat) (σ : World) :
  let f := {| QFile_fileName := p; QFile_isOpen := false;
              QFile_pos := pos |} in
  win (run (QFile_resize 0 f) σ) = win σ /\
  QFile_fileName (result (QFile_resize 0 f) σ) = p /\
  QFile_isOpen (result (QFile_resize 0 f) σ) = false.
Proof.
  destruct σ as [w fs0 lg dl].
  cbv [run result QFile_resize QFile_isOpen QFile_fileName QFile_pos
       mbind M_bind mret M_ret get_fs put_fs fs win logger dialogs].
  destruct (files fs0 !! p) as [file|]; [|done].
  cbn [orb]. by destruct (writable file).
Qed.

Lemma write_closed (data : QString) (f : QFile) (σ : World) :
  QFile_isOpen f = false ->
  run (QFile_write data f) σ = σ /\
  result (QFile_write data f) σ = ((-1)%Z, f).
Proof. intros Ho. unfold QFile_write. by rewrite Ho. Qed.

(** [saveFile] with a backing handle that is not open returns true and
    leaves the handle closed. *)
Lemma saveFile_closed (σ : World) (force : bool) (head chosen : QString)
    (f : QFile) :
  openFile (win σ) = Some f -> QFile_isOpen f = false ->
  let m := saveFile force head chosen in
  result m σ = true /\
  editor (win (run m σ)) = editor (win σ) /\
  (QFile_isOpen <$> openFile (win (run m σ))) = Some false.
Proof.
  intros Hf Ho. destruct f as [p o pos]. cbn in Ho. subst o.
  cbv zeta. unfold saveFile.
  rewrite result_bind, run_bind. cbn [run result get_win fst snd].
  rewrite Hf. rewrite result_bind, run_bind.
  destruct (resize_closed p pos σ) as (Hw1 & Hn1 & Ho1).
  cbv zeta in Hw1, Hn1, Ho1.
  set (σ1 := run (QFile_resize 0 _) σ) in *.
  set (f1 := result (QFile_resize 0 _) σ) in *.
  clearbody σ1 f1.
  rewrite result_bind, run_bind.
  destruct (write_closed (c_str (toStdString (editor (win σ)))) f1 σ1 Ho1)
    as [-> ->].
  cbn iota beta. rewrite !result_bind, !run_bind, run_ret.
  match goal with
  | |- context [run saveTests ?σ0] => set (σ4 := σ0)
  end.
  assert (Ho4 : openFile (win σ4) = Some f1) by done.
  assert (He4 : editor (win σ4) = editor (win σ))
    by (subst σ4; cbn; by rewrite Hw1).
  clearbody σ4.
  destruct (saveFile_tail σ4 f1 Ho4) as (He & _ & Ho & _).
  cbv zeta in *. rewrite He, Ho, He4, Ho1. done.
Qed.

(** The C string of a text is never the text with one more character. *)
Lemma c_str_shorter (t : QString) (c : QChar) : c_str t <> t ++ [c].
Proof.
  intros H. pose proof (prefix_length _ _ (c_str_prefix t)) as Hl.
  rewrite H, length_app in Hl. cbn in Hl. lia.
Qed.

(** [isTextChanged] on a window whose backing handle is open. *)
Lemma isTextChanged_open (σ : World) (p data : QString) :
  (QFile_fileName <$> openFile (win σ)) = Some p ->
  (QFile_isOpen <$> openFile (win σ)) = Some true ->
  content <$> files (fs σ) !! p = Some data ->
  result isTextChanged σ = negb (eqb data (editor (win σ))).
Proof.
  intros Hn Ho Hd. destruct (openFile (win σ)) as [f|] eqn:Hf; [|done].
  cbn in Hn, Ho. injection Hn as Hn. injection Ho as Ho.
  rewrite (isTextChanged_saved σ f Hf), Ho. unfold fs_read. rewrite Hn.
  destruct (files (fs σ) !! p) as [file|]; [|done].
  cbn in Hd. by injection Hd as ->.
Qed.

Lemma isTextChanged_closed (σ : World) :
  (QFile_isOpen <$> openFile (win σ)) = Some false ->
  result isTextChanged σ = true.
Proof.
  intros Ho. destruct (openFile (win σ)) as [f|] eqn:Hf; [|done].
  cbn in Ho. injection Ho as Ho.
  by rewrite (isTextChanged_saved σ f Hf), Ho.
Qed.

(** When [saveFile] has returned true: the buffer is unchanged exactly
    when the handle is open and the file holds the buffer, which is so
    for a buffer without NUL; it is changed when the handle is not open;
    and it is changed after any character is appended. *)
Lemma saveFile_then_isTextChanged (σ : World) (force : bool)
    (head chosen : QString) :
  (forall f, openFile (win σ) = Some f -> QFile_isOpen f = true ->
             is_Some (files (fs σ) !! QFile_fileName f)) ->
  result (saveFile force head chosen) σ = true ->
  let σ' := run (saveFile force head chosen) σ in
  ((QFile_isOpen <$> openFile (win σ')) = Some true ->
   NUL ∉ editor (win σ) -> result isTextChanged σ' = false) /\
  ((QFile_isOpen <$> openFile (win σ')) = Some false ->
   result isTextChanged σ' = true) /\
  (forall c,
     result isTextChanged
       (run (modify_win (fun w => set_editor (editor w ++ [c]) w)) σ')
     = true).
Proof.
  intros Hwf Hres. cbv zeta.
  assert (Hcases :
    let σ' := run (saveFile force head chosen) σ in
    editor (win σ') = editor (win σ) /\
    ((QFile_isOpen <$> openFile (win σ')) = Some false \/
     exists p, (QFile_fileName <$> openFile (win σ')) = Some p /\
       (QFile_isOpen <$> openFile (win σ')) = Some true /\
       content <$> files (fs σ') !! p = Some (c_str (editor (win σ))))).
  { cbv zeta. destruct (openFile (win σ)) as [f|] eqn:Hf.
    - destruct (QFile_isOpen f) eqn:Ho.
      + destruct (Hwf f eq_refl Ho) as [file Hfile].
        destruct (saveFile_backed σ force head chosen f file Hf Ho Hfile)
          as (_ & He & Hn & Hi & Hc).
        split; [done|]. right. exists (QFile_fileName f).
        cbv zeta in Hc. by rewrite Hc.
      + destruct (saveFile_closed σ force head chosen f Hf Ho)
          as (_ & He & Hi).
        split; [done|]. by left.
    - assert (force = true /\ chosen <> []) as [-> Hc].
      { unfold saveFile in Hres. rewrite result_bind in Hres.
        cbn [run result get_win fst snd] in Hres. rewrite Hf in Hres.
        destruct force; [|done]. split; [done|].
        intros ->. by rewrite result_bind in Hres. }
      destruct (saveFile_unsaved σ head chosen Hf Hc)
        as (_ & He & Hn & Hi & Hcont).
      cbv zeta in *. split; [done|].
      destruct (fst (fs_open ReadWrite chosen (fs σ))); [|by left].
      right. exists chosen. auto. }
  cbv zeta in Hcases. destruct Hcases as [He Hcases].
  split; [|split].
  - intros Ho Hnul. destruct Hcases as [Hc|(p & Hn & _ & Hc)]; [congruence|].
    rewrite (isTextChanged_open _ p _ Hn Ho Hc), He, c_str_id by done.
    by rewrite eqb_refl.
  - apply isTextChanged_closed.
  - intros c.
    set (σ2 := run (modify_win _) (run (saveFile force head chosen) σ)).
    assert (H2 : openFile (win σ2) =
                 openFile (win (run (saveFile force head chosen) σ)) /\
                 fs σ2 = fs (run (saveFile force head chosen) σ) /\
                 editor (win σ2) = editor (win σ) ++ [c])
      by (subst σ2; cbn; by rewrite He).
    clearbody σ2. destruct H2 as (Ho2 & Hf2 & He2).
    destruct Hcases as [Hc|(p & Hn & Ho & Hc)].
    + apply isTextChanged_closed. by rewrite Ho2.
    + rewrite <- Ho2 in Hn, Ho. rewrite <- Hf2 in Hc.
      rewrite (isTextChanged_open _ p _ Hn Ho Hc), He2.
      apply negb_true_iff. rewrite eqb_spec. apply bool_decide_eq_false.
      apply c_str_shorter.
Qed.

End Saving.

Section PersistenceClaims.

Import Scenarios.

Lemma readable_text_Some (fs0 : FileSystem) (p : QString) (file : File) :
  files fs0 !! p = Some file -> readable file = true ->
  readable_text fs0 p = Some (content file).
Proof. intros H1 H2. unfold readable_text. by rewrite H1, H2. Qed.

Lemma readable_text_None (fs0 : FileSystem) (p : QString) :
  files fs0 !! p = None \/
  (exists file, files fs0 !! p = Some file /\ readable file = false) ->
  readable_text fs0 p = None.
Proof.
  unfold readable_text. intros [->|(file & -> & ->)]; done.
Qed.

(** C3: with a backing file and the save-tests flag, [loadTests]
    replaces the input of each slot [i] by the full contents of
    [<basename>{i+1}.in] when that file exists and is readable, and the
    expected output by those of [<basename>{i+1}.ans] likewise; a file
    that is missing or unreadable leaves its field as it was, whatever
    happens to the other files; without a backing file or with the flag
    off, [loadTests] changes no slot. *)
Theorem C3_loadTests (σ : World) :
  three_slots (win σ) ->
  let w := win σ in
  let w' := win (run loadTests σ) in
  (forall f, openFile w = Some f -> shouldSaveTests w = true ->
   forall i, i < 3 ->
     (forall file,
        files (fs σ) !! in_name (testFile f) i = Some file ->
        readable file = true -> input w' !! i = Some (content file)) /\
     (forall file,
        files (fs σ) !! ans_name (testFile f) i = Some file ->
        readable file = true -> expected w' !! i = Some (content file)) /\
     (files (fs σ) !! in_name (testFile f) i = None \/
      (exists file, files (fs σ) !! in_name (testFile f) i = Some file /\
                    readable file = false) ->
      input w' !! i = input w !! i) /\
     (files (fs σ) !! ans_name (testFile f) i = None \/
      (exists file, files (fs σ) !! ans_name (testFile f) i = Some file /\
                    readable file = false) ->
      expected w' !! i = expected w !! i)) /\
  (openFile w = None \/ shouldSaveTests w = false -> w' = w) /\
  output w' = output w /\ verdict w' = verdict w /\
  fs (run loadTests σ) = fs σ.
Proof.
  intros H3. cbv zeta. split; [|split; [|split; [|split]]].
  - intros f Hf Hs i Hi.
    destruct (loadTests_slots σ f Hf Hs H3) as (Hslots & _).
    destruct (Hslots i Hi) as [Hin Hans]. cbv zeta in Hin, Hans.
    destruct H3 as (Li & _ & _ & Le).
    repeat split.
    + intros file Hp Hr. by rewrite Hin, (readable_text_Some _ _ _ Hp Hr).
    + intros file Hp Hr. by rewrite Hans, (readable_text_Some _ _ _ Hp Hr).
    + intros Hp. rewrite Hin, (readable_text_None _ _ Hp). cbn [default].
      symmetry. apply slot_lookup. lia.
    + intros Hp. rewrite Hans, (readable_text_None _ _ Hp). cbn [default].
      symmetry. apply slot_lookup. lia.
  - intros H. by rewrite loadTests_disabled.
  - destruct (openFile (win σ)) as [f|] eqn:Hf;
      [destruct (shouldSaveTests (win σ)) eqn:Hs|].
    + by destruct (loadTests_slots σ f Hf Hs H3) as (_ & -> & _).
    + rewrite loadTests_disabled; auto.
    + rewrite loadTests_disabled; auto.
  - destruct (openFile (win σ)) as [f|] eqn:Hf;
      [destruct (shouldSaveTests (win σ)) eqn:Hs|].
    + by destruct (loadTests_slots σ f Hf Hs H3) as (_ & _ & -> & _).
    + rewrite loadTests_disabled; auto.
    + rewrite loadTests_disabled; auto.
  - apply loadTests_fs.
Qed.

(** The theorem on a window with two tests saved, loaded into a window
    whose slots are empty. *)
Lemma C3_loadTests_witness :
  let σ := run (modify_win (set_input [[]; []; []]))
             (run saveTests fresh_world) in
  three_slots (win σ) /\
  input (win (run loadTests σ)) !! 1 = Some (qs " 7") /\
  input (win (run loadTests σ)) !! 2 = Some [].
Proof.
  cbv zeta.
  set (σ := run (modify_win (set_input [[]; []; []]))
              (run saveTests fresh_world)).
  assert (H3 : three_slots (win σ)) by (repeat split; reflexivity).
  split; [exact H3|].
  destruct (C3_loadTests σ H3) as (H & _).
  specialize (H sol_cpp eq_refl eq_refl).
  split.
  - destruct (H 1) as (Hin & _); [lia|].
    apply (Hin (plain (qs " 7"))); reflexivity.
  - destruct (H 2) as (_ & _ & Hin & _); [lia|].
    rewrite Hin; [reflexivity|]. left. reflexivity.
Defined.

(** C2, at a failing input: the expected output of slot 0 is the text
    [ab], a NUL character, [cd]; it is not blank, and [saveTests] writes
    the file [sol1.ans] with the text [ab] only, not with the raw text
    of the slot. *)
Theorem C2_saveTests_truncates_at_NUL :
  let σ := nul_world in
  let raw := slot (expected (win σ)) 0 in
  openFile (win σ) = Some sol_cpp /\
  shouldSaveTests (win σ) = true /\
  raw = qs "ab" ++ [NUL] ++ qs "cd" /\
  isEmpty (trimmed raw) = false /\
  ans_name (testFile sol_cpp) 0 = qs "/home/u/sol1.ans" /\
  files (fs (run saveTests σ)) !! qs "/home/u/sol1.ans" =
    Some (plain (qs "ab")) /\
  qs "ab" <> raw.
Proof. cbv zeta. repeat split; try reflexivity. discriminate. Qed.

(** C4 fails as stated: on a window whose first input has an embedded
    NUL, whose second input has a read-only file of an earlier text and
    whose third input is empty with a file left by an earlier save,
    [saveTests] followed by [loadTests] changes all three inputs, the
    empty one included. *)
Lemma C4_counterexample :
  let σ := stale_world in
  let σ' := run loadTests (run saveTests σ) in
  openFile (win σ) = Some sol_cpp /\ shouldSaveTests (win σ) = true /\
  (isEmpty (trimmed (slot (input (win σ)) 2)) = true /\
   input (win σ') !! 2 <> input (win σ) !! 2) /\
  (isEmpty (trimmed (slot (input (win σ)) 1)) = false /\
   input (win σ') !! 1 <> input (win σ) !! 1) /\
  (isEmpty (trimmed (slot (input (win σ)) 0)) = false /\
   input (win σ') !! 0 <> input (win σ) !! 0) /\
  ~ round_trip_as_worded σ sol_cpp.
Proof.
  cbv zeta.
  assert (H2 : input (win (run loadTests (run saveTests stale_world))) !! 2
               <> input (win stale_world) !! 2)
    by (vm_compute; discriminate).
  repeat split; try reflexivity; try (vm_compute; discriminate).
  intros Hclaim. destruct (Hclaim 2) as (_ & H); [lia|].
  destruct H as (_ & _ & H); [reflexivity|]. by apply H2.
Qed.

(** C4, amended: with a backing file and the save-tests flag,
    [saveTests] followed by [loadTests] leaves each slot field that was
    not empty after trimming, has no NUL character and no carriage
    return, and whose file could be opened for writing equal to its
    original contents; [saveTests]
    modifies no slot and writes no file for a field that was empty after
    trimming; and [loadTests] leaves such a field as it was when its
    file is missing or unreadable, and replaces it by the contents of
    the file otherwise. *)
Theorem C4_save_then_load (σ : World) (f : QFile) :
  openFile (win σ) = Some f -> shouldSaveTests (win σ) = true ->
  three_slots (win σ) ->
  let w := win σ in
  let base := testFile f in
  let σ1 := run saveTests σ in
  let σ2 := run loadTests σ1 in
  win σ1 = w /\
  forall i, i < 3 ->
    (isEmpty (trimmed (slot (input w) i)) = false ->
     NUL ∉ slot (input w) i -> CR ∉ slot (input w) i ->
     can_write (fs σ) (in_name base i) = true ->
     input (win σ2) !! i = input w !! i) /\
    (isEmpty (trimmed (slot (expected w) i)) = false ->
     NUL ∉ slot (expected w) i -> CR ∉ slot (expected w) i ->
     can_write (fs σ) (ans_name base i) = true ->
     expected (win σ2) !! i = expected w !! i) /\
    (isEmpty (trimmed (slot (input w) i)) = true ->
     files (fs σ1) !! in_name base i = files (fs σ) !! in_name base i /\
     (readable_text (fs σ) (in_name base i) = None ->
      input (win σ2) !! i = input w !! i) /\
     (forall c, readable_text (fs σ) (in_name base i) = Some c ->
      input (win σ2) !! i = Some c)) /\
    (isEmpty (trimmed (slot (expected w) i)) = true ->
     files (fs σ1) !! ans_name base i = files (fs σ) !! ans_name base i /\
     (readable_text (fs σ) (ans_name base i) = None ->
      expected (win σ2) !! i = expected w !! i) /\
     (forall c, readable_text (fs σ) (ans_name base i) = Some c ->
      expected (win σ2) !! i = Some c)).
Proof.
  intros Hf Hs H3. cbv zeta.
  destruct (saveTests_files σ f Hf Hs) as (W1 & L1 & F1 & _).
  cbv zeta in *. split; [done|]. intros i Hi.
  destruct (F1 i Hi) as [Fin Fans].
  destruct (loadTests_slots (run saveTests σ) f) as (Hslots & _);
    [by rewrite W1 .. |].
  destruct (Hslots i Hi) as [Lin Lans]. cbv zeta in Lin, Lans.
  rewrite W1 in Lin, Lans. rewrite Lin, Lans.
  destruct H3 as (Li & _ & _ & Le).
  rewrite (slot_lookup (input (win σ)) i), (slot_lookup (expected (win σ)) i)
    by lia.
  unfold readable_text. rewrite Fin, Fans.
  split; [|split; [|split]].
  - intros Hb Hn _ Hw. rewrite can_write_spec in Hw. f_equal.
    destruct (reload_saved _ _ _ Hb Hw) as [->| ->];
      [by apply c_str_id|done].
  - intros Hb Hn _ Hw. rewrite can_write_spec in Hw. f_equal.
    destruct (reload_saved _ _ _ Hb Hw) as [->| ->];
      [by apply c_str_id|done].
  - intros Hb. unfold saved_file. rewrite Hb.
    split; [done|]. split; [by intros -> | by intros c ->].
  - intros Hb. unfold saved_file. rewrite Hb.
    split; [done|]. split; [by intros -> | by intros c ->].
Qed.

(** The theorem on a fresh window with two tests. *)
Lemma C4_save_then_load_witness :
  let σ := fresh_world in
  openFile (win σ) = Some sol_cpp /\ shouldSaveTests (win σ) = true /\
  three_slots (win σ) /\
  input (win (run loadTests (run saveTests σ))) !! 0 = input (win σ) !! 0.
Proof.
  cbv zeta.
  assert (H3 : three_slots (win fresh_world)) by (repeat split; reflexivity).
  split; [reflexivity|]. split; [reflexivity|]. split; [exact H3|].
  destruct (C4_save_then_load fresh_world sol_cpp eq_refl eq_refl H3)
    as (_ & H).
  destruct (H 0) as (Hin & _); [lia|].
  apply Hin; [reflexivity| | |reflexivity];
    apply (bool_decide_unpack _); vm_compute; exact I.
Defined.

End PersistenceClaims.

Section DirtyStateClaims.

Import Scenarios.

Lemma eqb_neq (s t : QString) : negb (eqb s t) = true <-> s <> t.
Proof.
  rewrite eqb_spec, negb_true_iff, bool_decide_eq_false. done.
Qed.

Lemma isEmpty_nil (s : QString) : isEmpty s = true <-> s = [].
Proof. by destruct s. Qed.

(** C6 fails as stated: without a backing file and with a template that
    exists but cannot be read, [isTextChanged] answers true on a buffer
    equal to the contents of the template. *)
Lemma C6_counterexample :
  let σ := template_world in
  openFile (win σ) = None /\ templatePath (win σ) <> [] /\
  files (fs σ) !! templatePath (win σ) =
    Some {| content := editor (win σ); readable := false;
            writable := false |} /\
  result isTextChanged σ = true /\
  ~ template_case_as_worded σ.
Proof.
  cbv zeta. repeat split; try reflexivity; try discriminate.
  intros Hclaim.
  assert (Hne : templatePath (win template_world) <> []) by discriminate.
  destruct (Hclaim eq_refl Hne _ eq_refl) as [Hdiffers _].
  by apply Hdiffers.
Qed.

(** C6, amended: [isTextChanged] returns: without a backing file and
    with a template path whose file exists and is readable, whether the
    editor text differs from the contents of the template; without a
    backing file and with no template path, or a template file that is
    missing or cannot be read, whether the buffer is not empty; with a
    backing file that is open, whether the editor text differs from the
    contents of the file on disk, read from its start whatever the
    position of the handle; with a backing file that is not open,
    true. *)
Theorem C6_isTextChanged (σ : World) :
  let w := win σ in
  let changed := result isTextChanged σ in
  (openFile w = None -> templatePath w <> [] ->
   forall file, files (fs σ) !! templatePath w = Some file ->
   readable file = true ->
   (changed = true <-> editor w <> content file)) /\
  (openFile w = None ->
   templatePath w = [] \/ files (fs σ) !! templatePath w = None \/
   (exists file, files (fs σ) !! templatePath w = Some file /\
                 readable file = false) ->
   (changed = true <-> editor w <> [])) /\
  (forall f file, openFile w = Some f -> QFile_isOpen f = true ->
   files (fs σ) !! QFile_fileName f = Some file ->
   (changed = true <-> content file <> editor w)) /\
  (forall f, openFile w = Some f -> QFile_isOpen f = false ->
   changed = true).
Proof.
  cbv zeta. split; [|split; [|split]].
  - intros Hf Htp file Ht Hr. rewrite isTextChanged_unsaved by done.
    unfold fs_exists. rewrite Ht, bool_decide_eq_true_2 by eauto.
    replace (size (templatePath (win σ)) =? 0) with false
      by (destruct (templatePath (win σ)); done).
    cbn [negb andb]. rewrite (readable_text_Some _ _ _ Ht Hr).
    apply eqb_neq.
  - intros Hf Hcase. rewrite isTextChanged_unsaved by done.
    assert (Hemp : negb (isEmpty (editor (win σ))) = true <->
                   editor (win σ) <> []).
    { rewrite negb_true_iff, <- not_true_iff_false, isEmpty_nil. done. }
    destruct Hcase as [Ht|[Ht|(file & Ht & Hr)]].
    + by rewrite Ht.
    + unfold fs_exists. rewrite Ht.
      rewrite bool_decide_eq_false_2 by (intros [? ?]; done).
      by rewrite andb_false_r.
    + rewrite (readable_text_None (fs σ) (templatePath (win σ))) by eauto.
      destruct (_ && _); cbn [default]; [apply eqb_neq|done].
  - intros f file Hf Ho Hfile. rewrite (isTextChanged_saved σ f) by done.
    rewrite Ho. unfold fs_read. rewrite Hfile. apply eqb_neq.
  - intros f Hf Ho. rewrite (isTextChanged_saved σ f) by done.
    by rewrite Ho.
Qed.

(** The theorem on a template that cannot be read, and on a backing
    handle that is not open. *)
Lemma C6_isTextChanged_witness :
  (result isTextChanged template_world = true <->
   editor (win template_world) <> []) /\
  result isTextChanged
    (run (saveFile true (qs "Save") (qs "/ro/sol.cpp")) locked_world) = true.
Proof.
  split.
  - destruct (C6_isTextChanged template_world) as (_ & H & _).
    apply H; [reflexivity|]. right. right.
    exists {| content := qs "x"; readable := false; writable := false |}.
    split; reflexivity.
  - destruct (C6_isTextChanged
                (run (saveFile true (qs "Save") (qs "/ro/sol.cpp"))
                   locked_world)) as (_ & _ & _ & H).
    apply (H {| QFile_fileName := qs "/ro/sol.cpp"; QFile_isOpen := false;
                QFile_pos := 0 |}); reflexivity.
Defined.

Lemma fileName_isTextChanged (σ : World) :
  fileName (win (run isTextChanged σ)) = fileName (win σ).
Proof.
  destruct (isTextChanged_frame σ)
    as (_ & _ & _ & _ & _ & _ & _ & _ & _ & _ & Hn & Ho).
  cbv zeta in Hn, Ho. unfold fileName.
  destruct (openFile (win (run isTextChanged σ))) as [f'|],
    (openFile (win σ)) as [f|]; try done.
  cbn [fmap option_fmap option_map] in Hn, Ho.
  injection Hn as Hn. injection Ho as Ho. by rewrite Hn, Ho.
Qed.

(** [closeChangedConfirm], path by path: it returns true and shows no
    dialog when [isTextChanged] is false; when it is true the method
    shows a warning box with the buttons Save, Discard and Cancel, and
    returns true on Discard, writing nothing, false on Cancel, and on
    Save whatever [saveFile] returns. *)
Lemma closeChangedConfirm_paths (σ : World) (answer : StandardButton)
    (chosen : QString) :
  let m := closeChangedConfirm answer chosen in
  let prompt :=
    WarningBox (qs "Save?")
      (fileName (win σ) ++ qs " has been modified." ++ [LF] ++
       qs "Do you want to save your changes?")
      [Save; Discard; Cancel] Cancel in
  (result isTextChanged σ = false ->
   result m σ = true /\ dialogs (run m σ) = dialogs σ /\
   fs (run m σ) = fs σ) /\
  (result isTextChanged σ = true ->
   let σp := run (show prompt) (run isTextChanged σ) in
   dialogs σp = dialogs σ ++ [prompt] /\ fs σp = fs σ /\
   match answer with
   | Save =>
       result m σ = result (saveFile true (qs "Save") chosen) σp /\
       run m σ = run (saveFile true (qs "Save") chosen) σp
   | Discard => result m σ = true /\ run m σ = σp
   | Cancel => result m σ = false /\ run m σ = σp
   end).
Proof.
  cbv zeta. unfold closeChangedConfirm.
  rewrite result_bind, run_bind.
  destruct (isTextChanged_frame σ) as (Hfs & Hdl & _). cbv zeta in Hfs, Hdl.
  split; intros Hc; rewrite Hc; cbn [negb].
  - by rewrite run_ret.
  - rewrite result_bind, run_bind. cbn [run result get_win fst snd].
    rewrite result_bind, run_bind, fileName_isTextChanged.
    split; [by cbn; rewrite Hdl|]. split; [by cbn|].
    by destruct answer.
Qed.

(** C7, at a failing input: the buffer is unsaved and changed, the
    user answers Save in the warning box and then chooses a file that
    cannot be created.  The save fails: [saveFile] logs that it cannot
    save, no file is written, and the buffer is still changed
    afterwards.  [closeChangedConfirm] returns true all the same, so
    the failure of the save does not keep the window from closing. *)
Theorem C7_closeChangedConfirm_true_yet_unsaved :
  let σ := locked_world in
  let m := closeChangedConfirm Save (qs "/ro/sol.cpp") in
  openFile (win σ) = None /\
  result isTextChanged σ = true /\
  dialogs (run m σ) =
    [WarningBox (qs "Save?")
       (qs "Unsaved file has been modified." ++ [LF] ++
        qs "Do you want to save your changes?")
       [Save; Discard; Cancel] Cancel;
     SaveFileDialog (qs "Save File")] /\
  logger (run m σ) =
    [{| severity := Error; category := qs "Save";
        message := qs "Cannot Save file. Do I have write permission?" |}] /\
  fs (run m σ) = fs σ /\
  files (fs (run m σ)) !! qs "/ro/sol.cpp" = None /\
  editor (win (run m σ)) = editor (win σ) /\
  result isTextChanged (run m σ) = true /\
  result m σ = true.
Proof. cbv zeta. repeat split; reflexivity. Qed.

(** C8, at a failing input: the buffer is unsaved and the user chooses a
    file that cannot be created.  [saveFile] logs that it cannot save
    and returns true all the same, leaving a handle that is not open;
    with the buffer untouched, [isTextChanged] then returns true. *)
Theorem C8_saveFile_true_yet_changed :
  let σ := locked_world in
  let m := saveFile true (qs "Save") (qs "/ro/sol.cpp") in
  result m σ = true /\
  editor (win (run m σ)) = editor (win σ) /\
  logger (run m σ) =
    [{| severity := Error; category := qs "Save";
        message := qs "Cannot Save file. Do I have write permission?" |}] /\
  openFile (win (run m σ)) =
    Some {| QFile_fileName := qs "/ro/sol.cpp"; QFile_isOpen := false;
            QFile_pos := 0 |} /\
  result isTextChanged (run m σ) = true.
Proof. cbv zeta. repeat split; reflexivity. Qed.

End DirtyStateClaims.

Section SlotClaims.

(** C10: [clearTests] clears the actual output of every slot and resets
    every verdict to Unknown; with [outputOnly] it leaves every input
    and expected output as they were, and without it it clears them
    too.  The editor, the backing file and the file system are not
    touched.  ([on_run_clicked] and [on_runOnly_clicked] call
    [clearTests (true)].) *)
Theorem C10_clearTests (σ : World) (outputOnly : bool) :
  three_slots (win σ) ->
  let w := win σ in
  let w' := win (run (clearTests outputOnly) σ) in
  output w' = replicate 3 [] /\
  verdict w' = replicate 3 (label_of UNKNOWN) /\
  (outputOnly = true -> input w' = input w /\ expected w' = expected w) /\
  (outputOnly = false ->
   input w' = replicate 3 [] /\ expected w' = replicate 3 []) /\
  editor w' = editor w /\ openFile w' = openFile w /\
  fs (run (clearTests outputOnly) σ) = fs σ.
Proof.
  intros (Hi & Ho & Hv & He). destruct σ as [w fs0 lg dl].
  destruct w as [ed inp outp ver exp opf tp sst]. cbn in Hi, Ho, Hv, He.
  apply length_three in Hi as (? & ? & ? & ->).
  apply length_three in Ho as (? & ? & ? & ->).
  apply length_three in Hv as (? & ? & ? & ->).
  apply length_three in He as (? & ? & ? & ->).
  destruct outputOnly; cbv; repeat split; intros; done.
Qed.

(** The theorem on a window with two tests. *)
Lemma C10_clearTests_witness :
  three_slots (win Scenarios.fresh_world) /\
  input (win (run (clearTests true) Scenarios.fresh_world)) =
    input (win Scenarios.fresh_world) /\
  input (win (run (clearTests false) Scenarios.fresh_world)) =
    replicate 3 [].
Proof.
  assert (H3 : three_slots (win Scenarios.fresh_world))
    by (repeat split; reflexivity).
  split; [exact H3|]. split.
  - destruct (C10_clearTests Scenarios.fresh_world true H3)
      as (_ & _ & H & _).
    by destruct H.
  - destruct (C10_clearTests Scenarios.fresh_world false H3)
      as (_ & _ & _ & H & _).
    by destruct H.
Defined.

(** C5: for a slot index [id] below 3, [executionFinished id msec
    Stdout] sets the actual output of slot [id] to [Stdout] and leaves
    the other outputs, the verdicts of the other slots, and all inputs
    and expected outputs as they were; when [Stdout] or the expected
    output of the slot is empty the verdicts are left as they were;
    otherwise the verdict of the slot shows Accepted when [isVerdictPass
    Stdout expected] holds and WrongAnswer when it does not.  Calls for
    different slots commute, so the order of the calls of a run does not
    matter. *)
Theorem C5_executionFinished (σ : World) (id : nat) (msec : Z)
    (Stdout : QString) :
  three_slots (win σ) -> id < 3 ->
  let w := win σ in
  let w' := win (run (executionFinished id msec Stdout) σ) in
  output w' !! id = Some Stdout /\
  (forall j, j <> id -> output w' !! j = output w !! j) /\
  (forall j, j <> id -> verdict w' !! j = verdict w !! j) /\
  input w' = input w /\ expected w' = expected w /\
  (Stdout = [] \/ slot (expected w) id = [] -> verdict w' = verdict w) /\
  (Stdout <> [] -> slot (expected w) id <> [] ->
   verdict w' !! id =
   Some (label_of (if isVerdictPass Stdout (slot (expected w) id)
                   then ACCEPTED else WRONG_ANSWER))) /\
  (forall id2 msec2 Stdout2, id2 <> id ->
   win (run (executionFinished id msec Stdout;;
             executionFinished id2 msec2 Stdout2) σ) =
   win (run (executionFinished id2 msec2 Stdout2;;
             executionFinished id msec Stdout) σ)).
Proof.
  intros (_ & Ho & Hv & _) Hid. cbv zeta.
  destruct (executionFinished_fields σ id msec Stdout)
    as (_ & HI & HO & HV & HX & _).
  rewrite HI, HO, HV, HX.
  repeat split.
  - apply list_lookup_insert_eq; lia.
  - intros j Hj. by apply list_lookup_insert_ne.
  - intros j Hj.
    destruct (isEmpty Stdout || isEmpty (slot (expected (win σ)) id));
      [done|]. by rewrite !list_lookup_alter_ne.
  - intros [-> | ->]; [done|]. by rewrite orb_true_r.
  - intros Hs He.
    replace (isEmpty Stdout || isEmpty (slot (expected (win σ)) id))
      with false
      by (destruct Stdout, (slot (expected (win σ)) id); done).
    apply alter_label. lia.
  - intros. by apply executionFinished_commute.
Qed.

(** The theorem on the end-to-end scenario of the specification: slot
    0 expects [42] and a newline, and the run prints [42]. *)
Lemma C5_executionFinished_witness :
  let σ := run (modify_win (set_expected [qs "42" ++ [LF]; []; []]))
             Scenarios.fresh_world in
  three_slots (win σ) /\ 0 < 3 /\
  verdict (win (run (executionFinished 0 15 (qs "42")) σ)) !! 0 =
    Some (label_of ACCEPTED).
Proof.
  cbv zeta.
  set (σ := run (modify_win (set_expected [qs "42" ++ [LF]; []; []]))
              Scenarios.fresh_world).
  assert (H3 : three_slots (win σ)) by (repeat split; reflexivity).
  split; [exact H3|]. split; [lia|].
  destruct (C5_executionFinished σ 0 15 (qs "42") H3)
    as (_ & _ & _ & _ & _ & _ & H & _); [lia|].
  apply H; discriminate.
Defined.

End SlotClaims.

Section ComparatorClaims.

(** C1: [isVerdictPass actual expected] returns true if and only if the
    reference comparison of the specification accepts: carriage returns
    stripped from both texts, both split into lines on newline, the two
    line sequences walked in lock-step up to the longer length, a line
    present in only one sequence matching only if it is empty after
    trimming, and lines present in both split into tokens on the single
    space and walked by the same rule, tokens present in both having to
    be equal. *)
Theorem C1_isVerdictPass_iff_reference (actual expected : QString) :
  isVerdictPass actual expected = true <-> accepts actual expected = true.
Proof. by rewrite isVerdictPass_accepts. Qed.

(** C9: for every text [T], [isVerdictPass T T] returns true. *)
Theorem C9_isVerdictPass_refl (T : QString) : isVerdictPass T T = true.
Proof. rewrite isVerdictPass_accepts. apply accepts_refl. Qed.

End ComparatorClaims.

(** * Further properties *)

Section ComparatorLaws.

Lemma forallb_pointwise {A} (f g : A -> bool) (l : list A) :
  (forall x, f x = g x) -> forallb f l = forallb g l.
Proof. intros H. induction l as [|x l IH]; [done|]. cbn. by rewrite H, IH. Qed.

Lemma lockstep_sym (both : QString -> QString -> bool) (xs ys : list QString) :
  (forall x y, both x y = both y x) ->
  lockstep both xs ys = lockstep both ys xs.
Proof.
  intros Hsym. unfold lockstep. rewrite Nat.max_comm.
  apply forallb_pointwise. intros i. unfold step.
  destruct (xs !! i), (ys !! i); auto.
Qed.

Lemma lines_match_sym (la lb : QString) : lines_match la lb = lines_match lb la.
Proof.
  apply lockstep_sym. intros x y. unfold same_token.
  apply bool_decide_ext. naive_solver.
Qed.

Lemma accepts_sym (a b : QString) : accepts a b = accepts b a.
Proof. apply lockstep_sym, lines_match_sym. Qed.

(** The walk, element by element. *)
Lemma forallb_seq_S (f : nat -> bool) (j n : nat) :
  forallb f (seq (S j) n) = forallb (fun i => f (S i)) (seq j n).
Proof.
  revert j. induction n as [|n IH]; intros j; [done|].
  cbn [seq forallb]. by rewrite IH.
Qed.

Lemma lockstep_cons (both : QString -> QString -> bool) (x y : QString)
    (xs ys : list QString) :
  lockstep both (x :: xs) (y :: ys) = both x y && lockstep both xs ys.
Proof.
  unfold lockstep. cbn [length]. rewrite <- Nat.succ_max_distr.
  cbn [seq forallb]. by rewrite forallb_seq_S.
Qed.

Lemma lockstep_nil_l (both : QString -> QString -> bool) (ys : list QString) :
  lockstep both [] ys = forallb blank ys.
Proof.
  unfold lockstep. cbn [length Nat.max].
  induction ys as [|y ys IH]; [done|].
  cbn [length seq forallb]. rewrite forallb_seq_S.
  cbn [step lookup]. by rewrite <- IH.
Qed.

Lemma lockstep_nil_r (both : QString -> QString -> bool) (xs : list QString) :
  lockstep both xs [] = forallb blank xs.
Proof.
  unfold lockstep. rewrite Nat.max_0_r.
  induction xs as [|x xs IH]; [done|].
  cbn [length seq forallb]. rewrite forallb_seq_S.
  cbn [step lookup]. rewrite <- IH. apply (f_equal (andb (blank x))).
  apply forallb_pointwise. intros i. unfold step. cbn.
  by destruct (xs !! i).
Qed.


(** *** [split] *)

Lemma split_nonempty (sep : QChar) (s : QString) :
  exists w ws, split sep s = w :: ws.
Proof.
  induction s as [|c s (w & ws & IH)]; cbn [split]; [eauto|].
  destruct (Ascii.eqb c sep); [eauto|]. rewrite IH. eauto.
Qed.

Lemma split_cons_sep (sep : QChar) (s : QString) :
  split sep (sep :: s) = [] :: split sep s.
Proof. cbn [split]. by rewrite Ascii.eqb_refl. Qed.

Lemma split_cons_other (sep c : QChar) (s w : QString) (ws : list QString) :
  c <> sep -> split sep s = w :: ws ->
  split sep (c :: s) = (c :: w) :: ws.
Proof.
  intros Hc Hs. cbn [split]. rewrite Hs.
  by destruct (Ascii.eqb_spec c sep).
Qed.

(** A text without the separator is one part. *)
Lemma split_nosep (sep : QChar) (s : QString) :
  sep ∉ s -> split sep s = [s].
Proof.
  induction s as [|c s IH]; [done|]. intros H.
  apply not_elem_of_cons in H as [Hc Hs].
  rewrite (split_cons_other sep c s s []); auto.
Qed.

(** Text appended to the last part. *)
Lemma split_app_nosep (sep : QChar) (s t : QString) :
  sep ∉ t ->
  exists ws w, split sep s = ws ++ [w] /\ split sep (s ++ t) = ws ++ [w ++ t].
Proof.
  intros Ht. induction s as [|c s (ws & w & IH1 & IH2)].
  - exists [], []. split; [done|]. cbn [app]. by apply split_nosep.
  - destruct (Ascii.eqb_spec c sep) as [->|Hc].
    + exists ([] :: ws), w. cbn [app]. rewrite !split_cons_sep, IH1, IH2. done.
    + destruct ws as [|w0 ws].
      * exists [], (c :: w). cbn [app] in *.
        rewrite (split_cons_other sep c s w []),
          (split_cons_other sep c (s ++ t) (w ++ t) []); done.
      * exists ((c :: w0) :: ws), w. cbn [app] in *.
        rewrite (split_cons_other sep c s w0 (ws ++ [w])),
          (split_cons_other sep c (s ++ t) w0 (ws ++ [w ++ t])); done.
Qed.

(** The parts of a text cut at a separator. *)
Lemma split_app_sep (sep : QChar) (s t : QString) :
  split sep (s ++ sep :: t) = split sep s ++ split sep t.
Proof.
  induction s as [|c s IH].
  - cbn [app]. by rewrite split_cons_sep.
  - destruct (Ascii.eqb_spec c sep) as [->|Hc].
    + cbn [app]. by rewrite !split_cons_sep, IH.
    + destruct (split_nonempty sep s) as (w & ws & Hs).
      cbn [app].
      rewrite (split_cons_other sep c s w ws) by done.
      rewrite (split_cons_other sep c (s ++ sep :: t) w (ws ++ split sep t));
        [done|done|]. by rewrite IH, Hs.
Qed.

Lemma split_replicate_sep (sep : QChar) (s : QString) (n : nat) :
  split sep (s ++ replicate n sep) = split sep s ++ replicate n [].
Proof.
  revert s. induction n as [|n IH]; intros s.
  - cbn. by rewrite !app_nil_r.
  - cbn [replicate]. rewrite split_app_sep.
    pose proof (IH []) as H. cbn [app split] in H. by rewrite H.
Qed.


(** *** Walks of padded sequences *)

Lemma lockstep_app_same (both : QString -> QString -> bool)
    (l p q : list QString) :
  (forall x, x ∈ l -> both x x = true) ->
  lockstep both p q = true ->
  lockstep both (l ++ p) (l ++ q) = true.
Proof.
  intros Hrefl Hpq. induction l as [|x l IH]; [done|].
  cbn [app]. rewrite lockstep_cons, Hrefl by apply list_elem_of_here.
  apply IH. intros y Hy. apply Hrefl. by apply list_elem_of_further.
Qed.

Lemma blank_nil : blank [] = true.
Proof. done. Qed.

Lemma forallb_blank_replicate (n : nat) : forallb blank (replicate n []) = true.
Proof.
  induction n as [|n IH]; [done|]. cbn [replicate forallb]. by rewrite IH.
Qed.

Lemma lockstep_replicate (both : QString -> QString -> bool) (n m : nat) :
  both [] [] = true ->
  lockstep both (replicate n []) (replicate m []) = true.
Proof.
  intros Hb. revert m. induction n as [|n IH]; intros m.
  - cbn [replicate]. rewrite lockstep_nil_l. apply forallb_blank_replicate.
  - destruct m as [|m].
    + rewrite lockstep_nil_r. apply forallb_blank_replicate.
    + cbn [replicate]. by rewrite lockstep_cons, Hb, IH.
Qed.

Lemma same_token_refl (x : QString) : same_token x x = true.
Proof. by apply bool_decide_eq_true. Qed.

Lemma lines_match_refl (l : QString) : lines_match l l = true.
Proof. apply lockstep_diag. intros. apply same_token_refl. Qed.

(** A line against itself, each with spaces at its end. *)
Lemma lines_match_trailing_spaces (l : QString) (n m : nat) :
  lines_match (l ++ replicate n SP) (l ++ replicate m SP) = true.
Proof.
  unfold lines_match, tokens. rewrite !split_replicate_sep.
  apply lockstep_app_same; [intros; apply same_token_refl|].
  by apply lockstep_replicate.
Qed.

(** *** Carriage returns *)

Lemma strip_cr_app (s t : QString) :
  strip_cr (s ++ t) = strip_cr s ++ strip_cr t.
Proof. apply filter_app. Qed.

Lemma strip_cr_nocr (s : QString) : CR ∉ s -> strip_cr s = s.
Proof.
  induction s as [|c s IH]; [done|]. intros H.
  apply not_elem_of_cons in H as [Hc Hs]. unfold strip_cr in *.
  rewrite filter_cons_True by congruence. by rewrite IH.
Qed.

Lemma strip_cr_replicate (c : QChar) (n : nat) :
  c <> CR -> strip_cr (replicate n c) = replicate n c.
Proof.
  intros Hc. apply strip_cr_nocr. intros H.
  apply elem_of_replicate in H as [H _]. congruence.
Qed.

Lemma strip_cr_idemp (s : QString) : strip_cr (strip_cr s) = strip_cr s.
Proof.
  apply strip_cr_nocr. unfold strip_cr. intros H.
  apply list_elem_of_filter in H as [H _]. by apply H.
Qed.

(** *** The characters that are not white space *)

Lemma visible_cons (c : QChar) (s : QString) :
  visible (c :: s) = if isSpace c then visible s else c :: visible s.
Proof.
  unfold visible. destruct (isSpace c) eqn:Hc.
  - by rewrite filter_cons_False by (rewrite Hc; done).
  - by rewrite filter_cons_True.
Qed.

Lemma visible_app (s t : QString) : visible (s ++ t) = visible s ++ visible t.
Proof. apply filter_app. Qed.

Lemma visible_split (sep : QChar) (s : QString) :
  isSpace sep = true -> visible s = concat (map visible (split sep s)).
Proof.
  intros Hsep. induction s as [|c s IH]; [done|].
  destruct (Ascii.eqb_spec c sep) as [->|Hc].
  - rewrite split_cons_sep, visible_cons, Hsep. cbn. done.
  - destruct (split_nonempty sep s) as (w & ws & Hs).
    rewrite (split_cons_other sep c s w ws) by done.
    rewrite Hs in IH. cbn [map concat] in *.
    rewrite !visible_cons, IH. by destruct (isSpace c).
Qed.

Lemma skip_spaces_nil (s : QString) :
  skip_spaces s = [] -> visible s = [].
Proof.
  induction s as [|c s IH]; [done|]. cbn [skip_spaces].
  rewrite visible_cons. destruct (isSpace c); [done|discriminate].
Qed.

Lemma visible_skip_spaces (s : QString) : visible (skip_spaces s) = visible s.
Proof.
  induction s as [|c s IH]; [done|]. cbn [skip_spaces].
  destruct (isSpace c) eqn:Hc; [|done]. by rewrite visible_cons, Hc.
Qed.

Lemma visible_rev (s : QString) : visible (rev s) = rev (visible s).
Proof.
  induction s as [|c s IH]; [done|]. cbn [rev].
  rewrite visible_app, IH, (visible_cons c s), (visible_cons c []).
  destruct (isSpace c); [apply app_nil_r|done].
Qed.

Lemma visible_trimmed (s : QString) : visible (trimmed s) = visible s.
Proof.
  unfold trimmed.
  by rewrite visible_rev, visible_skip_spaces, visible_rev, rev_involutive,
    visible_skip_spaces.
Qed.

(** A blank text has no visible character. *)
Lemma blank_visible (s : QString) : blank s = true -> visible s = [].
Proof.
  unfold blank. intros H. rewrite <- visible_trimmed.
  by destruct (trimmed s).
Qed.

Lemma forallb_blank_visible (xs : list QString) :
  forallb blank xs = true -> concat (map visible xs) = [].
Proof.
  induction xs as [|x xs IH]; [done|]. cbn [forallb map concat].
  intros [Hx Hxs]%andb_true_iff. by rewrite (blank_visible x), IH.
Qed.

Lemma lockstep_visible (both : QString -> QString -> bool)
    (xs ys : list QString) :
  (forall x y, both x y = true -> visible x = visible y) ->
  lockstep both xs ys = true ->
  concat (map visible xs) = concat (map visible ys).
Proof.
  intros Hboth. revert ys. induction xs as [|x xs IH]; intros ys.
  - rewrite lockstep_nil_l. intros H. by rewrite (forallb_blank_visible ys).
  - destruct ys as [|y ys].
    + rewrite lockstep_nil_r. intros H.
      by rewrite (forallb_blank_visible (x :: xs)).
    + rewrite lockstep_cons. intros [Hxy Hrest]%andb_true_iff.
      cbn [map concat]. by rewrite (Hboth x y Hxy), (IH ys Hrest).
Qed.

Lemma lines_match_visible (la lb : QString) :
  lines_match la lb = true -> visible la = visible lb.
Proof.
  intros H. rewrite (visible_split SP la), (visible_split SP lb) by done.
  apply (lockstep_visible same_token); [|done].
  intros x y Hxy. by apply bool_decide_eq_true in Hxy as ->.
Qed.

Lemma visible_strip_cr (s : QString) : visible (strip_cr s) = visible s.
Proof.
  induction s as [|c s IH]; [done|]. unfold strip_cr in *.
  destruct (decide (c = CR)) as [->|Hc].
  - rewrite filter_cons_False by (intros H; by apply H).
    by rewrite IH, visible_cons.
  - rewrite filter_cons_True by done. by rewrite !visible_cons, IH.
Qed.

Lemma accepts_visible (a b : QString) :
  accepts a b = true -> visible a = visible b.
Proof.
  intros H. rewrite <- (visible_strip_cr a), <- (visible_strip_cr b).
  rewrite (visible_split LF (strip_cr a)), (visible_split LF (strip_cr b))
    by done.
  apply (lockstep_visible lines_match); [|done].
  apply lines_match_visible.
Qed.


(** X1: the comparison is symmetric: swapping the output of the program
    and the expected output never changes the verdict. *)
Theorem X1_isVerdictPass_sym (output expected : QString) :
  isVerdictPass output expected = isVerdictPass expected output.
Proof. rewrite !isVerdictPass_accepts. apply accepts_sym. Qed.

(** X2: carriage returns are invisible to the comparison, wherever they
    stand: removing all of them from both texts, or one of them from
    either text, never changes the verdict. *)
Theorem X2_isVerdictPass_ignores_CR (a b a1 a2 : QString) :
  isVerdictPass (remove CR a) (remove CR b) = isVerdictPass a b /\
  isVerdictPass (a1 ++ CR :: a2) b = isVerdictPass (a1 ++ a2) b /\
  isVerdictPass b (a1 ++ CR :: a2) = isVerdictPass b (a1 ++ a2).
Proof.
  rewrite !isVerdictPass_accepts, !remove_strip_cr. unfold accepts.
  rewrite !strip_cr_idemp, !strip_cr_app.
  replace (strip_cr (CR :: a2)) with (strip_cr a2); [done|].
  unfold strip_cr. by rewrite filter_cons_False by (intros H; by apply H).
Qed.

(** X3: newlines at the end of the text do not count: a text followed
    by any number of newlines passes against the same text followed by
    any other number of newlines. *)
Theorem X3_isVerdictPass_trailing_newlines (e : QString) (n m : nat) :
  isVerdictPass (e ++ replicate n LF) (e ++ replicate m LF) = true.
Proof.
  rewrite isVerdictPass_accepts. unfold accepts, lines.
  rewrite !strip_cr_app, !strip_cr_replicate by done.
  rewrite !split_replicate_sep.
  apply lockstep_app_same; [intros; apply lines_match_refl|].
  by apply lockstep_replicate.
Qed.

(** X4: spaces at the end of a line do not count: when [b] is what
    follows the end of a line (it is empty, or its first character other
    than a carriage return is a newline), a text with any number of
    spaces inserted before [b] passes against the text with any other
    number of spaces there. *)
Theorem X4_isVerdictPass_trailing_spaces (a b : QString) (n m : nat) :
  (forall c, head (remove CR b) = Some c -> c = LF) ->
  isVerdictPass (a ++ replicate n SP ++ b) (a ++ replicate m SP ++ b) = true.
Proof.
  intros Hb. rewrite isVerdictPass_accepts. unfold accepts, lines.
  rewrite remove_strip_cr in Hb.
  rewrite !strip_cr_app, !strip_cr_replicate by done.
  destruct (split_app_nosep LF (strip_cr a) (replicate n SP))
    as (ws & w & Hs & Hn).
  { intros H. by apply elem_of_replicate_inv in H. }
  destruct (split_app_nosep LF (strip_cr a) (replicate m SP))
    as (ws' & w' & Hs' & Hm).
  { intros H. by apply elem_of_replicate_inv in H. }
  rewrite Hs in Hs'. apply app_inj_tail in Hs' as [<- <-].
  destruct (strip_cr b) as [|c b'] eqn:Eb.
  - rewrite !app_nil_r, Hn, Hm.
    apply lockstep_app_same; [intros; apply lines_match_refl|].
    by rewrite lockstep_cons, lines_match_trailing_spaces.
  - rewrite (Hb c eq_refl). rewrite !app_assoc, !split_app_sep, Hn, Hm.
    rewrite <- !app_assoc.
    apply lockstep_app_same; [intros; apply lines_match_refl|].
    cbn [app]. rewrite lockstep_cons, lines_match_trailing_spaces.
    apply lockstep_diag. intros; apply lines_match_refl.
Qed.

Lemma X4_isVerdictPass_trailing_spaces_witness :
  isVerdictPass (qs "1 2" ++ replicate 2 SP ++ (LF :: qs "3"))
    (qs "1 2" ++ replicate 0 SP ++ (LF :: qs "3")) = true.
Proof.
  apply (X4_isVerdictPass_trailing_spaces (qs "1 2") (LF :: qs "3") 2 0).
  intros c [= <-]. reflexivity.
Defined.

(** X5: on tokens the comparison is exact: two texts without space,
    newline or carriage return pass exactly when they are equal. *)
Theorem X5_isVerdictPass_token_exact (a b : QString) :
  (forall c, c ∈ a ++ b -> c <> SP /\ c <> LF /\ c <> CR) ->
  (isVerdictPass a b = true <-> a = b).
Proof.
  intros H.
  assert (Ha : forall c, c ∈ a -> c <> SP /\ c <> LF /\ c <> CR)
    by (intros c Hc; apply H, elem_of_app; by left).
  assert (Hb : forall c, c ∈ b -> c <> SP /\ c <> LF /\ c <> CR)
    by (intros c Hc; apply H, elem_of_app; by right).
  rewrite isVerdictPass_accepts. unfold accepts, lines.
  rewrite !strip_cr_nocr by (intros Hc; first [apply Hb in Hc|apply Ha in Hc];
        by destruct Hc as (? & ? & ?)).
  rewrite !split_nosep by (intros Hc; first [apply Hb in Hc|apply Ha in Hc];
        by destruct Hc as (? & ? & ?)).
  rewrite lockstep_cons. unfold lines_match, tokens.
  rewrite !split_nosep by (intros Hc; first [apply Hb in Hc|apply Ha in Hc];
        by destruct Hc as (? & ? & ?)).
  rewrite lockstep_cons. unfold same_token.
  rewrite !andb_true_r. apply bool_decide_eq_true.
Qed.

Lemma X5_isVerdictPass_token_exact_witness :
  isVerdictPass (qs "42") (qs "42") = true <-> qs "42" = qs "42".
Proof.
  apply (X5_isVerdictPass_token_exact (qs "42") (qs "42")).
  intros c Hc. repeat (apply elem_of_cons in Hc as [->|Hc]; [done|]).
  by apply elem_of_nil in Hc.
Defined.

(** X6: the comparison never accepts two texts whose characters other
    than white space differ: when it passes, the two texts have the same
    sequence of visible characters. *)
Theorem X6_isVerdictPass_visible (output expected : QString) :
  isVerdictPass output expected = true -> visible output = visible expected.
Proof. rewrite isVerdictPass_accepts. apply accepts_visible. Qed.

Lemma X6_isVerdictPass_visible_witness :
  visible (qs "1 2 " ++ [CR; LF]) = visible (qs "1 2").
Proof.
  by apply (X6_isVerdictPass_visible (qs "1 2 " ++ [CR; LF]) (qs "1 2")).
Defined.

(** X7: the comparison is not transitive: an output ending in a line
    that holds a tab passes against the expected text without final
    newline, which passes against the expected text with a final
    newline, against which the output fails. *)
Theorem X7_isVerdictPass_not_transitive :
  ~ (forall a b c : QString,
       isVerdictPass a b = true -> isVerdictPass b c = true ->
       isVerdictPass a c = true).
Proof.
  intros H.
  specialize (H (qs "1" ++ [LF; "009"%char]) (qs "1") (qs "1" ++ [LF])
                eq_refl eq_refl).
  discriminate H.
Qed.

End ComparatorLaws.

Section Strictness.

(** The tokens of two tokens with a separator between them. *)
Lemma split_two (sep : QChar) (x s : QString) :
  sep ∉ x -> split sep (x ++ sep :: s) = x :: split sep s.
Proof. intros Hx. by rewrite split_app_sep, split_nosep. Qed.

Lemma accepts_one_line (a b : QString) :
  CR ∉ a -> LF ∉ a -> CR ∉ b -> LF ∉ b ->
  accepts a b = lines_match a b.
Proof.
  intros Ha1 Ha2 Hb1 Hb2. unfold accepts, lines.
  rewrite !strip_cr_nocr, !split_nosep by done.
  by rewrite lockstep_cons, andb_true_r.
Qed.

(** X8: where the comparison is strict.  For two tokens [x] and [y]
    that are not empty and hold no space, newline, carriage return or
    tab, the line [x y] does not pass against itself with the space
    doubled, with a space put in front, or with the space replaced by a
    tab. *)
Theorem X8_isVerdictPass_strict (x y : QString) :
  x <> [] -> y <> [] ->
  (forall c, c ∈ x ++ y ->
     c <> SP /\ c <> LF /\ c <> CR /\ c <> "009"%char) ->
  let expected := x ++ [SP] ++ y in
  isVerdictPass (x ++ [SP; SP] ++ y) expected = false /\
  isVerdictPass ([SP] ++ x ++ [SP] ++ y) expected = false /\
  isVerdictPass (x ++ ["009"%char] ++ y) expected = false.
Proof.
  intros Hx Hy H. cbv zeta.
  assert (Hc : forall c, c ∈ x \/ c ∈ y ->
            c <> SP /\ c <> LF /\ c <> CR /\ c <> "009"%char).
  { intros c Hc. apply H, elem_of_app. done. }
  assert (Hin : forall (c : QChar) (l : QString),
            (forall d, d ∈ l ->
               d = SP \/ d = "009"%char \/ d ∈ x \/ d ∈ y) ->
            c = LF \/ c = CR -> c ∉ l).
  { intros c l Hl Hcase Hcl. destruct (Hl c Hcl) as [->|[->|Hxy]].
    - by destruct Hcase.
    - by destruct Hcase.
    - destruct (Hc c Hxy) as (_ & ? & ? & _). by destruct Hcase. }
  assert (Hsx : SP ∉ x) by (intros Hs; by destruct (Hc SP (or_introl Hs))).
  assert (Hsy : SP ∉ y) by (intros Hs; by destruct (Hc SP (or_intror Hs))).
  rewrite !isVerdictPass_accepts.
  rewrite !accepts_one_line;
    try (apply Hin; [|auto];
         intros d Hd; rewrite ?elem_of_app, ?elem_of_cons, ?elem_of_nil in Hd;
         tauto).
  unfold lines_match, tokens. cbn [app].
  rewrite !split_two by done. rewrite !split_cons_sep.
  rewrite (split_nosep SP y) by done.
  rewrite (split_nosep SP (x ++ "009"%char :: y)).
  2: { intros Hs. apply elem_of_app in Hs as [?|Hs]; [done|].
       apply elem_of_cons in Hs as [?|?]; done. }
  rewrite !lockstep_cons. unfold same_token.
  rewrite (bool_decide_eq_true_2 (x = x)) by done.
  rewrite (bool_decide_eq_false_2 ([] = y)) by (by destruct y).
  rewrite (bool_decide_eq_false_2 ([] = x)) by (by destruct x).
  rewrite (bool_decide_eq_false_2 (x ++ "009"%char :: y = x)).
  2: { intros Heq. apply (f_equal length) in Heq.
       rewrite length_app in Heq. cbn in Heq. lia. }
  done.
Qed.

(** The theorem on the tokens [1] and [2]. *)
Lemma X8_isVerdictPass_strict_witness :
  isVerdictPass (qs "1  2") (qs "1 2") = false /\
  isVerdictPass (qs " 1 2") (qs "1 2") = false /\
  isVerdictPass (qs "1" ++ ["009"%char] ++ qs "2") (qs "1 2") = false.
Proof.
  apply (X8_isVerdictPass_strict (qs "1") (qs "2")); [done|done|].
  intros c Hc. repeat (apply elem_of_cons in Hc as [->|Hc]; [done|]).
  by apply elem_of_nil in Hc.
Defined.

End Strictness.

Section Invariants.

Context {I : World -> Prop}.

Lemma keeps_ret {A} (x : A) (φ : A -> Prop) : φ x -> keeps I (mret x) φ.
Proof. intros Hx σ Hσ. by split. Qed.

Lemma keeps_bind {A B} (m : M A) (k : A -> M B) (φ : A -> Prop)
    (ψ : B -> Prop) :
  keeps I m φ -> (forall x, φ x -> keeps I (k x) ψ) -> keeps I (m ≫= k) ψ.
Proof.
  intros Hm Hk σ Hσ. rewrite run_bind, result_bind.
  destruct (Hm σ Hσ) as [H1 H2]. by apply Hk.
Qed.

Lemma keeps_weaken {A} (m : M A) (φ ψ : A -> Prop) :
  keeps I m φ -> (forall x, φ x -> ψ x) -> keeps I m ψ.
Proof. intros Hm Himp σ Hσ. destruct (Hm σ Hσ). auto. Qed.

Lemma keeps_for (l : list nat) (body : nat -> M unit) :
  (forall i, i ∈ l -> keeps I (body i) (fun _ => True)) ->
  keeps I (for_ l body) (fun _ => True).
Proof.
  induction l as [|i l IH]; intros Hbody; cbn [for_].
  - by apply keeps_ret.
  - eapply keeps_bind; [apply Hbody, list_elem_of_here|].
    intros _ _. apply IH. intros j Hj. by apply Hbody, list_elem_of_further.
Qed.

End Invariants.

Section SavedFrame.

Variables (p : QString) (σ0 : World).

Lemma same_but_openFile_refl (w : MainWindow) : same_but_openFile w w.
Proof. by repeat split. Qed.

(** A step that leaves the window and the file system alone. *)
Lemma saved_frame_pure {A} (m : M A) (φ : A -> Prop) :
  (forall σ, win (run m σ) = win σ /\ fs (run m σ) = fs σ) ->
  (forall σ, φ (result m σ)) ->
  keeps (saved_frame p σ0) m φ.
Proof.
  intros Hm Hφ σ Hσ. split; [|done].
  destruct (Hm σ) as [Hw Hf]. unfold saved_frame. by rewrite Hw, Hf.
Qed.

(** A step that puts a handle on [p] in the window, or none. *)
Lemma saved_frame_set_openFile (o : option QFile) :
  (forall f, o = Some f -> QFile_fileName f = p) ->
  keeps (saved_frame p σ0) (modify_win (set_openFile o)) (fun _ => True).
Proof.
  intros Ho σ (Hw & Hl & Hn & Hq). split; [|done].
  split; [|split; [|split]]; done.
Qed.

(** A step that changes the file at [p] at most. *)
Lemma saved_frame_fs {A} (m : M A) (φ : A -> Prop) :
  (forall σ, win (run m σ) = win σ /\
             locked (fs (run m σ)) = locked (fs σ) /\
             (forall q, q <> p ->
                files (fs (run m σ)) !! q = files (fs σ) !! q) /\
             φ (result m σ)) ->
  keeps (saved_frame p σ0) m φ.
Proof.
  intros Hm σ (Hw & Hl & Hn & Hq).
  destruct (Hm σ) as (Hw' & Hl' & Hq' & Hφ). split; [|done].
  unfold saved_frame. rewrite Hw', Hl'. repeat split; try done.
  - apply Hw. - apply Hw. - apply Hw. - apply Hw. - apply Hw. - apply Hw.
  - apply Hw.
  - intros q Hs. rewrite Hq'; [by apply Hq|].
    intros ->. apply Hs. by left.
Qed.

Lemma fs_open_frame (mode : OpenMode) (name : QString) (fs0 : FileSystem) :
  locked (snd (fs_open mode name fs0)) = locked fs0 /\
  (forall q, q <> name ->
     files (snd (fs_open mode name fs0)) !! q = files fs0 !! q).
Proof.
  unfold fs_open.
  destruct (files fs0 !! name) as [file|], mode;
    repeat match goal with
           | |- context [if ?b then _ else _] => destruct b
           end; cbn; split; try done;
    intros q Hq; by rewrite lookup_insert_ne.
Qed.

Lemma QFile_open_frame (mode : OpenMode) (f : QFile) (σ : World) :
  let f' := result (QFile_open mode f) σ in
  let σ' := run (QFile_open mode f) σ in
  win σ' = win σ /\ locked (fs σ') = locked (fs σ) /\
  logger σ' = logger σ /\ dialogs σ' = dialogs σ /\
  (forall q, q <> QFile_fileName f ->
     files (fs σ') !! q = files (fs σ) !! q) /\
  QFile_fileName f' = QFile_fileName f.
Proof.
  cbv zeta. unfold QFile_open. destruct (QFile_isOpen f); [done|].
  rewrite run_bind, result_bind. cbn [run result get_fs fst snd].
  pose proof (fs_open_frame mode (QFile_fileName f) (fs σ)) as [Hl Hq].
  destruct (fs_open mode (QFile_fileName f) (fs σ)) as [ok fs'].
  cbn [snd] in Hl, Hq. rewrite run_bind, result_bind. by destruct σ.
Qed.

Lemma QFile_resize_frame (sz : nat) (f : QFile) (σ : World) :
  let f' := result (QFile_resize sz f) σ in
  let σ' := run (QFile_resize sz f) σ in
  win σ' = win σ /\ locked (fs σ') = locked (fs σ) /\
  logger σ' = logger σ /\ dialogs σ' = dialogs σ /\
  (forall q, q <> QFile_fileName f ->
     files (fs σ') !! q = files (fs σ) !! q) /\
  QFile_fileName f' = QFile_fileName f /\ QFile_isOpen f' = QFile_isOpen f.
Proof.
  cbv zeta. unfold QFile_resize.
  rewrite run_bind, result_bind. cbn [run result get_fs fst snd].
  destruct (files (fs σ) !! QFile_fileName f) as [file|]; [|done].
  destruct (QFile_isOpen f || writable file); [|done].
  rewrite run_bind, result_bind. destruct σ. cbn. repeat split; try done.
  intros q Hq. by rewrite lookup_insert_ne.
Qed.

Lemma QFile_write_frame (data : QString) (f : QFile) (σ : World) :
  let f' := snd (result (QFile_write data f) σ) in
  let σ' := run (QFile_write data f) σ in
  win σ' = win σ /\ locked (fs σ') = locked (fs σ) /\
  logger σ' = logger σ /\ dialogs σ' = dialogs σ /\
  (forall q, q <> QFile_fileName f ->
     files (fs σ') !! q = files (fs σ) !! q) /\
  QFile_fileName f' = QFile_fileName f /\ QFile_isOpen f' = QFile_isOpen f.
Proof.
  cbv zeta. unfold QFile_write.
  destruct (QFile_isOpen f) eqn:Ho; [|cbn; repeat split; done].
  rewrite run_bind, result_bind. cbn [run result get_fs fst snd].
  destruct (files (fs σ) !! QFile_fileName f) as [file|];
    [|cbn; repeat split; done].
  rewrite run_bind, result_bind. destruct σ. cbn. repeat split; try done.
  intros q Hq. by rewrite lookup_insert_ne.
Qed.

Lemma testFile_name (f : QFile) :
  testFile f = testFile (QFile_new (QFile_fileName f)).
Proof. done. Qed.

Lemma saved_frame_saveTests :
  keeps (saved_frame p σ0) saveTests (fun _ => True).
Proof.
  intros σ Hσ. split; [|done].
  destruct (openFile (win σ)) as [f|] eqn:Hf;
    [destruct (shouldSaveTests (win σ)) eqn:Hs|].
  - destruct Hσ as (Hw & Hl & Hn & Hq).
    destruct (saveTests_files σ f Hf Hs) as (Hw' & Hl' & _ & Hq').
    cbv zeta in *. unfold saved_frame. rewrite Hw', Hl'.
    split; [done|]. split; [done|]. split; [done|].
    intros q Hs'. rewrite Hq'; [by apply Hq|].
    intros i Hi. rewrite testFile_name, (Hn f Hf).
    split; intros ->; apply Hs'; right; exists i; auto.
  - rewrite saveTests_disabled by auto. done.
  - rewrite saveTests_disabled by auto. done.
Qed.

Lemma saved_frame_isTextChanged :
  keeps (saved_frame p σ0) isTextChanged (fun _ => True).
Proof.
  intros σ (Hw & Hl & Hn & Hq). split; [|done].
  destruct (isTextChanged_frame σ)
    as (Hfs & _ & _ & He & Hi & Ho & Hv & Hx & Ht & Hs & Hname & _).
  cbv zeta in *. unfold saved_frame, same_but_openFile in *.
  rewrite Hfs, He, Hi, Ho, Hv, Hx, Ht, Hs.
  split; [done|]. split; [done|]. split; [|done].
  intros f' Hf'. rewrite Hf' in Hname.
  destruct (openFile (win σ)) as [f|]; [|done].
  cbn in Hname. injection Hname as ->. by apply Hn.
Qed.

Lemma saved_frame_on_textChanged_triggered :
  keeps (saved_frame p σ0) on_textChanged_triggered (fun _ => True).
Proof.
  unfold on_textChanged_triggered.
  eapply keeps_bind; [apply saved_frame_isTextChanged|].
  intros _ _. by apply keeps_ret.
Qed.


Lemma saved_frame_open (mode : OpenMode) (f : QFile) :
  QFile_fileName f = p ->
  keeps (saved_frame p σ0) (QFile_open mode f)
    (fun f' => QFile_fileName f' = p).
Proof.
  intros Hf. apply saved_frame_fs. intros σ.
  destruct (QFile_open_frame mode f σ) as (Hw & Hl & _ & _ & Hq & Hn).
  cbv zeta in *. rewrite Hf in *. done.
Qed.

Lemma saved_frame_resize (sz : nat) (f : QFile) :
  QFile_fileName f = p ->
  keeps (saved_frame p σ0) (QFile_resize sz f)
    (fun f' => QFile_fileName f' = p).
Proof.
  intros Hf. apply saved_frame_fs. intros σ.
  destruct (QFile_resize_frame sz f σ) as (Hw & Hl & _ & _ & Hq & Hn & _).
  cbv zeta in *. rewrite Hf in *. done.
Qed.

Lemma saved_frame_write (data : QString) (f : QFile) :
  QFile_fileName f = p ->
  keeps (saved_frame p σ0) (QFile_write data f)
    (fun r => QFile_fileName (snd r) = p).
Proof.
  intros Hf. apply saved_frame_fs. intros σ.
  destruct (QFile_write_frame data f σ) as (Hw & Hl & _ & _ & Hq & Hn & _).
  cbv zeta in *. rewrite Hf in *. done.
Qed.

Lemma saved_frame_log (s : Severity) (head body : QString) :
  keeps (saved_frame p σ0) (log s head body) (fun _ => True).
Proof. by apply saved_frame_pure. Qed.

Lemma saved_frame_show (d : Dialog) :
  keeps (saved_frame p σ0) (show d) (fun _ => True).
Proof. by apply saved_frame_pure. Qed.

Lemma saved_frame_flush (f : QFile) :
  keeps (saved_frame p σ0) (QFile_flush f) (fun _ => True).
Proof. by apply saved_frame_pure. Qed.

(** The part of [saveFile] that follows the writing of the buffer. *)
Lemma saved_frame_saveFile_tail :
  keeps (saved_frame p σ0)
    (saveTests;; on_textChanged_triggered;; mret true) (fun _ => True).
Proof.
  eapply keeps_bind; [apply saved_frame_saveTests|]. intros _ _.
  eapply keeps_bind; [apply saved_frame_on_textChanged_triggered|].
  intros _ _. by apply keeps_ret.
Qed.

Lemma saved_frame_saveFile_backed (head data : QString) (f : QFile) :
  QFile_fileName f = p ->
  keeps (saved_frame p σ0)
    (f ← QFile_resize 0 f;
     '(_, f) ← QFile_write data f;
     modify_win (set_openFile (Some f));;
     QFile_flush f;;
     Log_info head
       (qs "Saved with file name " ++ toStdString (QFile_fileName f));;
     saveTests;;
     on_textChanged_triggered;;
     mret true) (fun _ => True).
Proof.
  intros Hf.
  eapply keeps_bind; [by apply saved_frame_resize|]. intros f1 Hf1.
  eapply keeps_bind; [by apply saved_frame_write|]. intros [n f2] Hf2.
  cbn [snd] in Hf2.
  eapply keeps_bind;
    [apply saved_frame_set_openFile; by intros ? [= <-]|]. intros _ _.
  eapply keeps_bind; [apply saved_frame_flush|]. intros _ _.
  eapply keeps_bind; [apply saved_frame_log|]. intros _ _.
  apply saved_frame_saveFile_tail.
Qed.

Lemma saved_frame_saveFile_unsaved (head data : QString) :
  keeps (saved_frame p σ0)
    (f ← QFile_open ReadWrite (QFile_new p);
     modify_win (set_openFile (Some f));;
     (if QFile_isOpen f then
        f ← QFile_resize 0 f;
        '(n, f) ← QFile_write data f;
        modify_win (set_openFile (Some f));;
        (if negb (n =? -1)%Z then
           Log_info head
             (qs "Saved file : " ++ toStdString (QFile_fileName f))
         else Log_warn head (qs "File was not saved successfully"));;
        QFile_flush f
      else
        Log_error head
          (qs "Cannot Save file. Do I have write permission?"));;
     saveTests;;
     on_textChanged_triggered;;
     mret true) (fun _ => True).
Proof.
  eapply keeps_bind; [by apply saved_frame_open|]. intros f Hf.
  eapply keeps_bind;
    [apply saved_frame_set_openFile; by intros ? [= <-]|]. intros _ _.
  eapply keeps_bind; [|intros _ _; apply saved_frame_saveFile_tail].
  destruct (QFile_isOpen f); [|apply saved_frame_log].
  eapply keeps_bind; [by apply saved_frame_resize|]. intros f1 Hf1.
  eapply keeps_bind; [by apply saved_frame_write|]. intros [n f2] Hf2.
  cbn [snd] in Hf2.
  eapply keeps_bind;
    [apply saved_frame_set_openFile; by intros ? [= <-]|]. intros _ _.
  eapply keeps_bind; [|intros _ _; apply saved_frame_flush].
  destruct (negb (n =? -1)%Z); apply saved_frame_log.
Qed.

End SavedFrame.

Section SaveFileFrame.

Lemma saved_frame_refl (p : QString) (σ : World) :
  (forall f, openFile (win σ) = Some f -> QFile_fileName f = p) ->
  saved_frame p σ σ.
Proof. intros H. split; [apply same_but_openFile_refl|done]. Qed.

(** What [saveFile] may change: the handle and the files of the backing
    file, which is the one the window has or else the one chosen in the
    dialog. *)
Lemma saveFile_frame (σ : World) (force : bool) (head chosen : QString) :
  let p := match openFile (win σ) with
           | Some f => QFile_fileName f
           | None => chosen
           end in
  saved_frame p σ (run (saveFile force head chosen) σ).
Proof.
  cbv zeta. unfold saveFile. rewrite run_bind.
  cbn [run result get_win fst snd].
  destruct (openFile (win σ)) as [f|] eqn:Hf.
  - apply (saved_frame_saveFile_backed (QFile_fileName f) σ head _ f eq_refl).
    apply saved_frame_refl. intros f' Hf'. congruence.
  - assert (H0 : saved_frame chosen σ σ)
      by (apply saved_frame_refl; intros f' Hf'; congruence).
    destruct force; [|done].
    rewrite run_bind.
    destruct (saved_frame_show chosen σ (SaveFileDialog (qs "Save File"))
                σ H0) as [H1 _].
    destruct (isEmpty chosen); [done|].
    by apply (saved_frame_saveFile_unsaved chosen σ head).
Qed.

End SaveFileFrame.

Section SaveFileResult.

Lemma result_bind_const {A B} (m : M A) (k : A -> M B) (b : B) (σ : World) :
  (forall x σ', result (k x) σ' = b) -> result (m ≫= k) σ = b.
Proof. intros H. by rewrite result_bind. Qed.

(** Every path of [saveFile] that writes ends in [return true]. *)
Lemma saveFile_result (σ : World) (force : bool) (head chosen : QString) :
  result (saveFile force head chosen) σ =
  match openFile (win σ) with
  | Some _ => true
  | None => force && negb (isEmpty chosen)
  end.
Proof.
  unfold saveFile. rewrite result_bind. cbn [run result get_win fst snd].
  destruct (openFile (win σ)) as [f|].
  - apply result_bind_const. intros f1 σ1.
    apply result_bind_const. intros [n f2] σ2.
    repeat (apply result_bind_const; intros ? ?). done.
  - destruct force; [|done]. apply result_bind_const. intros _ σ1.
    destruct (isEmpty chosen); [done|]. cbn [negb andb].
    repeat (apply result_bind_const; intros ? ?). done.
Qed.

(** When [saveFile] returns false it has done nothing but show the
    dialog. *)
Lemma saveFile_false (σ : World) (force : bool) (head chosen : QString) :
  result (saveFile force head chosen) σ = false ->
  run (saveFile force head chosen) σ =
  if force then run (show (SaveFileDialog (qs "Save File"))) σ else σ.
Proof.
  rewrite saveFile_result. unfold saveFile. rewrite run_bind.
  cbn [run result get_win fst snd].
  destruct (openFile (win σ)) as [f|]; [done|].
  destruct force; [|done]. rewrite run_bind.
  destruct (isEmpty chosen); [done|]. done.
Qed.

End SaveFileResult.

Section Loading.

Import Scenarios Examples.

(** [loadTests] changes the inputs and the expected outputs only. *)
Lemma loadTests_frame (σ : World) :
  let w := win σ in
  let w' := win (run loadTests σ) in
  fs (run loadTests σ) = fs σ /\
  editor w' = editor w /\ openFile w' = openFile w /\
  output w' = output w /\ verdict w' = verdict w /\
  templatePath w' = templatePath w /\
  shouldSaveTests w' = shouldSaveTests w /\
  length (input w') = length (input w) /\
  length (expected w') = length (expected w).
Proof.
  cbv zeta. split; [apply loadTests_fs|].
  unfold loadTests. rewrite run_bind. cbn [run result get_win fst snd].
  destruct (openFile (win σ)) as [f|] eqn:Hf; [|by rewrite run_ret].
  destruct (shouldSaveTests (win σ)) eqn:Hs; cbn [negb seq];
    [|by rewrite run_ret].
  rewrite !run_for_cons, run_for_nil.
  set (base := testFile f).
  destruct (loadTests_body_fields base 0 σ)
    as (I0 & X0 & O0 & V0 & E0 & P0 & T0 & S0).
  set (σ0 := run (loadTests_body base 0) σ) in *.
  destruct (loadTests_body_fields base 1 σ0)
    as (I1 & X1 & O1 & V1 & E1 & P1 & T1 & S1).
  set (σ1 := run (loadTests_body base 1) σ0) in *.
  destruct (loadTests_body_fields base 2 σ1)
    as (I2 & X2 & O2 & V2 & E2 & P2 & T2 & S2).
  set (σ2 := run (loadTests_body base 2) σ1) in *.
  cbv zeta in *. clearbody σ0 σ1 σ2.
  repeat split; try congruence.
  - rewrite I2, I1, I0.
    repeat match goal with
           | |- context [match ?o with Some _ => _ | None => _ end] =>
               destruct o
           end; by rewrite ?length_insert.
  - rewrite X2, X1, X0.
    repeat match goal with
           | |- context [match ?o with Some _ => _ | None => _ end] =>
               destruct o
           end; by rewrite ?length_insert.
Qed.

Lemma fs_open_failed (mode : OpenMode) (p : QString) (fs0 : FileSystem) :
  fst (fs_open mode p fs0) = false -> snd (fs_open mode p fs0) = fs0.
Proof.
  unfold fs_open. destruct (files fs0 !! p) as [file|], mode; cbn;
    repeat match goal with
           | |- context [if ?b then _ else _] => destruct b
           end; cbn; done.
Qed.

Lemma set_openFile_None (w : MainWindow) (o : option QFile) :
  openFile w = None -> set_openFile None (set_openFile o w) = w.
Proof. destruct w. cbn. by intros ->. Qed.


Lemma QFile_readAll_spec (f : QFile) (σ : World) :
  run (QFile_readAll f) σ = σ /\
  QFile_fileName (snd (result (QFile_readAll f) σ)) = QFile_fileName f /\
  QFile_isOpen (snd (result (QFile_readAll f) σ)) = QFile_isOpen f /\
  fst (result (QFile_readAll f) σ) =
    if QFile_isOpen f
    then drop (QFile_pos f) (fs_read (fs σ) (QFile_fileName f))
    else [].
Proof.
  unfold QFile_readAll. destruct (QFile_isOpen f) eqn:Ho; [|by cbn].
  rewrite run_bind, result_bind. by cbn.
Qed.

Lemma run_editor_setPlainText (t : QString) (σ : World) :
  run (editor_setPlainText t) σ =
  run isTextChanged (run (modify_win (set_editor t)) σ).
Proof.
  unfold editor_setPlainText.
  by rewrite run_bind, run_on_textChanged_triggered.
Qed.

(** What [editor->setPlainText] changes: the text of the editor and the
    position of the handle. *)
Lemma editor_setPlainText_frame (t : QString) (σ : World) :
  let σ' := run (editor_setPlainText t) σ in
  fs σ' = fs σ /\ dialogs σ' = dialogs σ /\ logger σ' = logger σ /\
  editor (win σ') = t /\ input (win σ') = input (win σ) /\
  output (win σ') = output (win σ) /\ verdict (win σ') = verdict (win σ) /\
  expected (win σ') = expected (win σ) /\
  templatePath (win σ') = templatePath (win σ) /\
  shouldSaveTests (win σ') = shouldSaveTests (win σ) /\
  (QFile_fileName <$> openFile (win σ')) =
    (QFile_fileName <$> openFile (win σ)) /\
  (QFile_isOpen <$> openFile (win σ')) = (QFile_isOpen <$> openFile (win σ)).
Proof.
  cbv zeta. rewrite run_editor_setPlainText.
  destruct (isTextChanged_frame (run (modify_win (set_editor t)) σ))
    as (Hfs & Hd & Hl & He & Hi & Ho & Hv & Hx & Ht & Hs & Hn & Hop).
  cbv zeta in *. rewrite Hfs, Hd, Hl, He, Hi, Ho, Hv, Hx, Ht, Hs, Hn, Hop.
  done.
Qed.

(** X19: the constructor on a window without a backing file.  When the
    path is not empty and the file can be opened for reading and
    writing (a missing file is created), the window gets an open handle
    on it; and when the text of the file holds no NUL character, no
    carriage return and no no-break space, the editor holds that text
    and the buffer counts
    as unchanged.  Otherwise the window is as before: no handle is kept,
    and a failed opening is logged as a warning.  In no case is the
    window left with a handle that is not open. *)
Theorem X19_new_MainWindow (σ : World) (filePath : QString) :
  openFile (win σ) = None ->
  let σ' := run (new_MainWindow filePath) σ in
  let opened :=
    negb (isEmpty filePath) && fst (fs_open ReadWrite filePath (fs σ)) in
  fs σ' = (if isEmpty filePath then fs σ
           else snd (fs_open ReadWrite filePath (fs σ))) /\
  (opened = true ->
   (QFile_fileName <$> openFile (win σ')) = Some filePath /\
   (QFile_isOpen <$> openFile (win σ')) = Some true /\
   (kept_by_editor (fs_read (fs σ') filePath) ->
    editor (win σ') = fs_read (fs σ') filePath /\
    result isTextChanged σ' = false)) /\
  (opened = false ->
   win σ' = win σ /\ fs σ' = fs σ /\
   logger σ' =
     logger σ ++
     if isEmpty filePath then []
     else [not_loaded]) /\
  (forall f, openFile (win σ') = Some f -> QFile_isOpen f = true).
Proof.
  intros Hnone. cbv zeta. unfold new_MainWindow.
  destruct (isEmpty filePath) eqn:Hp; cbn [negb andb].
  { rewrite run_ret, app_nil_r. repeat split; try done. congruence. }
  rewrite run_bind.
  destruct (open_ReadWrite filePath σ) as [-> ->].
  pose proof (fs_open_ReadWrite_file filePath (fs σ)) as Hfile.
  pose proof (fs_open_failed ReadWrite filePath (fs σ)) as Hfail.
  destruct (fs_open ReadWrite filePath (fs σ)) as [ok fs1].
  cbn [fst snd] in *. rewrite !run_bind. cbn [QFile_isOpen].
  destruct ok.
  - destruct Hfile as [file Hfile]; [done|].
    set (f0 := {| QFile_fileName := filePath; QFile_isOpen := true;
                  QFile_pos := 0 |}).
    set (σ2 := run (modify_win (set_openFile (Some f0)))
                 (run (put_fs fs1) σ)).
    assert (Hfs2 : fs σ2 = fs1) by done.
    rewrite run_bind.
    destruct (QFile_readAll_spec f0 σ2) as (-> & Hn & Ho & Ht).
    destruct (result (QFile_readAll f0) σ2) as [t f1].
    cbn [fst snd QFile_isOpen QFile_fileName QFile_pos f0] in Hn, Ho, Ht.
    rewrite drop_0 in Ht. cbn iota beta. rewrite run_bind.
    set (σ3 := run (modify_win (set_openFile (Some f1))) σ2).
    assert (H3 : fs σ3 = fs1 /\ openFile (win σ3) = Some f1) by done.
    destruct H3 as [Hfs3 Ho3]. clearbody σ3.
    destruct (editor_setPlainText_frame t σ3)
      as (Hfs4 & _ & _ & He4 & _ & _ & _ & _ & _ & _ & Hn4 & Ho4).
    cbv zeta in *.
    set (σ4 := run (editor_setPlainText t) σ3) in *. clearbody σ4.
    destruct (loadTests_frame σ4) as (Hfs5 & He5 & Ho5 & _).
    cbv zeta in *.
    set (σ5 := run loadTests σ4) in *. clearbody σ5.
    assert (Hname : (QFile_fileName <$> openFile (win σ5)) = Some filePath)
      by (by rewrite Ho5, Hn4, Ho3; cbn; rewrite Hn).
    assert (Hopen : (QFile_isOpen <$> openFile (win σ5)) = Some true)
      by (by rewrite Ho5, Ho4, Ho3; cbn; rewrite Ho).
    assert (Hfs : fs σ5 = fs1) by congruence.
    assert (Hed : editor (win σ5) = fs_read (fs σ5) filePath)
      by (rewrite He5, He4, Hfs, Ht, Hfs2; done).
    split; [done|]. split; [|split; [done|]].
    + intros _. split; [done|]. split; [done|]. intros _. split; [done|].
      rewrite (isTextChanged_open σ5 filePath (content file) Hname Hopen)
        by (by rewrite Hfs, Hfile).
      rewrite Hed, Hfs. unfold fs_read. rewrite Hfile.
      by rewrite eqb_refl.
    + intros f Hf. rewrite Hf in Hopen. by injection Hopen.
  - rewrite (Hfail eq_refl) in *.
    rewrite loadTests_disabled by (left; done).
    split; [done|]. split; [done|]. split.
    + intros _. split; [|done]. cbn. by apply set_openFile_None.
    + intros f Hf. cbn in Hf. done.
Qed.

(** The theorem on a source file on disk with one test file: the
    constructor loads the source into the editor and the test into the
    first input. *)
Lemma X19_new_MainWindow_witness :
  let σ' := run (new_MainWindow (qs "/home/u/sol.cpp")) stored_world in
  openFile (win stored_world) = None /\
  kept_by_editor (qs "int main(){}") /\
  editor (win σ') = qs "int main(){}" /\
  input (win σ') = [qs "1 2" ++ [LF]; []; []] /\
  result isTextChanged σ' = false.
Proof.
  cbv zeta.
  assert (Hkept : kept_by_editor (qs "int main(){}"))
    by (repeat split; apply (bool_decide_unpack _); vm_compute; exact I).
  split; [reflexivity|]. split; [exact Hkept|].
  destruct (X19_new_MainWindow stored_world (qs "/home/u/sol.cpp") eq_refl)
    as (_ & H & _).
  destruct H as (_ & _ & H); [reflexivity|].
  destruct (H Hkept) as [Hed Hch].
  split; [exact Hed|]. split; [reflexivity|exact Hch].
Defined.

End Loading.

Section Idempotence.

Lemma saved_file_idemp (t : QString) (old : option File) (lk : bool) :
  saved_file t (saved_file t old lk) lk = saved_file t old lk.
Proof.
  unfold saved_file. destruct (isEmpty (trimmed t)); [done|].
  destruct old as [f|].
  - destruct (writable f) eqn:Hw; [|by rewrite Hw]. cbn. by rewrite Hw.
  - by destruct lk.
Qed.

Lemma FileSystem_eq (a b : FileSystem) :
  files a = files b -> locked a = locked b -> a = b.
Proof. destruct a, b; cbn; by intros -> ->. Qed.

(** A path is one of the six test files of [base], or none of them. *)
Lemma test_name_dec (base q : QString) :
  (exists i, i < 3 /\ (q = in_name base i \/ q = ans_name base i)) \/
  (forall i, i < 3 -> q <> in_name base i /\ q <> ans_name base i).
Proof.
  destruct (decide (q = in_name base 0)); [left; exists 0; auto|].
  destruct (decide (q = in_name base 1)); [left; exists 1; auto|].
  destruct (decide (q = in_name base 2)); [left; exists 2; auto|].
  destruct (decide (q = ans_name base 0)); [left; exists 0; auto|].
  destruct (decide (q = ans_name base 1)); [left; exists 1; auto|].
  destruct (decide (q = ans_name base 2)); [left; exists 2; auto|].
  right. intros [|[|[|i]]] Hi; [done..|lia].
Qed.

Lemma saveTests_idemp (σ : World) :
  run saveTests (run saveTests σ) = run saveTests σ \/
  (win (run saveTests (run saveTests σ)) = win (run saveTests σ) /\
   fs (run saveTests (run saveTests σ)) = fs (run saveTests σ)).
Proof.
  destruct (openFile (win σ)) as [f|] eqn:Hf;
    [destruct (shouldSaveTests (win σ)) eqn:Hs|];
    [|left; by rewrite !(saveTests_disabled σ) by auto..].
  right.
  destruct (saveTests_files σ f Hf Hs) as (W1 & L1 & T1 & Q1).
  cbv zeta in *.
  destruct (saveTests_files (run saveTests σ) f) as (W2 & L2 & T2 & Q2);
    [by rewrite W1..|].
  cbv zeta in *. split; [done|].
  apply FileSystem_eq; [|done]. apply map_eq. intros q.
  destruct (test_name_dec (testFile f) q) as [(i & Hi & [-> | ->])|Hq].
  - destruct (T2 i Hi) as [-> _]. destruct (T1 i Hi) as [-> _].
    by rewrite W1, L1, saved_file_idemp.
  - destruct (T2 i Hi) as [_ ->]. destruct (T1 i Hi) as [_ ->].
    by rewrite W1, L1, saved_file_idemp.
  - by rewrite Q2.
Qed.

Lemma loadTests_three_slots (σ : World) :
  three_slots (win σ) -> three_slots (win (run loadTests σ)).
Proof.
  intros (Hi & Ho & Hv & He).
  destruct (loadTests_frame σ) as (_ & _ & _ & Ho' & Hv' & _ & _ & Hi' & He').
  cbv zeta in *. unfold three_slots. by rewrite Hi', Ho', Hv', He'.
Qed.

Lemma list_eq_three {A} (l k : list A) :
  length l = 3 -> length k = 3 ->
  (forall i, i < 3 -> l !! i = k !! i) -> l = k.
Proof.
  intros Hl Hk H.
  apply length_three in Hl as (a & b & c & ->).
  apply length_three in Hk as (a' & b' & c' & ->).
  pose proof (H 0) as H0. pose proof (H 1) as H1. pose proof (H 2) as H2.
  cbn in *. specialize (H0 ltac:(lia)). specialize (H1 ltac:(lia)).
  specialize (H2 ltac:(lia)). congruence.
Qed.

Lemma loadTests_idemp (σ : World) :
  three_slots (win σ) ->
  win (run loadTests (run loadTests σ)) = win (run loadTests σ).
Proof.
  intros H3.
  destruct (openFile (win σ)) as [f|] eqn:Hf;
    [destruct (shouldSaveTests (win σ)) eqn:Hs|];
    [|by rewrite !(loadTests_disabled σ) by auto..].
  pose proof (loadTests_three_slots σ H3) as H3'.
  destruct (loadTests_slots σ f Hf Hs H3) as (S1 & O1 & V1 & E1 & P1 & F1).
  cbv zeta in *.
  destruct (loadTests_slots (run loadTests σ) f)
    as (S2 & O2 & V2 & E2 & P2 & F2); [congruence..|done|].
  cbv zeta in *. rewrite loadTests_fs in S2.
  destruct (loadTests_frame (run loadTests σ)) as (_ & _ & _ & _ & _ & T2 & _).
  cbv zeta in T2.
  pose proof (loadTests_three_slots _ H3') as (Li2 & _ & _ & Le2).
  destruct H3' as (Li1 & _ & _ & Le1).
  apply MainWindow_eq; try congruence.
  - apply list_eq_three; [done..|]. intros i Hi.
    destruct (S2 i Hi) as [-> _]. destruct (S1 i Hi) as [HS _].
    rewrite HS. unfold slot at 1. rewrite HS. cbn [default].
    by destruct (readable_text _ _).
  - apply list_eq_three; [done..|]. intros i Hi.
    destruct (S2 i Hi) as [_ ->]. destruct (S1 i Hi) as [_ HS].
    rewrite HS. unfold slot at 1. rewrite HS. cbn [default].
    by destruct (readable_text _ _).
Qed.

End Idempotence.

Section Naming.

Lemma from_first_skip (c : QChar) (a b : QString) :
  c ∉ a -> from_first c (a ++ c :: b) = c :: b.
Proof.
  induction a as [|d a IH]; intros Ha; cbn [app from_first].
  - by rewrite Ascii.eqb_refl.
  - apply not_elem_of_cons in Ha as [Hd Ha].
    destruct (Ascii.eqb_spec d c) as [->|_]; [done|]. by apply IH.
Qed.

Lemma from_first_none (c : QChar) (a : QString) :
  c ∉ a -> from_first c a = [].
Proof.
  induction a as [|d a IH]; intros Ha; cbn [from_first]; [done|].
  apply not_elem_of_cons in Ha as [Hd Ha].
  destruct (Ascii.eqb_spec d c) as [->|_]; [done|]. by apply IH.
Qed.

Lemma notin_rev (c : QChar) (s : QString) : c ∉ s -> c ∉ rev s.
Proof.
  intros H Hin. apply H. by apply list_elem_of_In, in_rev, list_elem_of_In.
Qed.

(** The two parts of the name of a test file, for a file [name] in a
    directory [dir]. *)
Lemma QFileInfo_parts (dir name : QString) :
  dir <> [] -> "/"%char ∉ name ->
  QFileInfo_dir_absolutePath (dir ++ qs "/" ++ name) = dir /\
  QFileInfo_fileName (dir ++ qs "/" ++ name) = name.
Proof.
  intros Hdir Hname.
  unfold QFileInfo_dir_absolutePath, QFileInfo_fileName.
  rewrite !rev_app_distr. cbn [qs list_ascii_of_string rev app].
  rewrite <- app_assoc. cbn [app].
  rewrite from_first_skip, before_first_stop by (by apply notin_rev).
  cbn [tail]. rewrite !rev_involutive. split; [|done].
  by destruct dir.
Qed.

Lemma completeBaseName_ext (dir base ext : QString) :
  dir <> [] -> "/"%char ∉ base -> "/"%char ∉ ext -> "."%char ∉ ext ->
  QFileInfo_completeBaseName (dir ++ qs "/" ++ base ++ qs "." ++ ext) = base.
Proof.
  intros Hdir Hbase Hext Hdot. unfold QFileInfo_completeBaseName.
  destruct (QFileInfo_parts dir (base ++ qs "." ++ ext) Hdir) as [_ ->].
  { intros Hin. apply elem_of_app in Hin as [?|Hin]; [done|].
    apply elem_of_app in Hin as [Hin|?]; [|done].
    apply elem_of_cons in Hin as [?|Hin]; [done|].
    by apply elem_of_nil in Hin. }
  rewrite !rev_app_distr. cbn [qs list_ascii_of_string rev app].
  rewrite <- app_assoc. cbn [app].
  rewrite from_first_skip by (by apply notin_rev).
  by rewrite rev_involutive.
Qed.

Lemma completeBaseName_plain (dir base : QString) :
  dir <> [] -> "/"%char ∉ base -> "."%char ∉ base ->
  QFileInfo_completeBaseName (dir ++ qs "/" ++ base) = base.
Proof.
  intros Hdir Hbase Hdot. unfold QFileInfo_completeBaseName.
  destruct (QFileInfo_parts dir base Hdir Hbase) as [_ ->].
  rewrite from_first_none by (by apply notin_rev).
  by rewrite rev_involutive.
Qed.

(** X11: the names of the test files.  For a backing file [base.ext] in
    a directory [dir] given by its clean absolute path, where [ext]
    holds no dot, the files of slot [i] are [base] followed by the
    number [i + 1] and [.in] or [.ans], in the same directory; the same
    holds of a backing file [base] without any dot.  So the name is cut
    at its last dot only. *)
Theorem X11_test_file_names (dir base ext : QString) (i : nat) :
  clean_absolute dir ->
  "/"%char ∉ base -> "/"%char ∉ ext -> "."%char ∉ ext ->
  let f := QFile_new (dir ++ qs "/" ++ base ++ qs "." ++ ext) in
  let g := QFile_new (dir ++ qs "/" ++ base) in
  in_name (testFile f) i =
    dir ++ qs "/" ++ base ++ number (i + 1) ++ qs ".in" /\
  ans_name (testFile f) i =
    dir ++ qs "/" ++ base ++ number (i + 1) ++ qs ".ans" /\
  (base <> [] -> "."%char ∉ base ->
   in_name (testFile g) i =
     dir ++ qs "/" ++ base ++ number (i + 1) ++ qs ".in" /\
   ans_name (testFile g) i =
     dir ++ qs "/" ++ base ++ number (i + 1) ++ qs ".ans").
Proof.
  intros Hclean Hbase Hext Hdot. cbv zeta.
  assert (Hdir : dir <> []) by (by intros ->).
  unfold in_name, ans_name, testFile. cbn [QFile_new QFile_fileName].
  rewrite completeBaseName_ext by done.
  destruct (QFileInfo_parts dir (base ++ qs "." ++ ext) Hdir) as [-> _].
  { intros Hin. apply elem_of_app in Hin as [?|Hin]; [done|].
    apply elem_of_app in Hin as [Hin|?]; [|done].
    apply elem_of_cons in Hin as [?|Hin]; [done|].
    by apply elem_of_nil in Hin. }
  rewrite <- !app_assoc. split; [done|]. split; [done|].
  intros _ Hnodot. rewrite completeBaseName_plain by done.
  destruct (QFileInfo_parts dir base Hdir Hbase) as [-> _].
  by rewrite <- ?app_assoc.
Qed.

(** The theorem on [/home/u/a.b.cpp]. *)
Lemma X11_test_file_names_witness :
  in_name (testFile (QFile_new (qs "/home/u/a.b.cpp"))) 0 =
    qs "/home/u/a.b1.in" /\
  ans_name (testFile (QFile_new (qs "/home/u/a.b.cpp"))) 2 =
    qs "/home/u/a.b3.ans".
Proof.
  assert (Hclean : clean_absolute (qs "/home/u"))
    by (repeat constructor; done).
  destruct (X11_test_file_names (qs "/home/u") (qs "a.b") (qs "cpp") 0)
    as (H1 & _); [done|by apply (bool_decide_unpack _)..|].
  destruct (X11_test_file_names (qs "/home/u") (qs "a.b") (qs "cpp") 2)
    as (_ & H2 & _); [done|by apply (bool_decide_unpack _)..|].
  split; [exact H1|exact H2].
Defined.

End Naming.

Section PersistenceLaws.

Import Scenarios.

(** X9: what [saveTests] writes, with a backing file and the save-tests
    flag.  The file of each input and of each expected output that is
    not blank receives the text of the field up to its first NUL, when
    it can be opened for writing; the file of a blank field, the backing
    file itself and every other file are left as they were, as is the
    window; a file that cannot be written does not keep the other files
    from being written. *)
Theorem X9_saveTests_files (σ : World) (f : QFile) :
  openFile (win σ) = Some f -> shouldSaveTests (win σ) = true ->
  let w := win σ in
  let base := testFile f in
  let σ' := run saveTests σ in
  win σ' = w /\
  locked (fs σ') = locked (fs σ) /\
  (forall i, i < 3 ->
     files (fs σ') !! in_name base i =
       saved_file (slot (input w) i) (files (fs σ) !! in_name base i)
         (bool_decide (in_name base i ∈ locked (fs σ))) /\
     files (fs σ') !! ans_name base i =
       saved_file (slot (expected w) i) (files (fs σ) !! ans_name base i)
         (bool_decide (ans_name base i ∈ locked (fs σ)))) /\
  (forall q,
     (forall i, i < 3 -> q <> in_name base i /\ q <> ans_name base i) ->
     files (fs σ') !! q = files (fs σ) !! q) /\
  files (fs σ') !! QFile_fileName f = files (fs σ) !! QFile_fileName f.
Proof.
  intros Hf Hs. cbv zeta.
  destruct (saveTests_files σ f Hf Hs) as (H1 & H2 & H3 & H4).
  destruct (saveTests_backing σ f Hf) as [_ H5]. done.
Qed.

Lemma X9_saveTests_files_witness :
  files (fs (run saveTests fresh_world)) !! qs "/home/u/sol.cpp" =
  files (fs fresh_world) !! qs "/home/u/sol.cpp".
Proof.
  destruct (X9_saveTests_files fresh_world sol_cpp eq_refl eq_refl)
    as (_ & _ & _ & _ & H).
  exact H.
Defined.

(** X10: saving the tests twice is saving them once, and loading them
    twice is loading them once: a second [saveTests] changes neither the
    window nor the file system, and a second [loadTests] changes
    nothing in the window. *)
Theorem X10_persistence_idempotent (σ : World) :
  (win (run saveTests (run saveTests σ)) = win (run saveTests σ) /\
   fs (run saveTests (run saveTests σ)) = fs (run saveTests σ)) /\
  (three_slots (win σ) ->
   win (run loadTests (run loadTests σ)) = win (run loadTests σ) /\
   fs (run loadTests (run loadTests σ)) = fs σ).
Proof.
  split.
  - by destruct (saveTests_idemp σ) as [-> | ?].
  - intros H3. split; [by apply loadTests_idemp|].
    by rewrite !loadTests_fs.
Qed.

Lemma X10_persistence_idempotent_witness :
  three_slots (win fresh_world) /\
  win (run loadTests (run loadTests fresh_world)) =
    win (run loadTests fresh_world).
Proof.
  assert (H3 : three_slots (win fresh_world)) by (repeat split; reflexivity).
  split; [exact H3|].
  destruct (X10_persistence_idempotent fresh_world) as (_ & H).
  by destruct (H H3).
Defined.

End PersistenceLaws.

Section DirtyStateLaws.

Import Scenarios Examples.

(** X12: [isTextChanged] only looks.  It changes no file, logs nothing,
    shows no dialog and changes nothing in the window but the position
    of the handle; and asked again at once, it gives the same answer. *)
Theorem X12_isTextChanged_pure (σ : World) :
  let σ' := run isTextChanged σ in
  fs σ' = fs σ /\ logger σ' = logger σ /\ dialogs σ' = dialogs σ /\
  same_but_openFile (win σ) (win σ') /\
  fileName (win σ') = fileName (win σ) /\
  result isTextChanged σ' = result isTextChanged σ.
Proof.
  cbv zeta.
  destruct (isTextChanged_frame σ)
    as (Hfs & Hd & Hl & He & Hi & Ho & Hv & Hx & Ht & Hs & Hn & Hop).
  cbv zeta in *.
  split; [done|]. split; [done|]. split; [done|].
  split; [by repeat split|]. split; [apply fileName_isTextChanged|].
  destruct (openFile (win σ)) as [f|] eqn:Hf.
  - destruct (openFile (win (run isTextChanged σ))) as [f'|] eqn:Hf';
      [|done].
    cbn in Hn, Hop. injection Hn as Hn. injection Hop as Hop.
    rewrite (isTextChanged_saved _ f' Hf'), (isTextChanged_saved σ f Hf).
    by rewrite Hfs, He, Hn, Hop.
  - destruct (openFile (win (run isTextChanged σ))) as [f'|] eqn:Hf';
      [done|].
    rewrite (isTextChanged_unsaved _ Hf'), (isTextChanged_unsaved σ Hf).
    by rewrite Hfs, He, Ht.
Qed.

(** X13: the result of [saveFile].  It is false exactly when the window
    has no backing file and either the save is not forced or the dialog
    is cancelled; in that case nothing has happened but the showing of
    the dialog of a forced save. *)
Theorem X13_saveFile_result (σ : World) (force : bool)
    (head chosen : QString) :
  let m := saveFile force head chosen in
  (result m σ = false <->
   openFile (win σ) = None /\ (force = false \/ chosen = [])) /\
  (result m σ = false ->
   run m σ =
   if force then run (show (SaveFileDialog (qs "Save File"))) σ else σ).
Proof.
  cbv zeta. split; [|apply saveFile_false].
  rewrite saveFile_result.
  destruct (openFile (win σ)) as [f|]; [by split; [|intros [? _]]|].
  destruct force, chosen; cbn; split; auto; try done.
  intros [_ [?|?]]; done.
Qed.

Lemma X13_saveFile_result_witness :
  run (saveFile false (qs "Compiler") []) blank_world = blank_world.
Proof.
  destruct (X13_saveFile_result blank_world false (qs "Compiler") [])
    as (_ & H).
  apply H. reflexivity.
Defined.

(** X14: what [saveFile] may change.  In the window it changes the
    handle only, which afterwards is on the backing file (the one the
    window had, or else the one chosen in the dialog) when there is one;
    on disk it changes no file other than the backing file and its six
    test files, and the paths at which no file can be created stay the
    same. *)
Theorem X14_saveFile_frame (σ : World) (force : bool)
    (head chosen : QString) :
  let σ' := run (saveFile force head chosen) σ in
  let p := match openFile (win σ) with
           | Some f => QFile_fileName f
           | None => chosen
           end in
  same_but_openFile (win σ) (win σ') /\
  locked (fs σ') = locked (fs σ) /\
  (forall f', openFile (win σ') = Some f' -> QFile_fileName f' = p) /\
  (forall q,
     q <> p ->
     (forall i, i < 3 ->
        q <> in_name (testFile (QFile_new p)) i /\
        q <> ans_name (testFile (QFile_new p)) i) ->
     files (fs σ') !! q = files (fs σ) !! q).
Proof.
  cbv zeta. destruct (saveFile_frame σ force head chosen)
    as (Hw & Hl & Hn & Hq).
  split; [done|]. split; [done|]. split; [done|].
  intros q Hp Htests. apply Hq. intros [->|(i & Hi & [-> | ->])]; [done|..].
  - by destruct (Htests i Hi).
  - by destruct (Htests i Hi).
Qed.

Lemma X14_saveFile_frame_witness :
  files (fs (run (saveFile true (qs "Save") []) fresh_world))
    !! qs "/home/u/notes.txt" =
  files (fs fresh_world) !! qs "/home/u/notes.txt".
Proof.
  destruct (X14_saveFile_frame fresh_world true (qs "Save") [])
    as (_ & _ & _ & H).
  apply H; [discriminate|].
  intros [|[|[|i]]] Hi; [split; discriminate..|lia].
Defined.

(** X15: [saveFile] with a backing file whose handle is open
    overwrites.  Whatever the file held and wherever the handle stood,
    the file afterwards holds the text of the editor up to its first
    NUL and nothing else, with its permissions as they were; the result
    is true, the handle is open on the same file and the text of the
    editor is as it was. *)
Theorem X15_saveFile_overwrites (σ : World) (force : bool)
    (head chosen : QString) (f : QFile) (file : File) :
  openFile (win σ) = Some f -> QFile_isOpen f = true ->
  files (fs σ) !! QFile_fileName f = Some file ->
  let m := saveFile force head chosen in
  let σ' := run m σ in
  result m σ = true /\
  editor (win σ') = editor (win σ) /\
  (QFile_fileName <$> openFile (win σ')) = Some (QFile_fileName f) /\
  (QFile_isOpen <$> openFile (win σ')) = Some true /\
  files (fs σ') !! QFile_fileName f =
    Some {| content := c_str (editor (win σ));
            readable := readable file; writable := writable file |}.
Proof. intros Hf Ho Hp. by apply saveFile_backed. Qed.

Lemma X15_saveFile_overwrites_witness :
  files (fs (run (saveFile false (qs "Compiler") []) nul_buffer_world))
    !! qs "/home/u/sol.cpp" =
  Some (plain (qs "a")).
Proof.
  destruct (X15_saveFile_overwrites nul_buffer_world false (qs "Compiler") []
              sol_cpp (plain (qs "old")) eq_refl eq_refl eq_refl)
    as (_ & _ & _ & _ & H).
  exact H.
Defined.

(** X16: the dirty state after a [saveFile] that returned true, on a
    window whose open handle, if it has one, is on a file that exists.
    The buffer is unchanged when the handle is open afterwards and the
    buffer holds no NUL; it is changed when the handle is not open; and
    it is changed as soon as a character is appended to it. *)
Theorem X16_saveFile_then_isTextChanged (σ : World) (force : bool)
    (head chosen : QString) :
  (forall f, openFile (win σ) = Some f -> QFile_isOpen f = true ->
             is_Some (files (fs σ) !! QFile_fileName f)) ->
  result (saveFile force head chosen) σ = true ->
  let σ' := run (saveFile force head chosen) σ in
  ((QFile_isOpen <$> openFile (win σ')) = Some true ->
   NUL ∉ editor (win σ) -> result isTextChanged σ' = false) /\
  ((QFile_isOpen <$> openFile (win σ')) = Some false ->
   result isTextChanged σ' = true) /\
  (forall c,
     result isTextChanged
       (run (modify_win (fun w => set_editor (editor w ++ [c]) w)) σ')
     = true).
Proof. apply saveFile_then_isTextChanged. Qed.

Lemma X16_saveFile_then_isTextChanged_witness :
  result isTextChanged
    (run (saveFile true (qs "Save") (qs "/home/u/new.cpp")) locked_world)
  = false.
Proof.
  destruct (X16_saveFile_then_isTextChanged locked_world true (qs "Save")
              (qs "/home/u/new.cpp")) as (H & _).
  - intros f Hf. discriminate Hf.
  - reflexivity.
  - apply H; [reflexivity|].
    apply (bool_decide_unpack _). vm_compute. exact I.
Defined.

End DirtyStateLaws.

Section SaveThenClose.

Import Scenarios Examples.

(** [closeChangedConfirm] on a buffer that is not changed. *)
Lemma closeChangedConfirm_unchanged (σ : World) (answer : StandardButton)
    (chosen : QString) :
  result isTextChanged σ = false ->
  result (closeChangedConfirm answer chosen) σ = true /\
  run (closeChangedConfirm answer chosen) σ = run isTextChanged σ.
Proof.
  intros Hc. unfold closeChangedConfirm.
  rewrite result_bind, run_bind, Hc. done.
Qed.

(** X18: closing after a save that worked asks nothing.  When
    [saveFile] has returned true and left the handle open, and the
    buffer holds no NUL, [closeChangedConfirm] at once after it returns
    true, shows no dialog, logs nothing and writes nothing, whatever
    the user would have answered. *)
Theorem X18_saveFile_then_close (σ : World) (force : bool)
    (head chosen : QString) (answer : StandardButton) (chosen' : QString) :
  (forall f, openFile (win σ) = Some f -> QFile_isOpen f = true ->
             is_Some (files (fs σ) !! QFile_fileName f)) ->
  result (saveFile force head chosen) σ = true ->
  let σ' := run (saveFile force head chosen) σ in
  (QFile_isOpen <$> openFile (win σ')) = Some true ->
  NUL ∉ editor (win σ) ->
  let m := closeChangedConfirm answer chosen' in
  result m σ' = true /\
  dialogs (run m σ') = dialogs σ' /\ logger (run m σ') = logger σ' /\
  fs (run m σ') = fs σ'.
Proof.
  intros Hwf Hres. cbv zeta. intros Ho Hnul.
  destruct (saveFile_then_isTextChanged σ force head chosen Hwf Hres)
    as (H & _).
  cbv zeta in H. specialize (H Ho Hnul).
  destruct (closeChangedConfirm_unchanged _ answer chosen' H) as [-> ->].
  destruct (isTextChanged_frame (run (saveFile force head chosen) σ))
    as (Hfs & Hd & Hl & _).
  done.
Qed.

(** The theorem on a window with a backing file. *)
Lemma X18_saveFile_then_close_witness :
  result (closeChangedConfirm Save [])
    (run (saveFile false (qs "Compiler") []) fresh_world) = true.
Proof.
  destruct (X18_saveFile_then_close fresh_world false (qs "Compiler") []
              Save []) as (H & _).
  - intros f [= <-] _. by eexists.
  - reflexivity.
  - reflexivity.
  - apply (bool_decide_unpack _). vm_compute. exact I.
  - exact H.
Defined.

End SaveThenClose.

Section SavingMore.

Import Scenarios Examples.

(** [resize (0)] through a handle that is not open empties the file
    when the process may write it. *)
Lemma resize_closed_file (p : QString) (pos : nat) (σ : World) :
  let f := {| QFile_fileName := p; QFile_isOpen := false;
              QFile_pos := pos |} in
  files (fs (run (QFile_resize 0 f) σ)) !! p =
  (fun file => if writable file then set_content [] file else file) <$>
    files (fs σ) !! p.
Proof.
  destruct σ as [w fs0 lg dl].
  cbv [run result QFile_resize QFile_isOpen QFile_fileName QFile_pos
       mbind M_bind mret M_ret get_fs put_fs fs win logger dialogs].
  destruct (files fs0 !! p) as [file|] eqn:Hp; [|by cbn; rewrite ?Hp].
  cbn [orb]. destruct (writable file) eqn:Hw; cbn; rewrite ?Hw; [|done].
  by rewrite lookup_insert_eq, resized_zero.
Qed.

(** X17: [saveFile] through a handle that is not open (what an earlier
    [saveFile] leaves when the file could not be opened).  Nothing of
    the buffer is written: the file on disk is emptied when the process
    may write it and is left as it was otherwise; the handle stays
    closed; and the result is true all the same. *)
Theorem X17_saveFile_closed_handle (σ : World) (force : bool)
    (head chosen : QString) (f : QFile) :
  openFile (win σ) = Some f -> QFile_isOpen f = false ->
  let m := saveFile force head chosen in
  let σ' := run m σ in
  let p := QFile_fileName f in
  result m σ = true /\
  (QFile_fileName <$> openFile (win σ')) = Some p /\
  (QFile_isOpen <$> openFile (win σ')) = Some false /\
  files (fs σ') !! p =
    (fun file => if writable file then set_content [] file else file) <$>
      files (fs σ) !! p /\
  result isTextChanged σ' = true.
Proof.
  intros Hf Ho. destruct f as [p o pos]. cbn in Ho. subst o.
  cbv zeta. cbn [QFile_fileName].
  split; [by rewrite saveFile_result, Hf|].
  unfold saveFile. rewrite run_bind. cbn [run result get_win fst snd].
  rewrite Hf. rewrite run_bind.
  pose proof (resize_closed_file p pos σ) as Hfile. cbv zeta in Hfile.
  destruct (resize_closed p pos σ) as (Hw1 & Hn1 & Ho1).
  cbv zeta in Hw1, Hn1, Ho1.
  generalize dependent (run (QFile_resize 0
    {| QFile_fileName := p; QFile_isOpen := false; QFile_pos := pos |}) σ).
  generalize dependent (result (QFile_resize 0
    {| QFile_fileName := p; QFile_isOpen := false; QFile_pos := pos |}) σ).
  intros f1 Hn1 Ho1 σ1 Hfile Hw1.
  rewrite run_bind.
  destruct (write_closed (c_str (toStdString (editor (win σ)))) f1 σ1 Ho1)
    as [-> ->].
  cbn iota beta. rewrite !run_bind, run_ret.
  match goal with
  | |- context [run saveTests ?σ0] =>
      assert (Ho4 : openFile (win σ0) = Some f1) by done;
      assert (Hf4 : files (fs σ0) !! p = files (fs σ1) !! p) by done;
      generalize dependent σ0
  end.
  intros σ4 Ho4 Hf4.
  destruct (saveFile_tail σ4 f1 Ho4) as (_ & Hn & Hop & Hfile4).
  cbv zeta in *. rewrite Hn1 in *. rewrite Ho1 in *.
  rewrite Hn, Hop, Hfile4, Hf4, Hfile.
  split; [done|]. split; [done|]. split; [done|].
  by apply isTextChanged_closed.
Qed.

(** The theorem on a file the process may write but not read. *)
Lemma X17_saveFile_closed_handle_witness :
  result (saveFile false (qs "Compiler") []) closed_world = true /\
  files (fs (run (saveFile false (qs "Compiler") []) closed_world))
    !! qs "/home/u/sol.cpp" =
  Some {| content := []; readable := false; writable := true |}.
Proof.
  destruct (X17_saveFile_closed_handle closed_world false (qs "Compiler") []
              {| QFile_fileName := qs "/home/u/sol.cpp";
                 QFile_isOpen := false; QFile_pos := 0 |} eq_refl eq_refl)
    as (H1 & _ & _ & H2 & _).
  split; [exact H1|exact H2].
Defined.

End SavingMore.

Section Companion.

Import Scenarios Examples.

(** Text put in front of the first part. *)
Lemma split_app_nosep_l (sep : QChar) (t s w : QString) (ws : list QString) :
  sep ∉ t -> split sep s = w :: ws -> split sep (t ++ s) = (t ++ w) :: ws.
Proof.
  intros Ht Hs. induction t as [|c t IH]; [done|].
  apply not_elem_of_cons in Ht as [Hc Ht]. cbn [app].
  by apply split_cons_other; [|apply IH].
Qed.

(** The lines of a text in which every newline is replaced by a newline
    and a mark: the first line is as it was, and the mark is put in
    front of every other line. *)
Lemma split_replace (mark s w : QString) (ws : list QString) :
  LF ∉ mark -> split LF s = w :: ws ->
  split LF (replace LF (LF :: mark) s) = w :: map (app mark) ws.
Proof.
  intros Hmark. revert w ws. induction s as [|c s IH]; intros w ws Hs.
  - cbn in Hs. by injection Hs as <- <-.
  - destruct (split_nonempty LF s) as (w0 & ws0 & Hs0).
    cbn [replace]. destruct (Ascii.eqb_spec c LF) as [->|Hc].
    + rewrite split_cons_sep, Hs0 in Hs. injection Hs as <- <-.
      cbn [app]. rewrite split_cons_sep.
      rewrite (split_app_nosep_l LF mark _ w0 (map (app mark) ws0));
        [done|done|by apply IH].
    + rewrite (split_cons_other LF c s w0 ws0) in Hs by done.
      injection Hs as <- <-.
      by apply split_cons_other; [|apply IH].
Qed.


(** The part of [applyCompanion] that fills the slots. *)
Lemma applyCompanion_slots (σ : World) (outputOnly : bool)
    (tcs : list Network.TestCase) :
  three_slots (win σ) ->
  let m : M unit :=
    clearTests outputOnly;;
    (if 3 <? length tcs then
       Log_warn (qs "CP Editor")
         (qs "More than 3 testcase were produced. Only First 3 will be used")
     else mret tt);;
    for_ (seq 0 (min (length tcs) 3)) (fun i =>
      modify_win (fun w =>
        set_input (<[i := Network.input (testcase_at tcs i)]> (input w)) w);;
      modify_win (fun w =>
        set_expected (<[i := Network.output (testcase_at tcs i)]> (expected w))
          w)) in
  let w := win σ in
  let w' := win (run m σ) in
  (forall i, i < 3 ->
     input w' !! i =
       Some (match tcs !! i with
             | Some tc => Network.input tc
             | None => if outputOnly then slot (input w) i else []
             end) /\
     expected w' !! i =
       Some (match tcs !! i with
             | Some tc => Network.output tc
             | None => if outputOnly then slot (expected w) i else []
             end)) /\
  output w' = replicate 3 [] /\
  verdict w' = replicate 3 (label_of UNKNOWN) /\
  editor w' = editor w /\ openFile w' = openFile w /\
  templatePath w' = templatePath w /\
  shouldSaveTests w' = shouldSaveTests w /\
  fs (run m σ) = fs σ /\ dialogs (run m σ) = dialogs σ /\
  logger (run m σ) =
    logger σ ++
    if 3 <? length tcs then
      [too_many_tests]
    else [].
Proof.
  intros (Hi & Ho & Hv & He). destruct σ as [w fs0 lg dl].
  destruct w as [ed inp outp ver exp opf tp sst]. cbn in Hi, Ho, Hv, He.
  apply length_three in Hi as (? & ? & ? & ->).
  apply length_three in Ho as (? & ? & ? & ->).
  apply length_three in Hv as (? & ? & ? & ->).
  apply length_three in He as (? & ? & ? & ->).
  destruct tcs as [|t0 [|t1 [|t2 [|t3 l]]]], outputOnly; cbv zeta;
    (split; [intros [|[|[|i]]] Hlt; [| | |lia]; by cbv|]);
    cbn; rewrite ?app_nil_r; repeat split; done.
Qed.


(** The header [applyCompanion] builds from the text of the companion. *)
Lemma header_lines (language meta : QString) :
  let mark := if eqb language (qs "Python") then qs "# " else qs "// " in
  let header :=
    if eqb language (qs "Python")
    then replace LF (LF :: qs "# ") (LF :: meta)
    else replace LF (LF :: qs "// ") (LF :: meta) in
  split LF header = [] :: map (app mark) (split LF meta).
Proof.
  cbv zeta. destruct (split_nonempty LF meta) as (w & ws & Hs).
  destruct (eqb language (qs "Python"));
    (rewrite (split_replace _ (LF :: meta) [] (w :: ws));
     [by rewrite Hs
     |apply (bool_decide_unpack _); vm_compute; exact I
     |by rewrite split_cons_sep, Hs]).
Qed.

(** The first part of [applyCompanion]: the header is put in front of
    the text of the editor when the window has no backing file and its
    buffer is unchanged. *)
Lemma applyCompanion_head (σ : World) (language : QString)
    (data : Network.CompanionData) :
  let fresh :=
    match openFile (win σ) with
    | None => negb (result isTextChanged σ)
    | Some _ => false
    end in
  let head : M bool :=
    match openFile (win σ) with
    | None => isChanged ← isTextChanged; mret (negb isChanged)
    | Some _ => mret false
    end in
  let meta :=
    LF :: Network.toMetaString data ++
    credit in
  let header :=
    if eqb language (qs "Python") then replace LF (LF :: qs "# ") meta
    else replace LF (LF :: qs "// ") meta in
  let body (b : bool) : M unit :=
    if b then
      w ← get_win; editor_setPlainText (header ++ [LF; LF] ++ editor w)
    else mret tt in
  let σ' := run (body (result head σ)) (run head σ) in
  result head σ = fresh /\
  fs σ' = fs σ /\ dialogs σ' = dialogs σ /\ logger σ' = logger σ /\
  editor (win σ') =
    (if fresh then header ++ [LF; LF] ++ editor (win σ)
     else editor (win σ)) /\
  input (win σ') = input (win σ) /\ output (win σ') = output (win σ) /\
  verdict (win σ') = verdict (win σ) /\
  expected (win σ') = expected (win σ) /\
  templatePath (win σ') = templatePath (win σ) /\
  shouldSaveTests (win σ') = shouldSaveTests (win σ) /\
  (QFile_fileName <$> openFile (win σ')) =
    (QFile_fileName <$> openFile (win σ)) /\
  (QFile_isOpen <$> openFile (win σ')) = (QFile_isOpen <$> openFile (win σ)).
Proof.
  cbv zeta.
  destruct (openFile (win σ)) as [f|] eqn:Hf.
  - cbn. repeat split; try done; by rewrite Hf.
  - rewrite result_bind, run_bind, run_ret.
    change (result (mret (negb (result isTextChanged σ)))
              (run isTextChanged σ)) with (negb (result isTextChanged σ)).
    destruct (isTextChanged_frame σ)
      as (Hfs & Hd & Hl & He & Hi & Ho & Hv & Hx & Ht & Hs & Hn & Hop).
    cbv zeta in *. set (σ1 := run isTextChanged σ) in *. clearbody σ1.
    split; [done|].
    destruct (negb (result isTextChanged σ)).
    + rewrite run_bind. cbn [run result get_win fst snd].
      match goal with
      | |- context [editor_setPlainText ?t] =>
          destruct (editor_setPlainText_frame t σ1)
            as (Hfs' & Hd' & Hl' & He' & Hi' & Ho' & Hv' & Hx' & Ht' & Hs'
                & Hn' & Hop')
      end.
      cbv zeta in *.
      rewrite Hfs', Hd', Hl', He', Hi', Ho', Hv', Hx', Ht', Hs', Hn', Hop'.
      rewrite He. repeat split; congruence.
    + rewrite run_ret. repeat split; congruence.
Qed.


(** [applyCompanion] is its first part followed by the filling of the
    slots. *)
Lemma run_applyCompanion (σ : World) (language : QString)
    (outputOnly : bool) (data : Network.CompanionData) :
  exists σ1,
    (fs σ1 = fs σ /\ dialogs σ1 = dialogs σ /\ logger σ1 = logger σ /\
     editor (win σ1) =
       (if match openFile (win σ) with
           | None => negb (result isTextChanged σ)
           | Some _ => false
           end
        then
          (if eqb language (qs "Python")
           then replace LF (LF :: qs "# ")
                  (LF :: Network.toMetaString data ++ credit)
           else replace LF (LF :: qs "// ")
                  (LF :: Network.toMetaString data ++ credit))
          ++ [LF; LF] ++ editor (win σ)
        else editor (win σ)) /\
     input (win σ1) = input (win σ) /\ output (win σ1) = output (win σ) /\
     verdict (win σ1) = verdict (win σ) /\
     expected (win σ1) = expected (win σ) /\
     templatePath (win σ1) = templatePath (win σ) /\
     shouldSaveTests (win σ1) = shouldSaveTests (win σ) /\
     (QFile_fileName <$> openFile (win σ1)) =
       (QFile_fileName <$> openFile (win σ)) /\
     (QFile_isOpen <$> openFile (win σ1)) =
       (QFile_isOpen <$> openFile (win σ))) /\
    run (applyCompanion language outputOnly data) σ =
    run (clearTests outputOnly;;
         (if 3 <? length (Network.testcases data) then
            Log_warn (qs "CP Editor")
              (qs "More than 3 testcase were produced. Only First 3 will be used")
          else mret tt);;
         for_ (seq 0 (min (length (Network.testcases data)) 3)) (fun i =>
           modify_win (fun w =>
             set_input
               (<[i := Network.input
                         (testcase_at (Network.testcases data) i)]>
                  (input w)) w);;
           modify_win (fun w =>
             set_expected
               (<[i := Network.output
                         (testcase_at (Network.testcases data) i)]>
                  (expected w)) w))) σ1.
Proof.
  destruct (applyCompanion_head σ language data) as (Hres & Hhead).
  cbv zeta in *. eexists. split; [exact Hhead|].
  unfold applyCompanion. etrans; [apply run_bind|].
  cbn [run result get_win fst snd].
  etrans; [apply run_bind|]. etrans; [apply run_bind|]. done.
Qed.

(** X20: [applyCompanion] on test cases.  The first three test cases
    fill the slots in order, input and expected output; a slot for which
    there is no test case is cleared, or kept when [clearTests] is told
    to clear the outputs only; all outputs are cleared and all verdicts
    reset; a warning is logged exactly when there are more than three
    test cases; no file is touched and no dialog shown. *)
Theorem X20_applyCompanion_tests (σ : World) (language : QString)
    (outputOnly : bool) (data : Network.CompanionData) :
  three_slots (win σ) ->
  let tcs := Network.testcases data in
  let w := win σ in
  let σ' := run (applyCompanion language outputOnly data) σ in
  let w' := win σ' in
  (forall i, i < 3 ->
     input w' !! i =
       Some (match tcs !! i with
             | Some tc => Network.input tc
             | None => if outputOnly then slot (input w) i else []
             end) /\
     expected w' !! i =
       Some (match tcs !! i with
             | Some tc => Network.output tc
             | None => if outputOnly then slot (expected w) i else []
             end)) /\
  output w' = replicate 3 [] /\
  verdict w' = replicate 3 (label_of UNKNOWN) /\
  fs σ' = fs σ /\ dialogs σ' = dialogs σ /\
  logger σ' =
    logger σ ++
    if 3 <? length tcs then
      [too_many_tests]
    else [].
Proof.
  intros (Hi & Ho & Hv & He). cbv zeta.
  destruct (run_applyCompanion σ language outputOnly data)
    as (σ1 & (Hfs & Hd & Hl & _ & Hi1 & Ho1 & Hv1 & He1 & _) & ->).
  destruct (applyCompanion_slots σ1 outputOnly (Network.testcases data))
    as (Hslots & Hout & Hver & _ & _ & _ & _ & Hfs' & Hd' & Hl').
  { unfold three_slots. by rewrite Hi1, Ho1, Hv1, He1. }
  cbv zeta in *. rewrite Hi1, He1 in Hslots.
  rewrite Hfs', Hd', Hl', Hfs, Hd, Hl. done.
Qed.

(** The theorem on four test cases. *)
Lemma X20_applyCompanion_tests_witness :
  three_slots (win fresh_world) /\
  input (win (run (applyCompanion (qs "Cpp") false four_tests) fresh_world))
    !! 2 = Some (qs "5") /\
  logger (run (applyCompanion (qs "Cpp") false four_tests) fresh_world) =
    [too_many_tests].
Proof.
  assert (H3 : three_slots (win fresh_world)) by (repeat split; reflexivity).
  split; [exact H3|].
  destruct (X20_applyCompanion_tests fresh_world (qs "Cpp") false four_tests H3)
    as (Hslots & _ & _ & _ & _ & Hlog).
  split; [|exact Hlog].
  destruct (Hslots 2) as [H _]; [lia|]. exact H.
Defined.

(** X21: the header of [applyCompanion].  When the window has no
    backing file and its buffer is unchanged, the editor receives a
    header, an empty line and then its former text; the lines of the
    header are an empty line and then the lines of the text of the
    companion and of the credit, each behind the comment mark of the
    language.  In every other case the text of the editor is as it was. *)
Theorem X21_applyCompanion_header (σ : World) (language : QString)
    (outputOnly : bool) (data : Network.CompanionData) :
  three_slots (win σ) ->
  let fresh :=
    match openFile (win σ) with
    | None => negb (result isTextChanged σ)
    | Some _ => false
    end in
  let mark := if eqb language (qs "Python") then qs "# " else qs "// " in
  let credit :=
    credit in
  let text := editor (win (run (applyCompanion language outputOnly data) σ)) in
  (fresh = false -> text = editor (win σ)) /\
  (fresh = true ->
   exists header,
     text = header ++ [LF; LF] ++ editor (win σ) /\
     split LF header =
       [] :: map (app mark) (split LF (Network.toMetaString data ++ credit))).
Proof.
  intros (Hi & Ho & Hv & He). cbv zeta.
  destruct (run_applyCompanion σ language outputOnly data)
    as (σ1 & (_ & _ & _ & Hed & Hi1 & Ho1 & Hv1 & He1 & _) & ->).
  destruct (applyCompanion_slots σ1 outputOnly (Network.testcases data))
    as (_ & _ & _ & Hed' & _).
  { unfold three_slots. by rewrite Hi1, Ho1, Hv1, He1. }
  cbv zeta in *. rewrite Hed', Hed.
  split; intros ->; [done|].
  eexists. split; [reflexivity|]. apply header_lines.
Qed.

(** The theorem on a new window and a Python source. *)
Lemma X21_applyCompanion_header_witness :
  three_slots (win blank_world) /\
  exists header,
    editor (win (run (applyCompanion (qs "Python") false four_tests)
                   blank_world)) = header ++ [LF; LF] /\
    split LF header =
      [[]; qs "# Problem A"; qs "# Contest 1";
       qs "# Powered by CP Editor (https://github.com/coder3101/cp-editor2)"].
Proof.
  assert (H3 : three_slots (win blank_world)) by (repeat split; reflexivity).
  split; [exact H3|].
  destruct (X21_applyCompanion_header blank_world (qs "Python") false
              four_tests H3) as (_ & H).
  destruct (H eq_refl) as (header & H1 & H2).
  exists header. split; [exact H1|exact H2].
Defined.

End Companion.

Section SavingAs.

Import Scenarios Examples.

Lemma fs_open_ReadWrite_exists (p : QString) (fs0 : FileSystem) :
  is_Some (files fs0 !! p) -> snd (fs_open ReadWrite p fs0) = fs0.
Proof. intros [file Hp]. unfold fs_open. by rewrite Hp. Qed.

(** [saveAs] on a window with a backing file. *)
Lemma run_saveAs (σ : World) (chosen : QString) (f : QFile) :
  openFile (win σ) = Some f ->
  let σ1 := run (modify_win (set_openFile None)) σ in
  run (saveAs chosen) σ =
  if isEmpty chosen then
    let old := QFile_fileName f in
    {| win := set_openFile
                (Some {| QFile_fileName := old;
                         QFile_isOpen := fst (fs_open ReadWrite old (fs σ));
                         QFile_pos := 0 |}) (win σ);
       fs := snd (fs_open ReadWrite old (fs σ));
       logger := logger σ;
       dialogs := dialogs σ ++ [SaveFileDialog (qs "Save File")] |}
  else run (saveFile true (qs "Save as") chosen) σ1.
Proof.
  intros Hf. cbv zeta. unfold saveAs. etrans; [apply run_bind|].
  cbn [run result get_win fst snd]. rewrite Hf.
  etrans; [apply run_bind|]. etrans; [apply run_bind|].
  set (σ1 := run (modify_win (set_openFile None)) σ).
  rewrite saveFile_result. change (openFile (win σ1)) with (@None QFile).
  cbn [andb]. destruct (isEmpty chosen) eqn:Hc; cbn [negb]; [|done].
  rewrite saveFile_false
    by (rewrite saveFile_result; change (openFile (win σ1)) with (@None QFile);
        by rewrite Hc).
  rewrite run_bind. rewrite run_bind.
  match goal with
  | |- context [QFile_open ReadWrite ?h] =>
      change h with (QFile_new (QFile_fileName f))
  end.
  match goal with
  | |- context [run (QFile_open _ _) ?s] =>
      destruct (open_ReadWrite (QFile_fileName f) s) as [-> ->]
  end.
  subst σ1. destruct σ as [w fs0 lg dl]. cbn.
  destruct (fs_open ReadWrite (QFile_fileName f) fs0) as [ok fs1].
  done.
Qed.


Lemma isEmpty_false (s : QString) : s <> [] -> isEmpty s = false.
Proof. by destruct s. Qed.

(** X22: [saveAs] on a window with a backing file.  When the dialog is
    cancelled the window gets its former file back, opened again from
    its name, and nothing changes on disk as long as that file still
    exists.  When a name is chosen the handle is on the chosen file from
    then on, whether or not it could be opened, and the window is named
    after it only when it could; when it could, it receives the text of
    the editor up to its first NUL; and no file is changed other than
    the chosen one and its six test files. *)
Theorem X22_saveAs (σ : World) (chosen : QString) (f : QFile) :
  openFile (win σ) = Some f ->
  let σ' := run (saveAs chosen) σ in
  let old := QFile_fileName f in
  (chosen = [] ->
   openFile (win σ') =
     Some {| QFile_fileName := old;
             QFile_isOpen := fst (fs_open ReadWrite old (fs σ));
             QFile_pos := 0 |} /\
   same_but_openFile (win σ) (win σ') /\
   fs σ' = snd (fs_open ReadWrite old (fs σ)) /\
   (is_Some (files (fs σ) !! old) -> fs σ' = fs σ) /\
   dialogs σ' = dialogs σ ++ [SaveFileDialog (qs "Save File")]) /\
  (chosen <> [] ->
   (QFile_fileName <$> openFile (win σ')) = Some chosen /\
   (QFile_isOpen <$> openFile (win σ')) =
     Some (fst (fs_open ReadWrite chosen (fs σ))) /\
   fileName (win σ') =
     (if fst (fs_open ReadWrite chosen (fs σ))
      then QFileInfo_fileName chosen else qs "Unsaved file") /\
   same_but_openFile (win σ) (win σ') /\
   (fst (fs_open ReadWrite chosen (fs σ)) = true ->
    content <$> files (fs σ') !! chosen = Some (c_str (editor (win σ)))) /\
   (forall q, ~ save_paths chosen q ->
      files (fs σ') !! q = files (fs σ) !! q)).
Proof.
  intros Hf. cbv zeta. rewrite (run_saveAs σ chosen f Hf). cbv zeta.
  split.
  - intros ->. cbn [isEmpty win fs dialogs]. split; [done|].
    split; [by repeat split|]. split; [done|]. split; [|done].
    apply fs_open_ReadWrite_exists.
  - intros Hc. rewrite (isEmpty_false chosen Hc).
    set (σ1 := run (modify_win (set_openFile None)) σ).
    destruct (saveFile_unsaved σ1 (qs "Save as") chosen eq_refl Hc)
      as (_ & _ & Hn & Ho & Hcont).
    pose proof (saveFile_frame σ1 true (qs "Save as") chosen) as Hframe.
    cbv zeta in *. change (openFile (win σ1)) with (@None QFile) in Hframe.
    destruct Hframe as (Hw & _ & _ & Hq).
    split; [done|]. split; [done|]. split; [|split; [|split; [done|done]]].
    + unfold fileName.
      destruct (openFile (win (run (saveFile true (qs "Save as") chosen) σ1)))
        as [f'|]; [|done].
      cbn in Hn, Ho. injection Hn as Hn. injection Ho as Ho.
      rewrite Hn, Ho. by destruct (fst (fs_open ReadWrite chosen (fs σ))).
    + destruct Hw as (? & ? & ? & ? & ? & ? & ?). by repeat split.
Qed.

(** The theorem on a cancelled dialog. *)
Lemma X22_saveAs_witness :
  openFile (win (run (saveAs []) fresh_world)) = Some sol_cpp /\
  fs (run (saveAs []) fresh_world) = fs fresh_world.
Proof.
  destruct (X22_saveAs fresh_world [] sol_cpp eq_refl) as (H & _).
  destruct (H eq_refl) as (H1 & _ & _ & H2 & _).
  split; [exact H1|]. apply H2. by eexists.
Defined.

End SavingAs.

Section Running.

Import Scenarios Examples.

(** The window after [clearTests], field by field. *)
Lemma clearTests_fields (σ : World) (outputOnly : bool) :
  three_slots (win σ) ->
  let w := win σ in
  let σ' := run (clearTests outputOnly) σ in
  let w' := win σ' in
  output w' = replicate 3 [] /\
  verdict w' = replicate 3 (label_of UNKNOWN) /\
  input w' = (if outputOnly then input w else replicate 3 []) /\
  expected w' = (if outputOnly then expected w else replicate 3 []) /\
  editor w' = editor w /\ openFile w' = openFile w /\
  templatePath w' = templatePath w /\
  shouldSaveTests w' = shouldSaveTests w /\
  fs σ' = fs σ /\ logger σ' = logger σ /\ dialogs σ' = dialogs σ.
Proof.
  intros (Hi & Ho & Hv & He). destruct σ as [w fs0 lg dl].
  destruct w as [ed inp outp ver exp opf tp sst]. cbn in Hi, Ho, Hv, He.
  apply length_three in Hi as (? & ? & ? & ->).
  apply length_three in Ho as (? & ? & ? & ->).
  apply length_three in Hv as (? & ? & ? & ->).
  apply length_three in He as (? & ? & ? & ->).
  destruct outputOnly; cbv; repeat split; done.
Qed.

(** The loop of [on_run_clicked]: the outputs are cleared, and slot [i]
    is to be run when its input is not blank. *)
Lemma isRun_loop_spec (σ : World) :
  three_slots (win σ) ->
  let w := win σ in
  let m := isRun_loop (seq 0 3) [] in
  let w' := win (run m σ) in
  result m σ = map (fun t => negb (isEmpty (trimmed t))) (input w) /\
  output w' = replicate 3 [] /\
  input w' = input w /\ expected w' = expected w /\ editor w' = editor w /\
  verdict w' = verdict w /\ openFile w' = openFile w /\
  templatePath w' = templatePath w /\
  shouldSaveTests w' = shouldSaveTests w /\
  fs (run m σ) = fs σ /\ logger (run m σ) = logger σ /\
  dialogs (run m σ) = dialogs σ.
Proof.
  intros (Hi & Ho & Hv & He). destruct σ as [w fs0 lg dl].
  destruct w as [ed inp outp ver exp opf tp sst]. cbn in Hi, Ho, Hv, He.
  apply length_three in Hi as (i0 & i1 & i2 & ->).
  apply length_three in Ho as (? & ? & ? & ->).
  cbv zeta. cbn [seq isRun_loop].
  rewrite !result_bind, !run_bind.
  cbn [run result modify_win get_win mret M_ret fst snd win fs logger dialogs
       input output set_output slot lookup list_lookup default app map
       insert list_insert editor verdict expected openFile templatePath
       shouldSaveTests replicate].
  done.
Qed.

Lemma run_run_command (σ : World) (readToFile : M unit) :
  let m := Log_clear;; clearTests true;;
           saveFile false (qs "Compiler") [];; readToFile;;
           isRun_loop (seq 0 3) [] in
  run m σ =
    run (isRun_loop (seq 0 3) [])
      (run readToFile
         (run (saveFile false (qs "Compiler") [])
            (run (clearTests true) (run Log_clear σ)))) /\
  result m σ =
    result (isRun_loop (seq 0 3) [])
      (run readToFile
         (run (saveFile false (qs "Compiler") [])
            (run (clearTests true) (run Log_clear σ)))).
Proof. cbv zeta. by rewrite !result_bind, !run_bind. Qed.

(** The body of the run commands up to the call of the runner, when the
    input reader leaves the window alone. *)
Lemma run_command_spec (σ : World) (readToFile : M unit) :
  three_slots (win σ) ->
  (forall σ0, win (run readToFile σ0) = win σ0) ->
  let m := Log_clear;; clearTests true;;
           saveFile false (qs "Compiler") [];; readToFile;;
           isRun_loop (seq 0 3) [] in
  let w := win σ in
  let w' := win (run m σ) in
  result m σ = map (fun t => negb (isEmpty (trimmed t))) (input w) /\
  input w' = input w /\ expected w' = expected w /\ editor w' = editor w /\
  output w' = replicate 3 [] /\
  verdict w' = replicate 3 (label_of UNKNOWN) /\
  templatePath w' = templatePath w /\
  shouldSaveTests w' = shouldSaveTests w.
Proof.
  intros H3 Hread. cbv zeta.
  destruct (run_run_command σ readToFile) as [-> ->].
  pose proof (clearTests_fields (run Log_clear σ) true H3) as H2.
  cbv zeta in H2. change (win (run Log_clear σ)) with (win σ) in H2.
  destruct H2 as (Ho2 & Hv2 & Hi2 & Hx2 & He2 & _ & Ht2 & Hs2 & _).
  generalize dependent (run (clearTests true) (run Log_clear σ)).
  intros σ2 Ho2 Hv2 Hi2 Hx2 He2 Ht2 Hs2.
  destruct (saveFile_frame σ2 false (qs "Compiler") [])
    as ((He3 & Hi3 & Ho3 & Hv3 & Hx3 & Ht3 & Hs3) & _).
  generalize dependent (run (saveFile false (qs "Compiler") []) σ2).
  intros σ3 He3 Hi3 Ho3 Hv3 Hx3 Ht3 Hs3.
  pose proof (Hread σ3) as H4.
  generalize dependent (run readToFile σ3). intros σ4 H4.
  destruct (isRun_loop_spec σ4)
    as (Hres & Ho5 & Hi5 & Hx5 & He5 & Hv5 & _ & Ht5 & Hs5 & _).
  { destruct H3 as (Li & Lo & Lv & Le). unfold three_slots.
    rewrite H4, Hi3, Ho3, Hv3, Hx3, Hi2, Ho2, Hv2, Hx2. by rewrite Li, Le. }
  cbv zeta in *.
  rewrite Hres, Ho5, Hi5, Hx5, He5, Hv5, Ht5, Hs5, H4.
  rewrite He3, Hi3, Hv3, Hx3, Ht3, Hs3, He2, Hi2, Hv2, Hx2, Ht2, Hs2. done.
Qed.

(** X23: the run commands ([on_run_clicked], and [on_runOnly_clicked],
    which has the same body), when the input reader leaves the window
    alone.  Slot [i] is handed to the runner as enabled exactly when its
    input is not blank; all outputs are cleared and all verdicts reset
    to Unknown; the inputs, the expected outputs and the text of the
    editor are as before the command. *)
Theorem X23_on_run_clicked (σ : World) (readToFile : M unit)
    (m : M (list bool)) :
  three_slots (win σ) ->
  (forall σ0, win (run readToFile σ0) = win σ0) ->
  m = on_run_clicked readToFile \/ m = on_runOnly_clicked readToFile ->
  let w := win σ in
  let w' := win (run m σ) in
  (forall i, i < 3 ->
     result m σ !! i = Some (negb (isEmpty (trimmed (slot (input w) i))))) /\
  length (result m σ) = 3 /\
  input w' = input w /\ expected w' = expected w /\ editor w' = editor w /\
  output w' = replicate 3 [] /\
  verdict w' = replicate 3 (label_of UNKNOWN).
Proof.
  intros H3 Hread Hm.
  destruct (run_command_spec σ readToFile H3 Hread)
    as (Hres & Hi & Hx & He & Ho & Hv & _).
  cbv zeta in *.
  destruct Hm as [-> | ->];
    [unfold on_run_clicked|unfold on_runOnly_clicked];
    rewrite Hres, Hi, Hx, He, Ho, Hv;
    (destruct H3 as (Li & _); rewrite length_map;
     split; [|done]; intros i Hlt;
     by rewrite list_lookup_fmap, (slot_lookup (input (win σ)) i) by lia).
Qed.

(** The theorem on a window with two tests and an input reader that
    does nothing. *)
Lemma X23_on_run_clicked_witness :
  three_slots (win fresh_world) /\
  result (on_run_clicked (mret tt)) fresh_world !! 2 = Some false /\
  result (on_runOnly_clicked (mret tt)) fresh_world !! 0 = Some true.
Proof.
  assert (H3 : three_slots (win fresh_world)) by (repeat split; reflexivity).
  split; [exact H3|]. split.
  - destruct (X23_on_run_clicked fresh_world (mret tt)
                (on_run_clicked (mret tt)) H3) as (H & _);
      [done|by left|].
    apply (H 2). lia.
  - destruct (X23_on_run_clicked fresh_world (mret tt)
                (on_runOnly_clicked (mret tt)) H3) as (H & _);
      [done|by right|].
    apply (H 0). lia.
Defined.

(** X24: a run from start to end.  After a run command, the callback
    [executionFinished] for slot [id] leaves the verdict of the slot at
    Unknown when the output of the program or the expected output is
    empty, and otherwise shows Accepted or Wrong Answer as
    [isVerdictPass] decides, whatever verdict the slot showed before the
    run; the verdicts of the other slots stay at Unknown. *)
Theorem X24_run_then_executionFinished (σ : World) (readToFile : M unit)
    (id : nat) (msec : Z) (Stdout : QString) :
  three_slots (win σ) ->
  (forall σ0, win (run readToFile σ0) = win σ0) ->
  id < 3 ->
  let σ' := run (executionFinished id msec Stdout)
              (run (on_run_clicked readToFile) σ) in
  let exp := slot (expected (win σ)) id in
  verdict (win σ') !! id =
    Some (label_of
            (if isEmpty Stdout || isEmpty exp then UNKNOWN
             else if isVerdictPass Stdout exp then ACCEPTED
                  else WRONG_ANSWER)) /\
  (forall j, j < 3 -> j <> id ->
     verdict (win σ') !! j = Some (label_of UNKNOWN)) /\
  output (win σ') !! id = Some Stdout /\
  (forall j, j < 3 -> j <> id -> output (win σ') !! j = Some []).
Proof.
  intros H3 Hread Hid. cbv zeta.
  destruct (run_command_spec σ readToFile H3 Hread)
    as (_ & Hi & Hx & He & Ho & Hv & _).
  cbv zeta in *. unfold on_run_clicked.
  generalize dependent
    (run (Log_clear;; clearTests true;;
          saveFile false (qs "Compiler") [];; readToFile;;
          isRun_loop (seq 0 3) []) σ).
  intros σ1 Hi Hx He Ho Hv.
  destruct (executionFinished_fields σ1 id msec Stdout)
    as (_ & _ & HO & HV & _).
  cbv zeta in *. rewrite HO, HV, Hx, Ho, Hv.
  split; [|split; [|split]].
  - destruct (isEmpty Stdout || isEmpty (slot (expected (win σ)) id)).
    + by apply lookup_replicate_2.
    + apply alter_label. by rewrite length_replicate.
  - intros j Hj Hne.
    destruct (isEmpty Stdout || isEmpty (slot (expected (win σ)) id)).
    + by apply lookup_replicate_2.
    + rewrite !list_lookup_alter_ne by done. by apply lookup_replicate_2.
  - apply list_lookup_insert_eq. by rewrite length_replicate.
  - intros j Hj Hne. rewrite list_lookup_insert_ne by done.
    by apply lookup_replicate_2.
Qed.

(** The theorem on a run whose first test prints what is expected. *)
Lemma X24_run_then_executionFinished_witness :
  three_slots (win fresh_world) /\
  verdict (win (run (executionFinished 0 12 (qs "3"))
                  (run (on_run_clicked (mret tt)) fresh_world))) !! 0 =
  Some (label_of ACCEPTED).
Proof.
  assert (H3 : three_slots (win fresh_world)) by (repeat split; reflexivity).
  split; [exact H3|].
  destruct (X24_run_then_executionFinished fresh_world (mret tt) 0 12 (qs "3")
              H3) as (H & _); [done|lia|].
  exact H.
Defined.

End Running.

Section LogOfSave.

Variable l0 : list LogEntry.

Lemma tests_logged_pure {A} (m : M A) :
  (forall σ, logger (run m σ) = logger σ) ->
  keeps (tests_logged l0) m (fun _ => True).
Proof.
  intros Hm σ (l & Hl & Ht). split; [|done]. exists l. by rewrite Hm.
Qed.

Lemma tests_logged_log (s : Severity) (body : QString) :
  keeps (tests_logged l0) (log s (qs "Tests") body) (fun _ => True).
Proof.
  intros σ (l & Hl & Ht). split; [|done].
  exists (l ++ [{| severity := s; category := qs "Tests";
                   message := body |}]).
  split; [cbn; by rewrite Hl, app_assoc|].
  apply Forall_app. split; [done|]. by constructor.
Qed.

(** The writing of one field by [saveTests]. *)
Lemma tests_logged_field (name data ok bad cannot : QString) (b : bool) :
  keeps (tests_logged l0)
    (if b then
       file ← QFile_open WriteOnly (QFile_new name);
       if QFile_isOpen file then
         '(n, _) ← QFile_write data file;
         if negb (n =? -1)%Z then Log_info (qs "Tests") ok
         else Log_error (qs "Tests") bad
       else Log_error (qs "Tests") cannot
     else mret tt) (fun _ => True).
Proof.
  destruct b; [|by apply keeps_ret].
  eapply keeps_bind.
  { apply tests_logged_pure. intros σ.
    by destruct (QFile_open_frame WriteOnly (QFile_new name) σ)
      as (_ & _ & H & _). }
  intros file _. destruct (QFile_isOpen file); [|apply tests_logged_log].
  eapply keeps_bind.
  { apply tests_logged_pure. intros σ.
    by destruct (QFile_write_frame data file σ) as (_ & _ & H & _). }
  intros [n f'] _. destruct (negb (n =? -1)%Z); apply tests_logged_log.
Qed.

Lemma tests_logged_saveTests :
  keeps (tests_logged l0) saveTests (fun _ => True).
Proof.
  unfold saveTests.
  eapply keeps_bind; [by apply (tests_logged_pure get_win)|]. intros w _.
  destruct (openFile w) as [f|]; [|by apply keeps_ret].
  destruct (negb (shouldSaveTests w)); [by apply keeps_ret|].
  apply keeps_for. intros i _. unfold saveTests_body.
  eapply keeps_bind; [by apply (tests_logged_pure get_win)|]. intros w' _.
  eapply keeps_bind; [apply tests_logged_field|]. intros _ _.
  apply tests_logged_field.
Qed.

(** The part of [saveFile] that follows the writing of the buffer. *)
Lemma tests_logged_saveFile_tail :
  keeps (tests_logged l0)
    (saveTests;; on_textChanged_triggered;; mret true) (fun _ => True).
Proof.
  eapply keeps_bind; [apply tests_logged_saveTests|]. intros _ _.
  eapply keeps_bind; [|intros _ _; by apply keeps_ret].
  apply tests_logged_pure. intros σ. rewrite run_on_textChanged_triggered.
  by destruct (isTextChanged_frame σ) as (_ & _ & H & _).
Qed.

End LogOfSave.

Section CommandLaws.

Import Scenarios Examples.

Lemma run_on_compile_clicked (σ : World) :
  run on_compile_clicked σ =
  run (saveFile false (qs "Compiler") []) (run Log_clear σ).
Proof. unfold on_compile_clicked. by rewrite !run_bind, run_ret. Qed.

(** What [saveFile] logs on a window with a backing file: that it has
    saved under the name of the file, and then messages about the test
    files only. *)
Lemma saveFile_backed_log (σ : World) (force : bool) (head chosen : QString)
    (f : QFile) :
  openFile (win σ) = Some f ->
  tests_logged (logger σ ++ [saved_with_name head (QFile_fileName f)])
    (run (saveFile force head chosen) σ).
Proof.
  intros Hf. unfold saveFile. rewrite run_bind.
  cbn [run result get_win fst snd]. rewrite Hf.
  rewrite run_bind.
  destruct (QFile_resize_frame 0 f σ) as (_ & _ & Hl1 & _ & _ & Hn1 & _).
  cbv zeta in Hl1, Hn1.
  generalize dependent (run (QFile_resize 0 f) σ).
  generalize dependent (result (QFile_resize 0 f) σ).
  intros f1 Hn1 σ1 Hl1. rewrite run_bind.
  destruct (QFile_write_frame (c_str (toStdString (editor (win σ)))) f1 σ1)
    as (_ & _ & Hl2 & _ & _ & Hn2 & _).
  cbv zeta in Hl2, Hn2.
  generalize dependent
    (run (QFile_write (c_str (toStdString (editor (win σ)))) f1) σ1).
  destruct (result (QFile_write (c_str (toStdString (editor (win σ)))) f1) σ1)
    as [n f2].
  cbn [snd] in Hn2. intros σ2 Hl2. cbn iota beta.
  rewrite run_bind, run_bind, run_bind.
  apply tests_logged_saveFile_tail.
  exists []. split; [|done]. rewrite app_nil_r.
  cbn [run Log_info log QFile_flush modify_win mret M_ret snd logger].
  unfold saved_with_name, toStdString. by rewrite Hl2, Hl1, Hn2, Hn1.
Qed.

(** X25: [on_compile_clicked] up to the call of the compiler.  The
    message log is cleared: whatever it held before, without a backing
    file it is empty afterwards, and with one it holds the message that
    the file was saved, under the head [Compiler], followed by messages
    about the test files only.  Without a backing file nothing else
    happens: no name is asked for and nothing is written.  With a
    backing file whose handle is open, the file receives the text of the
    editor up to its first NUL before the compiler is called.  In every
    case the window changes in its handle at most, and no file changes
    other than the backing file and its six test files. *)
Theorem X25_on_compile_clicked (σ : World) :
  let σ' := run on_compile_clicked σ in
  (openFile (win σ) = None -> σ' = run Log_clear σ /\ logger σ' = []) /\
  (forall f,
     openFile (win σ) = Some f ->
     tests_logged [saved_with_name (qs "Compiler") (QFile_fileName f)] σ') /\
  (forall f file,
     openFile (win σ) = Some f -> QFile_isOpen f = true ->
     files (fs σ) !! QFile_fileName f = Some file ->
     files (fs σ') !! QFile_fileName f =
       Some {| content := c_str (editor (win σ));
               readable := readable file; writable := writable file |}) /\
  same_but_openFile (win σ) (win σ') /\
  (forall f q,
     openFile (win σ) = Some f -> ~ save_paths (QFile_fileName f) q ->
     files (fs σ') !! q = files (fs σ) !! q).
Proof.
  cbv zeta. rewrite run_on_compile_clicked.
  assert (H1 : win (run Log_clear σ) = win σ /\ fs (run Log_clear σ) = fs σ /\
               logger (run Log_clear σ) = [])
    by done.
  generalize dependent (run Log_clear σ). intros σ1 (Hw & Hfs & Hlog).
  split; [|split; [|split; [|split]]].
  - intros Hf.
    assert (H : run (saveFile false (qs "Compiler") []) σ1 = σ1)
      by (apply saveFile_false; rewrite saveFile_result, Hw, Hf; done).
    by rewrite H.
  - intros f Hf. rewrite <- Hw in Hf.
    pose proof (saveFile_backed_log σ1 false (qs "Compiler") [] f Hf) as H.
    by rewrite Hlog in H.
  - intros f file Hf Ho Hp.
    destruct (saveFile_backed σ1 false (qs "Compiler") [] f file)
      as (_ & _ & _ & _ & H); [by rewrite Hw|done|by rewrite Hfs|].
    cbv zeta in H. by rewrite H, Hw.
  - destruct (saveFile_frame σ1 false (qs "Compiler") []) as (H & _).
    by rewrite Hw in H.
  - intros f q Hf Hq.
    destruct (saveFile_frame σ1 false (qs "Compiler") []) as (_ & _ & _ & H).
    rewrite Hw, Hf, Hfs in H. by apply H.
Qed.

(** The theorem on a window whose log holds the messages of an earlier
    compilation and whose buffer differs from the file on disk: the
    file is written and the earlier messages are gone. *)
Lemma X25_on_compile_clicked_witness :
  let σ' := run on_compile_clicked logged_world in
  logger logged_world <> [] /\
  tests_logged [saved_with_name (qs "Compiler") (qs "/home/u/sol.cpp")] σ' /\
  length (logger σ') = 4 /\
  files (fs σ') !! qs "/home/u/sol.cpp" = Some (plain (qs "int main(){}")).
Proof.
  cbv zeta.
  destruct (X25_on_compile_clicked logged_world) as (_ & Hlog & Hfile & _).
  split; [discriminate|]. split; [exact (Hlog sol_cpp eq_refl)|].
  split; [reflexivity|].
  exact (Hfile sol_cpp (plain (qs "old")) eq_refl eq_refl eq_refl).
Defined.

End CommandLaws.
